(** * Verification of ai_vbuilder.py: Verilog header parser, top-module
    generator and project persistence.

    Shallow embedding of [src/ai_vbuilder.py].

    Conventions of the model.
    - A Python [str] handled by the parser and the generator is a Rocq
      [string]; its characters are the code points U+0000..U+00FF (Latin-1),
      and the character classes of Python's [re] and [str] methods are
      given for exactly that range.
    - Python values stored in the objects of the application and exchanged
      with [json] are [pyval]; their strings are lists of code points
      ([pystr], any code point).
    - Exceptions are the constructors of [exn]; computations that may raise
      live in the monad [res]. *)

From Stdlib Require Import String Ascii ZArith List Bool Lia.
From Stdlib Require Import Strings.Byte.
Import ListNotations.
Open Scope string_scope.
Open Scope Z_scope.

(* ================================================================== *)
(** ** Exceptions and the error monad *)

Inductive exn : Type :=
| ValueError (msg : string)
| IndexError (msg : string)
| KeyError (msg : string)
| TypeError (msg : string)
| AttributeError (msg : string)
| UnicodeError (msg : string)
| JSONDecodeError (msg : string)
| BinasciiError (msg : string)
| OSError (msg : string).

Inductive res (A : Type) : Type :=
| Ok (a : A)
| Exc (e : exn).
Arguments Ok {A} a.
Arguments Exc {A} e.

Definition res_bind {A B} (m : res A) (f : A -> res B) : res B :=
  match m with Ok a => f a | Exc e => Exc e end.

Notation "x <- m ;; k" := (res_bind m (fun x => k))
  (at level 61, m at next level, right associativity).

(* ================================================================== *)
(** ** Latin-1 character classes of Python 3 *)

Definition code (c : ascii) : Z := Z.of_nat (nat_of_ascii c).

Definition chr (n : Z) : ascii := ascii_of_nat (Z.to_nat n).

(** [str.isspace] / [\s]: 0x09-0x0D, 0x1C-0x20, 0x85, 0xA0. *)
Definition is_space (c : ascii) : bool :=
  let n := code c in
  ((9 <=? n) && (n <=? 13)) || ((28 <=? n) && (n <=? 32))
  || (n =? 133) || (n =? 160).

Definition is_digit (c : ascii) : bool :=
  let n := code c in (48 <=? n) && (n <=? 57).

(** [\w]: characters with [str.isalnum()] plus underscore. *)
Definition is_word (c : ascii) : bool :=
  let n := code c in
  ((48 <=? n) && (n <=? 57)) || ((65 <=? n) && (n <=? 90))
  || ((97 <=? n) && (n <=? 122)) || (n =? 95)
  || (n =? 170) || (n =? 178) || (n =? 179) || (n =? 181) || (n =? 185)
  || (n =? 186) || ((188 <=? n) && (n <=? 190))
  || ((192 <=? n) && (n <=? 214)) || ((216 <=? n) && (n <=? 246))
  || ((248 <=? n) && (n <=? 255)).

(** [str.lower] on Latin-1. *)
Definition lower_char (c : ascii) : ascii :=
  let n := code c in
  if ((65 <=? n) && (n <=? 90)) || ((192 <=? n) && (n <=? 222) && negb (n =? 215))
  then chr (n + 32) else c.

Fixpoint str_lower (s : string) : string :=
  match s with
  | EmptyString => EmptyString
  | String c r => String (lower_char c) (str_lower r)
  end.

(* ================================================================== *)
(** ** String helpers (Python [str] methods) *)

Fixpoint lstrip (s : string) : string :=
  match s with
  | String c r => if is_space c then lstrip r else s
  | EmptyString => EmptyString
  end.

Fixpoint rev_str (s : string) (acc : string) : string :=
  match s with
  | EmptyString => acc
  | String c r => rev_str r (String c acc)
  end.

Definition rstrip (s : string) : string := rev_str (lstrip (rev_str s "")) "".

(** [str.strip()] *)
Definition strip (s : string) : string := rstrip (lstrip s).

(** [sub in s] for strings *)
Fixpoint str_contains (sub s : string) : bool :=
  String.prefix sub s ||
  match s with
  | EmptyString => false
  | String _ r => str_contains sub r
  end.

(** [s.replace(old, new)] for a non-empty [old]: leftmost, non-overlapping. *)
Fixpoint str_replace_aux (fuel : nat) (old new s : string) : string :=
  match fuel with
  | O => s
  | S f =>
      if String.prefix old s then
        new ++ str_replace_aux f old new
                 (substring (String.length old) (String.length s) s)
      else match s with
           | EmptyString => EmptyString
           | String c r => String c (str_replace_aux f old new r)
           end
  end.

Definition str_replace (old new s : string) : string :=
  str_replace_aux (S (String.length s)) old new s.

(** [sep.join(xs)] *)
Fixpoint join (sep : string) (xs : list string) : string :=
  match xs with
  | [] => ""
  | [x] => x
  | x :: r => x ++ sep ++ join sep r
  end.

(** Decimal rendering of an [int] ([str(z)]). *)
Fixpoint dec_digits (fuel : nat) (n : Z) (acc : string) : string :=
  match fuel with
  | O => acc
  | S f =>
      let acc' := String (chr (48 + n mod 10)) acc in
      if n / 10 =? 0 then acc' else dec_digits f (n / 10) acc'
  end.

Definition Z_to_dec (z : Z) : string :=
  let fuel := S (Pos.size_nat (Z.to_pos (Z.abs z))) in
  if z <? 0 then "-" ++ dec_digits fuel (- z) "" else dec_digits fuel z "".

(** [int(s)] for a [str] in base 10: surrounding whitespace, an optional
    sign, decimal digits with single underscores between digits, at most
    [int_max_str_digits] digits. *)
Fixpoint dec_body (s : string) (acc : Z) (prev_digit : bool) : option Z :=
  match s with
  | EmptyString => if prev_digit then Some acc else None
  | String c r =>
      if is_digit c then dec_body r (acc * 10 + (code c - 48)) true
      else if (Ascii.eqb c "_") && prev_digit then dec_body r acc false
      else None
  end.

(** CPython's limit on the digits [int()] converts from a [str]
    ([sys.get_int_max_str_digits()], 4300 by default): beyond it [int()]
    raises [ValueError]. *)
Definition int_max_str_digits : nat := 4300.

Fixpoint count_digits (s : string) : nat :=
  match s with
  | EmptyString => 0
  | String c r => if is_digit c then S (count_digits r) else count_digits r
  end.

Definition py_int (s : string) : option Z :=
  if Nat.ltb int_max_str_digits (count_digits (strip s)) then None else
  match strip s with
  | String c r =>
      if Ascii.eqb c "-" then option_map Z.opp (dec_body r 0 false)
      else if Ascii.eqb c "+" then dec_body r 0 false
      else dec_body (String c r) 0 false
  | EmptyString => None
  end.

(* ================================================================== *)
(** ** Width formatting of [generate_top_module]

    Both loops of [generate_top_module] contain the same block:
<<
    width_str = ""
    if width != "1":
        try:
            if ':' in width:
                width_str = f" [{width}]"
            else:
                w_val = int(width)
                if w_val > 1:
                    width_str = f" [{w_val-1}:0]"
        except:
            if width != "1":
                width_str = f" [{width}]"
>> *)
Definition format_width (width : string) : string :=
  if negb (String.eqb width "1") then
    if str_contains ":" width then " [" ++ width ++ "]"
    else match py_int width with
         | Some w_val =>
             if w_val >? 1 then " [" ++ Z_to_dec (w_val - 1) ++ ":0]" else ""
         | None =>
             if negb (String.eqb width "1") then " [" ++ width ++ "]" else ""
         end
  else "".


(* ================================================================== *)
(** ** Python dictionaries with string keys

    A [dict] is an association list in insertion order with unique keys;
    [d[k] = v] replaces the value in place when [k] is present and appends
    otherwise. *)

Fixpoint dict_get {V} (d : list (string * V)) (k : string) : option V :=
  match d with
  | [] => None
  | (k', v) :: r => if String.eqb k k' then Some v else dict_get r k
  end.

Fixpoint dict_set {V} (d : list (string * V)) (k : string) (v : V)
  : list (string * V) :=
  match d with
  | [] => [(k, v)]
  | (k', v') :: r =>
      if String.eqb k k' then (k', v) :: r else (k', v') :: dict_set r k v
  end.

(* ================================================================== *)
(** ** Entity model: [VerilogModule] and [ModuleInstance]

    The records below are the well-formed content of the objects: the
    [dict]s built by [add_port] and [add_parameter], and the attributes of
    the two classes. *)

(** [{'name', 'direction', 'dtype', 'width', 'dimensions'}] *)
Record port := mkPort {
  port_name : string;
  port_direction : string;
  port_dtype : string;
  port_width : string;
  port_dimensions : list string
}.

(** [{'name', 'value', 'type'}]; [type] is [None], ["int"] or ["string"]. *)
Record parameter := mkParameter {
  param_name : string;
  param_value : string;
  param_type : option string
}.

Record vmodule := mkModule {
  mod_name : string;
  mod_filepath : string;
  mod_ports : list port;
  mod_parameters : list parameter;
  mod_macros : list (string * string)
}.

(** [connections]: port_name -> (connection_type, signal_name);
    [parameter_values]: param_name -> value. [module_ref] is the module
    object the instance holds. *)
Record instance := mkInstance {
  inst_module : vmodule;
  inst_name : string;
  inst_connections : list (string * (string * string));
  inst_parameter_values : list (string * string)
}.

(** [ModuleInstance.get_port_info] *)
Definition get_port_info (inst : instance) (pname : string) : option port :=
  find (fun p => String.eqb (port_name p) pname) (mod_ports (inst_module inst)).

(* ================================================================== *)
(** ** [VerilogGenerator.generate_top_module] *)

(** First loop: top-level ports. *)
Definition top_ports_of_instance (top_ports : list string) (instance : instance)
  : list string :=
  fold_left
    (fun top_ports (entry : string * (string * string)) =>
       let '(port_name, (conn_type, signal_name)) := entry in
       match get_port_info instance port_name with
       | None => top_ports
       | Some port_info =>
           if String.eqb signal_name "" then top_ports else
           let direction := port_direction port_info in
           let width_str := format_width (port_width port_info) in
           if String.eqb conn_type "input" && String.eqb direction "input" then
             app top_ports ["input wire" ++ width_str ++ " " ++ signal_name]
           else if String.eqb conn_type "output" && String.eqb direction "output" then
             app top_ports ["output wire" ++ width_str ++ " " ++ signal_name]
           else top_ports
       end)
    (inst_connections instance) top_ports.

Definition collect_top_ports (instances : list instance) : list string :=
  fold_left top_ports_of_instance instances [].

(** Second loop: the [wires] dict, signal_name -> width_str. *)
Definition wires_of_instance (wires : list (string * string)) (instance : instance)
  : list (string * string) :=
  fold_left
    (fun wires (entry : string * (string * string)) =>
       let '(port_name, (conn_type, signal_name)) := entry in
       match get_port_info instance port_name with
       | None => wires
       | Some port_info =>
           if String.eqb signal_name "" then wires else
           if String.eqb conn_type "wire" then
             dict_set wires signal_name (format_width (port_width port_info))
           else wires
       end)
    (inst_connections instance) wires.

Definition collect_wires (instances : list instance) : list (string * string) :=
  fold_left wires_of_instance instances [].

(** Third loop: one instantiation per instance. *)
Definition instance_lines (instance : instance) : list string :=
  let m := inst_module instance in
  let param_strs :=
    map (fun param =>
           let value := match dict_get (inst_parameter_values instance) (param_name param) with
                        | Some v => v | None => param_value param end in
           "." ++ param_name param ++ "(" ++ value ++ ")")
        (mod_parameters m) in
  let port_strs :=
    map (fun port =>
           match dict_get (inst_connections instance) (port_name port) with
           | Some (_, signal_name) => "." ++ port_name port ++ "(" ++ signal_name ++ ")"
           | None => "." ++ port_name port ++ "()"
           end)
        (mod_ports m) in
  let param_conn :=
    match param_strs with
    | [] => ""
    | _ => " #(
    " ++ join ",
    " param_strs ++ "
  )"
    end in
  ["  // Source: " ++ mod_filepath m;
   "  " ++ mod_name m ++ param_conn ++ " " ++ inst_name instance ++ " (";
   join ",
    " port_strs;
   "  );
"].

Definition generate_top_module (instances : list instance) (top_module_name : string)
  : string :=
  let top_ports := collect_top_ports instances in
  let wires := collect_wires instances in
  let lines :=
    app ["// Auto-generated top module: " ++ top_module_name;
         "module " ++ top_module_name ++ " ("]
    (app (match top_ports with [] => [] | _ => [join ",
  " top_ports] end)
    (app [");
"]
    (app (map (fun '(signal_name, width_str) =>
                 "  wire" ++ width_str ++ " " ++ signal_name ++ ";") wires)
    (app (match wires with [] => [] | _ => [""] end)
    (app (flat_map instance_lines instances)
         ["endmodule"]))))) in
  join "
" lines.

(** The end-to-end example of the specification. *)
Definition counter_module : vmodule :=
  mkModule "counter" "counter.v"
    [mkPort "clk" "input" "wire" "1" []; mkPort "count" "output" "wire" "7:0" []]
    [] [].

Definition u_counter : instance :=
  mkInstance counter_module "u_counter"
    [("clk", ("input", "sysclk")); ("count", ("output", "cnt_out"))] [].

(* ================================================================== *)
(** ** Reading of the specification for the top-level port list *)

(** The declaration the specification describes for one
    (instance, port, connection) entry: [direction wire WIDTH name] when the
    port exists, the signal name is non-empty and the connection kind equals
    the port's direction, [input] or [output]; nothing otherwise. *)
Definition spec_top_decl (inst : instance) (entry : string * (string * string))
  : list string :=
  let '(pname, (kind, signal)) := entry in
  match get_port_info inst pname with
  | Some p =>
      if negb (String.eqb signal "") && String.eqb kind (port_direction p)
         && (String.eqb kind "input" || String.eqb kind "output")
      then [kind ++ " wire" ++ format_width (port_width p) ++ " " ++ signal]
      else []
  | None => []
  end.

Definition ports_block (decls : list string) : string :=
  match decls with
  | [] => ""
  | _ => join ",
  " decls ++ "
"
  end.

(** A module with two input ports [a], [b], and an instance whose
    connection map was filled in the order [b], [a]. *)
Definition ab_module : vmodule :=
  mkModule "ab" "ab.v"
    [mkPort "a" "input" "wire" "1" []; mkPort "b" "input" "wire" "1" []] [] [].

Definition u_ab : instance :=
  mkInstance ab_module "u_ab" [("b", ("input", "sb")); ("a", ("input", "sa"))] [].

(* ================================================================== *)
(** ** Python's [re]: a backtracking matcher

    The patterns of the program only repeat single character classes, so a
    repetition is [RRep min greedy class]; [x?] is [RAlt x REps] (the item
    is tried first).  Matching is continuation-passing: the continuation is
    the rest of the pattern, and the first success in priority order is the
    result, as in Python's backtracking engine. *)

Inductive rx : Type :=
| RChar (p : ascii -> bool)
| RSeq (r1 r2 : rx)
| RAlt (r1 r2 : rx)
| RRep (min : nat) (greedy : bool) (p : ascii -> bool)
| RGroup (n : nat) (r : rx)
| REnd (multiline : bool)
| REps.

(** Captured groups, most recent first. *)
Definition groups := list (nat * string).

(** Suffixes reachable by consuming characters of the class, shortest
    consumption first. *)
Fixpoint class_run (p : ascii -> bool) (s : string) : list string :=
  s :: match s with
       | String c t => if p c then class_run p t else []
       | EmptyString => []
       end.

Fixpoint first_some {A B} (f : A -> option B) (l : list A) : option B :=
  match l with
  | [] => None
  | x :: r => match f x with Some b => Some b | None => first_some f r end
  end.

(** [$]: end of string, or before a final newline; with [re.MULTILINE]
    also before any newline. *)
Definition end_ok (multiline : bool) (s : string) : bool :=
  match s with
  | EmptyString => true
  | String c t =>
      Ascii.eqb c "010" && (multiline || String.eqb t "")
  end.

Fixpoint mt (r : rx) (s : string) (g : groups)
  (k : string -> groups -> option (string * groups)) {struct r}
  : option (string * groups) :=
  match r with
  | RChar p =>
      match s with
      | String c t => if p c then k t g else None
      | EmptyString => None
      end
  | RSeq r1 r2 => mt r1 s g (fun s' g' => mt r2 s' g' k)
  | RAlt r1 r2 =>
      match mt r1 s g k with
      | Some x => Some x
      | None => mt r2 s g k
      end
  | RRep n greedy p =>
      let cands := skipn n (class_run p s) in
      first_some (fun s' => k s' g) (if greedy then rev cands else cands)
  | RGroup n r1 =>
      mt r1 s g (fun s' g' =>
        k s' ((n, substring 0 (String.length s - String.length s') s) :: g'))
  | REnd ml => if end_ok ml s then k s g else None
  | REps => k s g
  end.

Fixpoint ngroups (r : rx) : nat :=
  match r with
  | RSeq r1 r2 | RAlt r1 r2 => Nat.max (ngroups r1) (ngroups r2)
  | RGroup n r1 => Nat.max n (ngroups r1)
  | _ => 0
  end.

(** A match object: where it starts and ends (as suffixes of the subject),
    its groups, and the number of groups of its pattern. *)
Record rmatch := mkMatch {
  m_start : string;
  m_end : string;
  m_groups : groups;
  m_ngroups : nat
}.

(** One attempt at the start of [s]; after an empty match the next search
    must not return an empty match at the same position ([must_advance]). *)
Definition match_at (r : rx) (s : string) (must_advance : bool)
  : option (string * groups) :=
  mt r s [] (fun s' g =>
    if must_advance && Nat.eqb (String.length s') (String.length s) then None
    else Some (s', g)).

Fixpoint search_from (r : rx) (s : string) (must_advance : bool) : option rmatch :=
  match match_at r s must_advance with
  | Some (e, g) => Some (mkMatch s e g (ngroups r))
  | None =>
      match s with
      | EmptyString => None
      | String _ t => search_from r t false
      end
  end.

(** [re.search(pattern, s)] *)
Definition re_search (r : rx) (s : string) : option rmatch := search_from r s false.

Definition match_empty (m : rmatch) : bool :=
  Nat.eqb (String.length (m_end m)) (String.length (m_start m)).

Fixpoint finditer_fuel (fuel : nat) (r : rx) (s : string) (must_advance : bool)
  : list rmatch :=
  match fuel with
  | O => []
  | S f =>
      match search_from r s must_advance with
      | None => []
      | Some m => m :: finditer_fuel f r (m_end m) (match_empty m)
      end
  end.

(** [re.finditer(pattern, s)] *)
Definition finditer (r : rx) (s : string) : list rmatch :=
  finditer_fuel (2 * String.length s + 2) r s false.

Fixpoint sub_fuel (fuel : nat) (r : rx) (s : string) (must_advance : bool) : string :=
  match fuel with
  | O => s
  | S f =>
      match search_from r s must_advance with
      | None => s
      | Some m =>
          substring 0 (String.length s - String.length (m_start m)) s
          ++ sub_fuel f r (m_end m) (match_empty m)
      end
  end.

(** [re.sub(pattern, "", s)] *)
Definition re_sub_empty (r : rx) (s : string) : string :=
  sub_fuel (2 * String.length s + 2) r s false.

Fixpoint lookup_group (g : groups) (n : nat) : option string :=
  match g with
  | [] => None
  | (n', v) :: r => if Nat.eqb n n' then Some v else lookup_group r n
  end.

(** [match.group(n)]: [None] for a group that did not participate,
    [IndexError] beyond the groups of the pattern. *)
Definition py_group (m : rmatch) (n : nat) : res (option string) :=
  if Nat.leb n (m_ngroups m) then Ok (lookup_group (m_groups m) n)
  else Exc (IndexError "no such group").

(** [match.group(n)] of a group that always participates in a match. *)
Definition group_str (m : rmatch) (n : nat) : string :=
  match lookup_group (m_groups m) n with Some v => v | None => "" end.

(** *** Pattern syntax helpers *)

Definition is_char (c : ascii) : ascii -> bool := fun x => Ascii.eqb x c.

(** A literal character under [re.IGNORECASE]. *)
Definition is_char_i (c : ascii) : ascii -> bool :=
  fun x => Ascii.eqb (lower_char x) (lower_char c).

Fixpoint lit_with (f : ascii -> ascii -> bool) (s : string) : rx :=
  match s with
  | EmptyString => REps
  | String c EmptyString => RChar (f c)
  | String c t => RSeq (RChar (f c)) (lit_with f t)
  end.

Definition lit := lit_with is_char.
Definition lit_i := lit_with is_char_i.

Fixpoint seq (rs : list rx) : rx :=
  match rs with
  | [] => REps
  | [r] => r
  | r :: t => RSeq r (seq t)
  end.

Definition opt (r : rx) : rx := RAlt r REps.

Definition any_char : ascii -> bool := fun _ => true.
Definition not_newline : ascii -> bool := fun c => negb (Ascii.eqb c "010").
Definition s_star := RRep 0 true is_space.   (* \s* *)
Definition s_plus := RRep 1 true is_space.   (* \s+ *)
Definition w_plus := RRep 1 true is_word.    (* \w+ *)

(* ================================================================== *)
(** ** The patterns of [VerilogParser.parse_verilog_file] *)

(** [r"//.*?$"], [re.MULTILINE] *)
Definition line_comment_rx : rx :=
  seq [lit "//"; RRep 0 false not_newline; REnd true].

(** [r"/\*.*?\*/"], [re.DOTALL] *)
Definition block_comment_rx : rx :=
  seq [lit "/*"; RRep 0 false any_char; lit "*/"].

(** [r"`define\s+(\w+)\s+(.+)"] *)
Definition macro_rx : rx :=
  seq [lit "`define"; s_plus; RGroup 1 w_plus; s_plus;
       RGroup 2 (RRep 1 true not_newline)].

(** The module-header pattern [module\s+(\w+)\s*], an optional parameter
    block [#\s*\(.*?\)] followed by blanks, then [\s*\(?(.*?)\)?\s*;];
    [re.DOTALL | re.IGNORECASE] *)
Definition module_rx : rx :=
  seq [lit_i "module"; s_plus; RGroup 1 w_plus; s_star;
       opt (seq [lit "#"; s_star; lit "("; RRep 0 false any_char; lit ")"; s_star]);
       s_star; opt (lit "("); RGroup 2 (RRep 0 false any_char); opt (lit ")");
       s_star; lit ";"].

(** [(wire|logic|reg)] and [(?:\[([^\]]*?)\])?] under [re.IGNORECASE] *)
Definition dtype_alt : rx := RAlt (lit_i "wire") (RAlt (lit_i "logic") (lit_i "reg")).
Definition width_opt : rx :=
  opt (seq [lit "["; RGroup 3 (RRep 0 false (fun c => negb (Ascii.eqb c "]"))); lit "]"]).

(** [r"(input|output|inout)\s*(wire|logic|reg)?\s*(?:\[([^\]]*?)\])?\s*(\w+)"],
    [re.IGNORECASE] *)
Definition port_rx : rx :=
  seq [RGroup 1 (RAlt (lit_i "input") (RAlt (lit_i "output") (lit_i "inout")));
       s_star; opt (RGroup 2 dtype_alt); s_star; width_opt; s_star;
       RGroup 4 w_plus].

(** [r"(\w+)\s*(wire|logic|reg)?\s*(?:\[([^\]]*?)\])?\s*$"], [re.IGNORECASE] *)
Definition port_fallback_rx : rx :=
  seq [RGroup 1 w_plus; s_star; opt (RGroup 2 dtype_alt); s_star; width_opt;
       s_star; REnd false].

(** [r"parameter\s+(?:type\s+)?\s*(\w+)\s*=\s*([^,;]+)"], [re.IGNORECASE] *)
Definition param_rx : rx :=
  seq [lit_i "parameter"; s_plus; opt (seq [lit_i "type"; s_plus]); s_star;
       RGroup 1 w_plus; s_star; lit "="; s_star;
       RGroup 2 (RRep 1 true (fun c => negb (Ascii.eqb c ",") && negb (Ascii.eqb c ";")))].

(* ================================================================== *)
(** ** [VerilogParser.parse_verilog_file]

    The file system is an input: reading the file either yields its text
    (already decoded with [errors='replace']) or fails with the text of the
    exception.  The result is [Ok None] for "no module found", [Ok (Some m)]
    for a module, and an exception otherwise. *)

Inductive file_read : Type :=
| FileText (content : string)
| IOFailure (cause : string).

(** Macros collected by the [finditer] loop: [macros[name] = value.strip()]. *)
Definition collect_macros (content : string) : list (string * string) :=
  fold_left (fun macros m => dict_set macros (group_str m 1) (strip (group_str m 2)))
    (finditer macro_rx content) [].

(** [for macro, value in macros.items(): content = content.replace(...)] *)
Definition apply_macros (macros : list (string * string)) (content : string) : string :=
  fold_left (fun content '(macro, value) => str_replace ("`" ++ macro) value content)
    macros content.

(** The port matches: direction-led ones, else those of the fallback
    pattern.  Each match carries the group count of its own pattern. *)
Definition port_matches (port_section : string) : list rmatch :=
  match finditer port_rx port_section with
  | [] => finditer port_fallback_rx port_section
  | ms => ms
  end.

(** The loop over the port matches: [group(1)] to [group(4)] in this order,
    then [add_port].  A group that did not take part or matched the empty
    text is false in the tests [if match.group(i)]. *)
Fixpoint ports_of_matches (ms : list rmatch) : res (list port) :=
  match ms with
  | [] => Ok []
  | m :: rest =>
      g1 <- py_group m 1 ;;
      let direction := match g1 with Some d => str_lower d | None => "wire" end in
      g2 <- py_group m 2 ;;
      let dtype := match g2 with Some t => str_lower t | None => "wire" end in
      g3 <- py_group m 3 ;;
      let width := match g3 with
                   | Some w => if String.eqb w "" then "1" else strip w
                   | None => "1"
                   end in
      g4 <- py_group m 4 ;;
      let name := match g4 with Some n => n | None => "" end in
      ports <- ports_of_matches rest ;;
      Ok (mkPort name direction dtype width [] :: ports)
  end.

(** The type detection: [int] when [value] starts with a digit ([^\d]),
    [string] when it starts with a double or a single quote. *)
Definition param_type_of (value : string) : option string :=
  match value with
  | String c _ =>
      if is_digit c then Some "int"
      else if Ascii.eqb c "034" || Ascii.eqb c "'" then Some "string"
      else None
  | EmptyString => None
  end.

Definition params_of (content : string) : list parameter :=
  map (fun m =>
         let value := strip (group_str m 2) in
         mkParameter (group_str m 1) value (param_type_of value))
    (finditer param_rx content).

Definition parse_verilog_file (filepath : string) (f : file_read)
  : res (option vmodule) :=
  match f with
  | IOFailure cause => Exc (ValueError ("Error reading file: " ++ cause))
  | FileText content0 =>
      let content1 := re_sub_empty line_comment_rx content0 in
      let content2 := re_sub_empty block_comment_rx content1 in
      let macros := collect_macros content2 in
      let content := apply_macros macros content2 in
      match re_search module_rx content with
      | None => Ok None
      | Some module_match =>
          let module_name := group_str module_match 1 in
          let port_section := group_str module_match 2 in
          ports <- ports_of_matches (port_matches port_section) ;;
          Ok (Some (mkModule module_name filepath ports (params_of content) macros))
      end
  end.

(** The text handed to the header search: comments removed, macros
    substituted (the first statements of [parse_verilog_file]). *)
Definition preprocess_text (content0 : string) : string :=
  let content1 := re_sub_empty line_comment_rx content0 in
  let content2 := re_sub_empty block_comment_rx content1 in
  apply_macros (collect_macros content2) content2.

Definition nl : string := String "010" "".

(** A header whose port list has no direction keyword. *)
Definition bare_port_text : string := "module m (a);".

(** A valueless [`define] (an include guard) before [`define W 8]. *)
Definition guarded_macro_text : string :=
  "`define GUARD" ++ nl ++ "`define W 8" ++ nl ++ "module m (input [`W:0] a);".

(* ================================================================== *)
(** ** Python values

    Values held by the application objects and produced by [json.loads].
    Strings are lists of code points. *)

Definition pystr := list Z.

(** A Latin-1 [string] as code points, and back for code points below 256. *)
Definition of_string (s : string) : pystr := map code (list_ascii_of_string s).

Definition to_string (p : pystr) : option string :=
  if forallb (fun c => (0 <=? c) && (c <? 256)) p
  then Some (string_of_list_ascii (map chr p)) else None.

Fixpoint pystr_eqb (a b : pystr) : bool :=
  match a, b with
  | [], [] => true
  | x :: a', y :: b' => (x =? y) && pystr_eqb a' b'
  | _, _ => false
  end.

Set Warnings "-register-all".

(** Floats keep the text of their literal. *)
Inductive pyval : Type :=
| PNone
| PBool (b : bool)
| PInt (z : Z)
| PFloat (text : pystr)
| PStr (s : pystr)
| PList (xs : list pyval)
| PTuple (xs : list pyval)
| PDict (kvs : list (pystr * pyval)).

(** [d[k] = v] on a dict with [str] keys. *)
Fixpoint pdict_set {V} (d : list (pystr * V)) (k : pystr) (v : V) : list (pystr * V) :=
  match d with
  | [] => [(k, v)]
  | (k', v') :: r => if pystr_eqb k k' then (k', v) :: r else (k', v') :: pdict_set r k v
  end.

Fixpoint pdict_get {V} (d : list (pystr * V)) (k : pystr) : option V :=
  match d with
  | [] => None
  | (k', v) :: r => if pystr_eqb k k' then Some v else pdict_get r k
  end.

(** [del d[k]] *)
Fixpoint pdict_del {V} (d : list (pystr * V)) (k : pystr) : list (pystr * V) :=
  match d with
  | [] => []
  | (k', v) :: r => if pystr_eqb k k' then r else (k', v) :: pdict_del r k
  end.

Definition S_ (s : string) : pystr := of_string s.

(* ================================================================== *)
(** ** [json.dumps] with the default settings

    [ensure_ascii=True], separators [", "] and [": "]; a tuple is written
    as an array.  A float is written as the text it was read from. *)

Definition hex_digit (n : Z) : Z := if n <? 10 then 48 + n else 87 + n.

(** [\uXXXX] with lower-case hexadecimal digits. *)
Definition u_escape (n : Z) : pystr :=
  [92; 117; hex_digit (n / 4096 mod 16); hex_digit (n / 256 mod 16);
   hex_digit (n / 16 mod 16); hex_digit (n mod 16)].

(** One character of [py_encode_basestring_ascii]. *)
Definition escape_char (c : Z) : pystr :=
  if c =? 92 then [92; 92]
  else if c =? 34 then [92; 34]
  else if c =? 8 then [92; 98]
  else if c =? 12 then [92; 102]
  else if c =? 10 then [92; 110]
  else if c =? 13 then [92; 114]
  else if c =? 9 then [92; 116]
  else if (32 <=? c) && (c <=? 126) then [c]
  else if c <? 65536 then u_escape c
  else let n := c - 65536 in
       (u_escape (55296 + n / 1024) ++ u_escape (56320 + n mod 1024))%list.

Definition encode_basestring_ascii (s : pystr) : pystr :=
  ([34] ++ flat_map escape_char s ++ [34])%list.

Fixpoint join_py (sep : pystr) (xs : list pystr) : pystr :=
  match xs with
  | [] => []
  | [x] => x
  | x :: r => (x ++ sep ++ join_py sep r)%list
  end.

Fixpoint json_dumps (v : pyval) : pystr :=
  match v with
  | PNone => S_ "null"
  | PBool true => S_ "true"
  | PBool false => S_ "false"
  | PInt z => S_ (Z_to_dec z)
  | PFloat t => t
  | PStr s => encode_basestring_ascii s
  | PList xs | PTuple xs => ([91] ++ join_py (S_ ", ") (map json_dumps xs) ++ [93])%list
  | PDict kvs =>
      ([123] ++ join_py (S_ ", ")
        (map (fun '(k, x) => encode_basestring_ascii k ++ S_ ": " ++ json_dumps x) kvs)
      ++ [125])%list
  end.

(* ================================================================== *)
(** ** [json.loads] (the C scanner of CPython)

    The scanner works on the remaining input and returns the value with the
    input after it.  Every error is a [JSONDecodeError] (the position part of
    the message is not modelled).  Nesting deeper than the interpreter's
    recursion limit, which raises [RecursionError], is not modelled. *)

(** [' '], ['\t'], ['\n'], ['\r'] *)
Definition is_json_ws (c : Z) : bool := (c =? 32) || (c =? 9) || (c =? 10) || (c =? 13).

Fixpoint skip_ws (s : pystr) : pystr :=
  match s with
  | c :: t => if is_json_ws c then skip_ws t else s
  | [] => []
  end.

Definition hex_val (d : Z) : option Z :=
  if (48 <=? d) && (d <=? 57) then Some (d - 48)
  else if (97 <=? d) && (d <=? 102) then Some (d - 87)
  else if (65 <=? d) && (d <=? 70) then Some (d - 55)
  else None.

Definition hex4 (a b c d : Z) : option Z :=
  match hex_val a, hex_val b, hex_val c, hex_val d with
  | Some x, Some y, Some z, Some w => Some (((x * 16 + y) * 16 + z) * 16 + w)
  | _, _, _, _ => None
  end.

Definition is_high_surrogate (c : Z) : bool := (55296 <=? c) && (c <=? 56319).
Definition is_low_surrogate (c : Z) : bool := (56320 <=? c) && (c <=? 57343).

(** The one-character escapes: quote, backslash, slash, [b], [f], [n], [r], [t]. *)
Definition simple_escape (e : Z) : option Z :=
  if e =? 34 then Some 34 else if e =? 92 then Some 92
  else if e =? 47 then Some 47 else if e =? 98 then Some 8
  else if e =? 102 then Some 12 else if e =? 110 then Some 10
  else if e =? 114 then Some 13 else if e =? 116 then Some 9
  else None.

Definition jerr {A} (msg : string) : res A := Exc (JSONDecodeError msg).

(** [scanstring_unicode] with [strict=True], after the opening quote.  A
    [\uXXXX] escape needs one more character after its four digits, and a
    following low-surrogate escape is joined only if one more character
    follows it. *)
Fixpoint scan_string (s : pystr) (acc : list Z) {struct s} : res (pystr * pystr) :=
  match s with
  | [] => jerr "Unterminated string starting at"
  | c :: t =>
      if c =? 34 then Ok (rev acc, t)
      else if c =? 92 then
        match t with
        | [] => jerr "Unterminated string starting at"
        | e :: t' =>
            if e =? 117 then
              match t' with
              | h1 :: h2 :: h3 :: h4 :: ((_ :: _) as t'') =>
                  match hex4 h1 h2 h3 h4 with
                  | None => jerr "Invalid \uXXXX escape"
                  | Some u =>
                      if is_high_surrogate u then
                        match t'' with
                        | b :: v :: l1 :: l2 :: l3 :: l4 :: ((_ :: _) as t3) =>
                            if (b =? 92) && (v =? 117) then
                              match hex4 l1 l2 l3 l4 with
                              | None => jerr "Invalid \uXXXX escape"
                              | Some u2 =>
                                  if is_low_surrogate u2 then
                                    scan_string t3
                                      (65536 + (u - 55296) * 1024 + (u2 - 56320) :: acc)
                                  else scan_string t'' (u :: acc)
                              end
                            else scan_string t'' (u :: acc)
                        | _ => scan_string t'' (u :: acc)
                        end
                      else scan_string t'' (u :: acc)
                  end
              | _ => jerr "Invalid \uXXXX escape"
              end
            else match simple_escape e with
                 | Some c' => scan_string t' (c' :: acc)
                 | None => jerr "Invalid \escape"
                 end
        end
      else if c <=? 31 then jerr "Invalid control character at"
      else scan_string t (c :: acc)
  end.

Definition is_digit_z (c : Z) : bool := (48 <=? c) && (c <=? 57).

Fixpoint digits_prefix (s : pystr) : pystr * pystr :=
  match s with
  | c :: t => if is_digit_z c then let (d, r) := digits_prefix t in (c :: d, r) else ([], s)
  | [] => ([], [])
  end.

(** [_match_number_unicode]: an optional minus, the integer part ([0], or a
    non-zero digit and more digits), an optional fraction (a dot and digits)
    and an optional exponent ([e] or [E], an optional sign, digits).
    An integer literal goes through [int()], which refuses more than 4300
    digits ([ValueError]). *)
Definition match_number (s : pystr) : res (pyval * pystr) :=
  let (sign, s1) := match s with 45 :: t => ([45], t) | _ => ([], s) end in
  match s1 with
  | [] => jerr "Expecting value"
  | c :: t =>
      let int_part :=
        if c =? 48 then Some ([c], t)
        else if is_digit_z c then let (d, r) := digits_prefix t in Some (c :: d, r)
        else None in
      match int_part with
      | None => jerr "Expecting value"
      | Some (ip, r1) =>
          let (frac, r2) :=
            match r1 with
            | 46 :: d :: t' =>
                if is_digit_z d then let (ds, r) := digits_prefix t' in (46 :: d :: ds, r)
                else ([], r1)
            | _ => ([], r1)
            end in
          let (ex, r3) :=
            match r2 with
            | e :: t' =>
                if (e =? 101) || (e =? 69) then
                  let (sg, t'') :=
                    match t' with
                    | x :: u => if (x =? 45) || (x =? 43) then ([x], u) else ([], t')
                    | [] => ([], t')
                    end in
                  match digits_prefix t'' with
                  | ([], _) => ([], r2)
                  | (ds, r) => (e :: sg ++ ds, r)
                  end
                else ([], r2)
            | [] => ([], r2)
            end in
          match frac, ex with
          | [], [] =>
              if Nat.ltb 4300 (length ip) then
                Exc (ValueError "Exceeds the limit (4300 digits) for integer string conversion")
              else
                Ok (PInt ((match sign with [] => 1 | _ => -1 end) *
                          fold_left (fun a d => a * 10 + (d - 48)) ip 0), r3)
          | _, _ => Ok (PFloat (sign ++ ip ++ frac ++ ex), r3)
          end
      end
  end%list.

Fixpoint starts_with (p s : pystr) : bool :=
  match p, s with
  | [], _ => true
  | x :: p', y :: s' => (x =? y) && starts_with p' s'
  | _ :: _, [] => false
  end.

(** [scan_once_unicode], [_parse_array_unicode], [_parse_object_unicode]. *)
Fixpoint scan_once (fuel : nat) (s : pystr) {struct fuel} : res (pyval * pystr) :=
  match fuel with
  | O => jerr "Expecting value"
  | S f =>
      match s with
      | [] => jerr "Expecting value"
      | c :: t =>
          if c =? 34 then
            (r <- scan_string t [] ;; let (str, rest) := r in Ok (PStr str, rest))
          else if c =? 123 then
            match skip_ws t with
            | 125 :: rest => Ok (PDict [], rest)
            | s1 => object_items f s1 []
            end
          else if c =? 91 then
            match skip_ws t with
            | 93 :: rest => Ok (PList [], rest)
            | s1 => array_items f s1 []
            end
          else if starts_with (S_ "null") s then Ok (PNone, skipn 4 s)
          else if starts_with (S_ "true") s then Ok (PBool true, skipn 4 s)
          else if starts_with (S_ "false") s then Ok (PBool false, skipn 5 s)
          else if starts_with (S_ "NaN") s then Ok (PFloat (S_ "NaN"), skipn 3 s)
          else if starts_with (S_ "Infinity") s then Ok (PFloat (S_ "Infinity"), skipn 8 s)
          else if starts_with (S_ "-Infinity") s then Ok (PFloat (S_ "-Infinity"), skipn 9 s)
          else match_number s
      end
  end
with array_items (fuel : nat) (s : pystr) (acc : list pyval) {struct fuel}
  : res (pyval * pystr) :=
  match fuel with
  | O => jerr "Expecting value"
  | S f =>
      r <- scan_once f s ;;
      let (v, rest) := r in
      match skip_ws rest with
      | 93 :: rest' => Ok (PList (rev (v :: acc)), rest')
      | 44 :: rest' => array_items f (skip_ws rest') (v :: acc)
      | _ => jerr "Expecting ',' delimiter"
      end
  end
with object_items (fuel : nat) (s : pystr) (acc : list (pystr * pyval)) {struct fuel}
  : res (pyval * pystr) :=
  match fuel with
  | O => jerr "Expecting value"
  | S f =>
      match s with
      | 34 :: t =>
          r <- scan_string t [] ;;
          let (key, rest) := r in
          match skip_ws rest with
          | 58 :: rest1 =>
              r2 <- scan_once f (skip_ws rest1) ;;
              let (v, rest2) := r2 in
              let acc' := pdict_set acc key v in
              match skip_ws rest2 with
              | 125 :: rest3 => Ok (PDict acc', rest3)
              | 44 :: rest3 => object_items f (skip_ws rest3) acc'
              | _ => jerr "Expecting ',' delimiter"
              end
          | _ => jerr "Expecting ':' delimiter"
          end
      | _ => jerr "Expecting property name enclosed in double quotes"
      end
  end.

(** [json.loads(s)].  Each step of the scanner consumes input, so the fuel
    [2 * len(s) + 2] is never exhausted. *)
Definition json_loads (s : pystr) : res pyval :=
  match s with
  | 65279 :: _ => jerr "Unexpected UTF-8 BOM (decode using utf-8-sig)"
  | _ =>
      r <- scan_once (2 * length s + 2) (skip_ws s) ;;
      let (v, rest) := r in
      match skip_ws rest with
      | [] => Ok v
      | _ => jerr "Extra data"
      end
  end.

(* ================================================================== *)
(** ** UTF-8: [str.encode()] and [bytes.decode()]

    Bytes are integers 0..255.  Encoding refuses surrogates; decoding is
    strict (no overlong forms, no surrogates, nothing above U+10FFFF). *)

Definition utf8_encode_char (c : Z) : res (list Z) :=
  if c <? 128 then Ok [c]
  else if c <? 2048 then Ok [192 + c / 64; 128 + c mod 64]
  else if (55296 <=? c) && (c <=? 57343) then
    Exc (UnicodeError "'utf-8' codec can't encode character: surrogates not allowed")
  else if c <? 65536 then Ok [224 + c / 4096; 128 + c / 64 mod 64; 128 + c mod 64]
  else Ok [240 + c / 262144; 128 + c / 4096 mod 64; 128 + c / 64 mod 64; 128 + c mod 64].

Fixpoint utf8_encode (s : pystr) : res (list Z) :=
  match s with
  | [] => Ok []
  | c :: t => b <- utf8_encode_char c ;; r <- utf8_encode t ;; Ok (b ++ r)%list
  end.

Definition in_range (lo hi b : Z) : bool := (lo <=? b) && (b <=? hi).
Definition cont (b : Z) : bool := in_range 128 191 b.

Definition utf8_error {A} : res A :=
  Exc (UnicodeError "'utf-8' codec can't decode bytes").

Fixpoint utf8_decode (bs : list Z) : res pystr :=
  match bs with
  | [] => Ok []
  | b0 :: t =>
      if b0 <? 128 then r <- utf8_decode t ;; Ok (b0 :: r)
      else if in_range 194 223 b0 then
        match t with
        | b1 :: t1 =>
            if cont b1 then r <- utf8_decode t1 ;; Ok ((b0 - 192) * 64 + (b1 - 128) :: r)
            else utf8_error
        | [] => utf8_error
        end
      else if in_range 224 239 b0 then
        match t with
        | b1 :: b2 :: t2 =>
            let lo := if b0 =? 224 then 160 else 128 in
            let hi := if b0 =? 237 then 159 else 191 in
            if in_range lo hi b1 && cont b2 then
              r <- utf8_decode t2 ;;
              Ok (((b0 - 224) * 64 + (b1 - 128)) * 64 + (b2 - 128) :: r)
            else utf8_error
        | _ => utf8_error
        end
      else if in_range 240 244 b0 then
        match t with
        | b1 :: b2 :: b3 :: t3 =>
            let lo := if b0 =? 240 then 144 else 128 in
            let hi := if b0 =? 244 then 143 else 191 in
            if in_range lo hi b1 && cont b2 && cont b3 then
              r <- utf8_decode t3 ;;
              Ok ((((b0 - 240) * 64 + (b1 - 128)) * 64 + (b2 - 128)) * 64 + (b3 - 128) :: r)
            else utf8_error
        | _ => utf8_error
        end
      else utf8_error
  end.

(* ================================================================== *)
(** ** [base64.b64encode] and [base64.b64decode]

    [b64decode(s)] with a [str] argument first encodes it as ASCII
    ([ValueError] otherwise), then runs [binascii.a2b_base64] in its
    non-strict mode (CPython 3.11 and later): characters outside the
    alphabet are skipped, and a pad sequence completing a quad ends the
    input. *)

Definition b64_char (v : Z) : Z :=
  if v <? 26 then 65 + v
  else if v <? 52 then 71 + v
  else if v <? 62 then v - 4
  else if v =? 62 then 43 else 47.

Definition b64_val (c : Z) : option Z :=
  if in_range 65 90 c then Some (c - 65)
  else if in_range 97 122 c then Some (c - 71)
  else if in_range 48 57 c then Some (c + 4)
  else if c =? 43 then Some 62
  else if c =? 47 then Some 63
  else None.

(** [binascii.b2a_base64(s, newline=False)] *)
Fixpoint b64encode (bs : list Z) : list Z :=
  match bs with
  | a :: b :: c :: t =>
      [b64_char (Z.shiftr a 2);
       b64_char (Z.lor (Z.shiftl (Z.land a 3) 4) (Z.shiftr b 4));
       b64_char (Z.lor (Z.shiftl (Z.land b 15) 2) (Z.shiftr c 6));
       b64_char (Z.land c 63)] ++ b64encode t
  | [a; b] =>
      [b64_char (Z.shiftr a 2);
       b64_char (Z.lor (Z.shiftl (Z.land a 3) 4) (Z.shiftr b 4));
       b64_char (Z.shiftl (Z.land b 15) 2); 61]
  | [a] => [b64_char (Z.shiftr a 2); b64_char (Z.shiftl (Z.land a 3) 4); 61; 61]
  | [] => []
  end%list.

(** The loop of [binascii.a2b_base64]: [quad_pos], [leftchar], [pads]. *)
Fixpoint a2b_base64 (s : list Z) (quad_pos : nat) (leftchar : Z) (pads : nat)
  (acc : list Z) : res (list Z) :=
  match s with
  | [] =>
      match quad_pos with
      | O => Ok (rev acc)
      | 1%nat =>
          Exc (BinasciiError "Invalid base64-encoded string: number of data characters cannot be 1 more than a multiple of 4")
      | _ => Exc (BinasciiError "Incorrect padding")
      end
  | c :: t =>
      if c =? 61 then
        if Nat.leb 2 quad_pos then
          if Nat.leb 4 (quad_pos + S pads) then Ok (rev acc)
          else a2b_base64 t quad_pos leftchar (S pads) acc
        else a2b_base64 t quad_pos leftchar pads acc
      else
        match b64_val c with
        | None => a2b_base64 t quad_pos leftchar pads acc
        | Some v =>
            match quad_pos with
            | O => a2b_base64 t 1 v 0 acc
            | 1%nat =>
                a2b_base64 t 2 (Z.land v 15) 0
                  (Z.lor (Z.shiftl leftchar 2) (Z.shiftr v 4) :: acc)
            | 2%nat =>
                a2b_base64 t 3 (Z.land v 3) 0
                  (Z.lor (Z.shiftl leftchar 4) (Z.shiftr v 2) :: acc)
            | _ => a2b_base64 t 0 0 0 (Z.lor (Z.shiftl leftchar 6) v :: acc)
            end
        end
  end.

Definition b64decode (s : pystr) : res (list Z) :=
  if forallb (fun c => c <? 128) s then a2b_base64 s 0 0 0 []
  else Exc (ValueError "string argument should contain only ASCII characters").

(* ================================================================== *)
(** ** The application state of [VerilogIntegrationTool]

    [VerilogModule] objects live in a heap and are referred to by their
    location: [inst.module_ref == module] compares identities (the class has
    no [__eq__]).  Object attributes hold [pyval]s.  [ModuleInstance]
    objects are records in [self.instances].  The Tk widgets are not part of
    the state: a selection in a list box is given as the name it shows, and
    what [self.log] and [messagebox.showerror] display is recorded in the
    log. *)

Record module_obj := mkModObj {
  mo_name : pystr;
  mo_filepath : pyval;
  mo_ports : pyval;
  mo_parameters : pyval;
  mo_macros : pyval
}.

Record inst_obj := mkInstObj {
  io_module_ref : nat;
  io_instance_name : pyval;
  io_connections : pyval;
  io_parameter_values : pyval
}.

Inductive log_entry : Type :=
| LogParsed (name : pystr)               (* Successfully parsed module: ... *)
| LogParseFailed (path : string)         (* Error: Could not parse module from ... *)
| LogError (context : string) (e : exn)  (* context ++ str(e) *)
| LogInstantiated (module_name instance_name : pystr)
| LogDeleted (module_name : pystr)
| LogRefreshed (module_name : pystr)
| LogSaved (path top_name : string) (ninstances : nat)
| LogNoToolData                          (* Error: No tool data found in file *)
| LogLoaded (nmodules ninstances : nat)
| LogProjectLoaded (path : string)
| DialogNameExists (instance_name : pystr)
    (* messagebox.showerror: Instance name '...' already exists! *)
| DialogModuleInUse (module_name : pystr) (ninstances : nat).
    (* messagebox.showerror: Cannot delete module '...' because it has
       ... instances.\nPlease delete the instances first. *)

Record app_state := mkState {
  st_heap : list module_obj;              (* VerilogModule objects *)
  st_modules : list (pystr * nat);        (* self.modules *)
  st_instances : list inst_obj;           (* self.instances *)
  st_log : list log_entry
}.

Definition set_modules (ms : list (pystr * nat)) (st : app_state) : app_state :=
  mkState (st_heap st) ms (st_instances st) (st_log st).
Definition set_instances (is : list inst_obj) (st : app_state) : app_state :=
  mkState (st_heap st) (st_modules st) is (st_log st).
Definition add_log (e : log_entry) (st : app_state) : app_state :=
  mkState (st_heap st) (st_modules st) (st_instances st) (st_log st ++ [e])%list.

(** *** A state and exception monad for the methods *)

Definition appM (A : Type) : Type := app_state -> res A * app_state.

Definition app_ret {A} (a : A) : appM A := fun st => (Ok a, st).
Definition app_bind {A B} (m : appM A) (k : A -> appM B) : appM B :=
  fun st => match m st with
            | (Ok a, st') => k a st'
            | (Exc e, st') => (Exc e, st')
            end.
Notation "x <<- m ;; k" := (app_bind m (fun x => k))
  (at level 61, m at next level, right associativity).
Notation "m ;;; k" := (app_bind m (fun _ => k)) (at level 61, right associativity).

Definition app_lift {A} (r : res A) : appM A := fun st => (r, st).
Definition app_get : appM app_state := fun st => (Ok st, st).
Definition app_modify (f : app_state -> app_state) : appM unit := fun st => (Ok tt, f st).
Definition app_log (e : log_entry) : appM unit := app_modify (add_log e).

(** [try: m except Exception as e: h(e)] *)
Definition app_try {A} (m : appM A) (h : exn -> appM A) : appM A :=
  fun st => match m st with
            | (Exc e, st') => h e st'
            | r => r
            end.

Fixpoint app_iter {A} (f : A -> appM unit) (l : list A) : appM unit :=
  match l with
  | [] => app_ret tt
  | x :: r => f x ;;; app_iter f r
  end.

(** A new [VerilogModule] object. *)
Definition app_alloc (o : module_obj) : appM nat :=
  fun st => (Ok (length (st_heap st)),
             mkState (st_heap st ++ [o])%list (st_modules st) (st_instances st) (st_log st)).

Fixpoint update_nth {A} (f : A -> A) (n : nat) (xs : list A) : list A :=
  match xs, n with
  | [], _ => []
  | x :: r, O => f x :: r
  | x :: r, S n' => x :: update_nth f n' r
  end.

(** An attribute assignment on the object at location [l]. *)
Definition app_update_module (l : nat) (f : module_obj -> module_obj) : appM unit :=
  app_modify (fun st =>
    mkState (update_nth f l (st_heap st)) (st_modules st) (st_instances st) (st_log st)).

(** The outcome of a GUI callback: the state after it; an exception that
    escapes a Tk callback is printed and leaves the state as it is. *)
Definition run_callback (m : appM unit) (st : app_state) : app_state := snd (m st).

(** *** Python operations on loaded values *)

(** [v[key]] with a [str] key; a [KeyError] carries the missing key. *)
Definition py_getitem (v : pyval) (key : pystr) : res pyval :=
  match v with
  | PDict kvs =>
      match pdict_get kvs key with
      | Some x => Ok x
      | None => Exc (KeyError (match to_string key with Some k => k | None => "key" end))
      end
  | PList _ => Exc (TypeError "list indices must be integers or slices, not str")
  | PTuple _ => Exc (TypeError "tuple indices must be integers or slices, not str")
  | PStr _ => Exc (TypeError "string indices must be integers")
  | _ => Exc (TypeError "object is not subscriptable")
  end.

(** [v.items()] *)
Definition py_items (v : pyval) : res (list (pystr * pyval)) :=
  match v with
  | PDict kvs => Ok kvs
  | _ => Exc (AttributeError "object has no attribute 'items'")
  end.

(** [for x in v]: a list or tuple gives its elements, a dict its keys, a str
    its characters. *)
Definition py_iter (v : pyval) : res (list pyval) :=
  match v with
  | PList xs | PTuple xs => Ok xs
  | PDict kvs => Ok (map (fun kv => PStr (fst kv)) kvs)
  | PStr s => Ok (map (fun c => PStr [c]) s)
  | _ => Exc (TypeError "object is not iterable")
  end.

Fixpoint py_hashable (v : pyval) : bool :=
  match v with
  | PList _ | PDict _ => false
  | PTuple xs => forallb py_hashable xs
  | _ => true
  end.

(** [self.modules.get(key)]: only a [str] can equal a [str] key. *)
Definition modules_get (ms : list (pystr * nat)) (key : pyval) : res (option nat) :=
  match key with
  | PStr k => Ok (pdict_get ms k)
  | _ => if py_hashable key then Ok None else Exc (TypeError "unhashable type")
  end.

(** [os.path.basename(p)], called by [str(module)]. *)
Definition basename_check (p : pyval) : res unit :=
  match p with
  | PStr _ => Ok tt
  | _ => Exc (TypeError "expected str, bytes or os.PathLike object")
  end.

(* ================================================================== *)
(** ** Objects built by the parser, and the typed view of objects *)

(** The dicts of [add_port] and [add_parameter], and [self.macros]. *)
Definition port_val (p : port) : pyval :=
  PDict [(S_ "name", PStr (S_ (port_name p)));
         (S_ "direction", PStr (S_ (port_direction p)));
         (S_ "dtype", PStr (S_ (port_dtype p)));
         (S_ "width", PStr (S_ (port_width p)));
         (S_ "dimensions", PList (map (fun d => PStr (S_ d)) (port_dimensions p)))].

Definition param_val (p : parameter) : pyval :=
  PDict [(S_ "name", PStr (S_ (param_name p)));
         (S_ "value", PStr (S_ (param_value p)));
         (S_ "type", match param_type p with Some t => PStr (S_ t) | None => PNone end)].

Definition macros_val (ms : list (string * string)) : pyval :=
  PDict (map (fun '(k, v) => (S_ k, PStr (S_ v))) ms).

(** The [VerilogModule] object returned by [parse_verilog_file]. *)
Definition module_obj_of (m : vmodule) : module_obj :=
  mkModObj (S_ (mod_name m)) (PStr (S_ (mod_filepath m)))
    (PList (map port_val (mod_ports m))) (PList (map param_val (mod_parameters m)))
    (macros_val (mod_macros m)).

(** The typed view: the record whose objects these are, if any.  A
    connection is a tuple (as set by the GUI) or a two-element list (as
    loaded from JSON). *)
Definition view_str (v : pyval) : option string :=
  match v with PStr s => to_string s | _ => None end.

Fixpoint option_all {A} (xs : list (option A)) : option (list A) :=
  match xs with
  | [] => Some []
  | Some x :: r => match option_all r with Some l => Some (x :: l) | None => None end
  | None :: _ => None
  end.

Definition view_keys {A} (f : pyval -> option A) (kvs : list (pystr * pyval))
  : option (list (string * A)) :=
  option_all (map (fun '(k, v) =>
    match to_string k, f v with Some k', Some v' => Some (k', v') | _, _ => None end) kvs).

Definition view_port (v : pyval) : option port :=
  match v with
  | PDict [(k1, n); (k2, d); (k3, t); (k4, w); (k5, PList dims)] =>
      if pystr_eqb k1 (S_ "name") && pystr_eqb k2 (S_ "direction")
         && pystr_eqb k3 (S_ "dtype") && pystr_eqb k4 (S_ "width")
         && pystr_eqb k5 (S_ "dimensions") then
        match view_str n, view_str d, view_str t, view_str w,
              option_all (map view_str dims) with
        | Some n', Some d', Some t', Some w', Some ds => Some (mkPort n' d' t' w' ds)
        | _, _, _, _, _ => None
        end
      else None
  | _ => None
  end.

Definition view_param (v : pyval) : option parameter :=
  match v with
  | PDict [(k1, n); (k2, x); (k3, t)] =>
      if pystr_eqb k1 (S_ "name") && pystr_eqb k2 (S_ "value")
         && pystr_eqb k3 (S_ "type") then
        match view_str n, view_str x, t with
        | Some n', Some x', PNone => Some (mkParameter n' x' None)
        | Some n', Some x', PStr _ =>
            match view_str t with
            | Some t' => Some (mkParameter n' x' (Some t'))
            | None => None
            end
        | _, _, _ => None
        end
      else None
  | _ => None
  end.

Definition view_list {A} (f : pyval -> option A) (v : pyval) : option (list A) :=
  match v with PList xs => option_all (map f xs) | _ => None end.

Definition view_dict {A} (f : pyval -> option A) (v : pyval) : option (list (string * A)) :=
  match v with PDict kvs => view_keys f kvs | _ => None end.

Definition view_conn (v : pyval) : option (string * string) :=
  match v with
  | PTuple [k; s] | PList [k; s] =>
      match view_str k, view_str s with Some k', Some s' => Some (k', s') | _, _ => None end
  | _ => None
  end.

Definition view_module (o : module_obj) : option vmodule :=
  match to_string (mo_name o), view_str (mo_filepath o),
        view_list view_port (mo_ports o), view_list view_param (mo_parameters o),
        view_dict view_str (mo_macros o) with
  | Some n, Some fp, Some ps, Some pms, Some ms => Some (mkModule n fp ps pms ms)
  | _, _, _, _, _ => None
  end.

Definition view_instance (heap : list module_obj) (i : inst_obj) : option instance :=
  match nth_error heap (io_module_ref i) with
  | Some o =>
      match view_module o, view_str (io_instance_name i),
            view_dict view_conn (io_connections i),
            view_dict view_str (io_parameter_values i) with
      | Some m, Some n, Some cs, Some pvs => Some (mkInstance m n cs pvs)
      | _, _, _, _ => None
      end
  | None => None
  end.

(** The instances handed to [generate_top_module]. *)
Definition view_instances (st : app_state) : option (list instance) :=
  option_all (map (view_instance (st_heap st)) (st_instances st)).

(** The Registry as a value: each module under its key, and for each
    instance its module's name, name, connections and overrides. *)
Record registry := mkRegistry {
  reg_modules : list (string * vmodule);
  reg_instances : list (string * string * list (string * (string * string))
                        * list (string * string))
}.

Definition registry_view (st : app_state) : option registry :=
  let mods := option_all (map (fun '(k, l) =>
                match to_string k,
                      match nth_error (st_heap st) l with Some o => view_module o | None => None end with
                | Some k', Some m => Some (k', m)
                | _, _ => None
                end) (st_modules st)) in
  match mods, view_instances st with
  | Some ms, Some is =>
      Some (mkRegistry ms (map (fun i => (mod_name (inst_module i), inst_name i,
                                          inst_connections i, inst_parameter_values i)) is))
  | _, _ => None
  end.

(* ================================================================== *)
(** ** The methods of [VerilogIntegrationTool] that change the Registry *)

(** [open_module]: the path chosen in the dialog and what reading it gives. *)
Definition open_module (filepath : string) (f : file_read) : appM unit :=
  if String.eqb filepath "" then app_ret tt else
  app_try
    (module <<- app_lift (parse_verilog_file filepath f) ;;
     match module with
     | Some m =>
         l <<- app_alloc (module_obj_of m) ;;
         app_modify (fun st => set_modules (pdict_set (st_modules st) (S_ (mod_name m)) l) st) ;;;
         app_log (LogParsed (S_ (mod_name m)))
     | None => app_log (LogParseFailed filepath)
     end)
    (fun e => app_log (LogError "Error parsing file: " e)).

(** [drop_module] of the entry [module_name] on the instance list, with the
    answer of the instance-name dialog ([None] when cancelled). *)
Definition drop_module (module_name : pystr) (answer : option pystr) : appM unit :=
  st <<- app_get ;;
  match pdict_get (st_modules st) module_name with
  | None => app_ret tt
  | Some l =>
      match answer with
      | None | Some [] => app_ret tt
      | Some instance_name =>
          if existsb (fun i => match io_instance_name i with
                               | PStr n => pystr_eqb n instance_name
                               | _ => false
                               end) (st_instances st)
          then app_log (DialogNameExists instance_name)
          else
            app_modify (fun st => set_instances (st_instances st ++
                          [mkInstObj l (PStr instance_name) (PDict []) (PDict [])])%list st) ;;;
            app_log (LogInstantiated module_name instance_name)
      end
  end.

(** [delete_selected_module] on the selected entry [module_name]. *)
Definition delete_selected_module (module_name : pystr) : appM unit :=
  st <<- app_get ;;
  match pdict_get (st_modules st) module_name with
  | None => app_ret tt
  | Some module =>
      let instances_using :=
        filter (fun inst => Nat.eqb (io_module_ref inst) module) (st_instances st) in
      match instances_using with
      | _ :: _ => app_log (DialogModuleInUse module_name (length instances_using))
      | [] =>
          app_modify (fun st => set_modules (pdict_del (st_modules st) module_name) st) ;;;
          app_log (LogDeleted module_name)
      end
  end.

(** [refresh_selected_module]; [fs] gives what opening a path object
    yields.  The path argument of the parser is only stored in the module,
    where the new object keeps the old object's [filepath] value. *)
Definition refresh_selected_module (module_name : pystr) (fs : pyval -> file_read)
  : appM unit :=
  st <<- app_get ;;
  match pdict_get (st_modules st) module_name with
  | None => app_ret tt
  | Some l =>
      match nth_error (st_heap st) l with
      | None => app_ret tt
      | Some module =>
          app_try
            (new_module <<- app_lift (parse_verilog_file "" (fs (mo_filepath module))) ;;
             match new_module with
             | Some m =>
                 let o := module_obj_of m in
                 l' <<- app_alloc (mkModObj (mo_name o) (mo_filepath module) (mo_ports o)
                                     (mo_parameters o) (mo_macros o)) ;;
                 app_modify (fun st => set_modules (pdict_set (st_modules st) module_name l') st) ;;;
                 app_log (LogRefreshed module_name)
             | None => app_log (LogParseFailed "")
             end)
            (fun e => app_log (LogError "Error refreshing module: " e))
      end
  end.

(** [serialize_data]: the [data] dict before [json.dumps]; [None] only for a
    reference to no object, which no method creates. *)
Definition serialize_data (st : app_state) : option pyval :=
  let mods := option_all (map (fun '(name, l) =>
                match nth_error (st_heap st) l with
                | Some m => Some (name, PDict [(S_ "filepath", mo_filepath m);
                                              (S_ "ports", mo_ports m);
                                              (S_ "parameters", mo_parameters m);
                                              (S_ "macros", mo_macros m)])
                | None => None
                end) (st_modules st)) in
  let insts := option_all (map (fun inst =>
                match nth_error (st_heap st) (io_module_ref inst) with
                | Some m => Some (PDict [(S_ "module", PStr (mo_name m));
                                         (S_ "instance_name", io_instance_name inst);
                                         (S_ "connections", io_connections inst);
                                         (S_ "parameter_values", io_parameter_values inst)])
                | None => None
                end) (st_instances st)) in
  match mods, insts with
  | Some ms, Some is =>
      Some (PDict [(S_ "modules", PDict (fold_left (fun d '(k, v) => pdict_set d k v) ms []));
                   (S_ "instances", PList is)])
  | _, _ => None
  end.

(** One iteration of the module loop of [deserialize_data]. *)
Definition load_module (item : pystr * pyval) : appM unit :=
  let (name, mod_data) := item in
  fp <<- app_lift (py_getitem mod_data (S_ "filepath")) ;;
  l <<- app_alloc (mkModObj name fp (PList []) (PList []) (PDict [])) ;;
  ports <<- app_lift (py_getitem mod_data (S_ "ports")) ;;
  app_update_module l (fun o => mkModObj (mo_name o) (mo_filepath o) ports
                                  (mo_parameters o) (mo_macros o)) ;;;
  params <<- app_lift (py_getitem mod_data (S_ "parameters")) ;;
  app_update_module l (fun o => mkModObj (mo_name o) (mo_filepath o) (mo_ports o)
                                  params (mo_macros o)) ;;;
  macros <<- app_lift (py_getitem mod_data (S_ "macros")) ;;
  app_update_module l (fun o => mkModObj (mo_name o) (mo_filepath o) (mo_ports o)
                                  (mo_parameters o) macros) ;;;
  app_modify (fun st => set_modules (pdict_set (st_modules st) name l) st) ;;;
  app_lift (basename_check fp).

(** One iteration of the instance loop of [deserialize_data]. *)
Definition load_instance (inst_data : pyval) : appM unit :=
  key <<- app_lift (py_getitem inst_data (S_ "module")) ;;
  st <<- app_get ;;
  module <<- app_lift (modules_get (st_modules st) key) ;;
  match module with
  | None => app_ret tt
  | Some l =>
      iname <<- app_lift (py_getitem inst_data (S_ "instance_name")) ;;
      conns <<- app_lift (py_getitem inst_data (S_ "connections")) ;;
      pvals <<- app_lift (py_getitem inst_data (S_ "parameter_values")) ;;
      app_modify (fun st => set_instances (st_instances st ++ [mkInstObj l iname conns pvals])%list st)
  end.

Definition deserialize_data (serialized : pystr) : appM unit :=
  data <<- app_lift (json_loads serialized) ;;
  app_modify (fun st => set_instances [] (set_modules [] st)) ;;;
  mods <<- app_lift (py_getitem data (S_ "modules")) ;;
  items <<- app_lift (py_items mods) ;;
  app_iter load_module items ;;;
  insts <<- app_lift (py_getitem data (S_ "instances")) ;;
  elems <<- app_lift (py_iter insts) ;;
  app_iter load_instance elems ;;;
  st <<- app_get ;;
  app_log (LogLoaded (length (st_modules st)) (length (st_instances st))).

(** [r"// VERILOG_TOOL_DATA: (\S+)"] *)
Definition tool_data_marker : string := "// VERILOG_TOOL_DATA: ".
Definition tool_data_rx : rx :=
  RSeq (lit tool_data_marker) (RGroup 1 (RRep 1 true (fun c => negb (is_space c)))).

(** [base64.b64encode(serialized.encode()).decode()] *)
Definition encode_payload (serialized : pystr) : res string :=
  bs <- utf8_encode serialized ;;
  s <- utf8_decode (b64encode bs) ;;
  Ok (string_of_list_ascii (map chr s)).

Fixpoint after_last_slash (s acc : string) : string :=
  match s with
  | EmptyString => acc
  | String c r => if Ascii.eqb c "/" then after_last_slash r "" else after_last_slash r (acc ++ String c "")
  end.

Fixpoint before_first_dot (s : string) : string :=
  match s with
  | EmptyString => EmptyString
  | String c r => if Ascii.eqb c "." then EmptyString else String c (before_first_dot r)
  end.

(** [os.path.basename(filepath).split('.')[0]] *)
Definition top_name_of (filepath : string) : string :=
  before_first_dot (after_last_slash filepath "").

(** [save_project] with the path chosen in the dialog: the text written
    ([None] when the dialog is cancelled) and the state after.  The result
    is [None] when the instances are not in the typed form the generator is
    modelled on. *)
Definition save_project (filepath : string) (st : app_state)
  : option (option string * app_state) :=
  if String.eqb filepath "" then Some (None, st) else
  match view_instances st, serialize_data st with
  | Some instances, Some data =>
      let top_name := top_name_of filepath in
      let verilog_code := generate_top_module instances top_name in
      match encode_payload (json_dumps data) with
      | Ok encoded =>
          Some (Some (verilog_code ++ nl ++ nl ++ tool_data_marker ++ encoded),
                add_log (LogSaved filepath top_name (length (st_instances st))) st)
      | Exc _ => None
      end
  | _, _ => None
  end.

(** [open_project] with the path chosen in the dialog and what reading the
    file gives. *)
Definition open_project (filepath : string) (f : file_read) : appM unit :=
  if String.eqb filepath "" then app_ret tt else
  app_try
    (content <<- app_lift (match f with
                           | FileText c => Ok c
                           | IOFailure cause => Exc (OSError cause)
                           end) ;;
     match re_search tool_data_rx content with
     | None => app_log LogNoToolData
     | Some m =>
         let encoded := group_str m 1 in
         bs <<- app_lift (b64decode (S_ encoded)) ;;
         serialized <<- app_lift (utf8_decode bs) ;;
         deserialize_data serialized ;;;
         app_log (LogProjectLoaded filepath)
     end)
    (fun e => app_log (LogError "Error loading project: " e)).

(* ================================================================== *)
(** ** Concrete sessions *)

Definition empty_state : app_state := mkState [] [] [] [].

(** The text of [counter.v]. *)
Definition counter_text : string :=
  "module counter (input clk, output [7:0] count);".

(** Open [counter.v], then drop it on the instance list as [u_counter]. *)
Definition counter_session : app_state :=
  run_callback (drop_module (S_ "counter") (Some (S_ "u_counter")))
    (run_callback (open_module "counter.v" (FileText counter_text)) empty_state).

(** The Registry of [counter_session]. *)
Definition counter_registry : registry :=
  mkRegistry [("counter", counter_module)] [("counter", "u_counter", [], [])].

(** [counter_session] after Refresh Module on [counter] (the file unchanged). *)
Definition refreshed_session : app_state :=
  run_callback (refresh_selected_module (S_ "counter") (fun _ => FileText counter_text))
    counter_session.

(** A project file whose payload is [base64("{}")]. *)
Definition empty_payload_text : string := "// VERILOG_TOOL_DATA: e30=".

(** A project file whose marker line is the one of the specification. *)
Definition spec_marker_text : string := "// TOOL_DATA: e30=".

(* ================================================================== *)
(** ** Finite checks used by the proofs *)


Fixpoint all_chars (p : ascii -> bool) (s : string) : bool :=
  match s with
  | EmptyString => true
  | String c r => p c && all_chars p r
  end.

Definition is_byte (b : Z) : Prop := 0 <= b < 256.

(** The integers [0 .. n-1]. *)
Definition zrange (n : nat) : list Z := map Z.of_nat (List.seq 0 n).

(** A base64 alphabet character: decoded back, not the pad, ASCII and not
    whitespace. *)
Definition b64_char_ok (v : Z) : bool :=
  match b64_val (b64_char v) with Some w => w =? v | None => false end
  && negb (b64_char v =? 61) && (0 <=? b64_char v) && (b64_char v <? 128)
  && negb (is_space (chr (b64_char v))).

Definition sextet (v : Z) : bool := (0 <=? v) && (v <? 64).

(** The first and second byte of a quad against its characters. *)
Definition b64_pair_ok (a b : Z) : bool :=
  let v1 := Z.lor (Z.shiftl (Z.land a 3) 4) (Z.shiftr b 4) in
  let v2 := Z.lor (Z.shiftl (Z.land a 15) 2) (Z.shiftr b 6) in
  (Z.lor (Z.shiftl (Z.shiftr a 2) 2) (Z.shiftr v1 4) =? a)
  && (Z.land v1 15 =? Z.shiftr b 4) && sextet v1
  && (Z.lor (Z.shiftl (Z.shiftr a 4) 4) (Z.shiftr v2 2) =? a)
  && (Z.land v2 3 =? Z.shiftr b 6) && sextet v2.

Definition b64_single_ok (a : Z) : bool :=
  let v1 := Z.shiftl (Z.land a 3) 4 in
  let v2 := Z.shiftl (Z.land a 15) 2 in
  sextet (Z.shiftr a 2) && sextet (Z.land a 63) && sextet v1 && sextet v2
  && (Z.lor (Z.shiftl (Z.shiftr a 2) 2) (Z.shiftr v1 4) =? a)
  && (Z.lor (Z.shiftl (Z.shiftr a 4) 4) (Z.shiftr v2 2) =? a)
  && (Z.lor (Z.shiftl (Z.shiftr a 6) 6) (Z.land a 63) =? a)
  && (0 <=? Z.shiftr a 4) && (Z.shiftr a 4 <? 16) && (0 <=? Z.shiftr a 6) && (Z.shiftr a 6 <? 4).

(** Code points that [to_string] accepts. *)
Definition latin1 (s : pystr) : bool := forallb (fun c => (0 <=? c) && (c <? 256)) s.

(** A Python dict never holds a key twice. *)
Fixpoint keys_distinct {V} (kvs : list (pystr * V)) : bool :=
  match kvs with
  | [] => true
  | (k, _) :: r => negb (existsb (fun kv => pystr_eqb k (fst kv)) r) && keys_distinct r
  end.

(** Values made of [None], strings, lists, tuples and dicts, the shapes the
    typed view reads. *)
Fixpoint json_plain (v : pyval) : bool :=
  match v with
  | PNone => true
  | PStr s => latin1 s
  | PList xs | PTuple xs => forallb json_plain xs
  | PDict kvs =>
      keys_distinct kvs && forallb (fun kv => latin1 (fst kv) && json_plain (snd kv)) kvs
  | _ => false
  end.

(** What [json.loads(json.dumps(v))] gives: tuples become lists. *)
Fixpoint detuple (v : pyval) : pyval :=
  match v with
  | PList xs | PTuple xs => PList (map detuple xs)
  | PDict kvs => PDict (map (fun kv => (fst kv, detuple (snd kv))) kvs)
  | _ => v
  end.

(** Fuel the scanner needs for a value. *)
Fixpoint jneed (v : pyval) : nat :=
  match v with
  | PList xs | PTuple xs => S (fold_right (fun x n => S (jneed x + n)) O xs)
  | PDict kvs => S (fold_right (fun kv n => S (jneed (snd kv) + n)) O kvs)
  | _ => 1%nat
  end.

(** A [\uXXXX] escape reads back as its code. *)
Definition hex4_ok (c : Z) : bool :=
  match hex4 (hex_digit (c / 4096 mod 16)) (hex_digit (c / 256 mod 16))
             (hex_digit (c / 16 mod 16)) (hex_digit (c mod 16)) with
  | Some w => w =? c
  | None => false
  end.

(** One [key: value] item of a dict written by [json.dumps]. *)
Definition dict_entry (kv : pystr * pyval) : pystr :=
  let '(k, x) := kv in (encode_basestring_ascii k ++ S_ ": " ++ json_dumps x)%list.

(** Code points [json.dumps] writes, and ASCII code points. *)
Definition printable (c : Z) : Prop := 32 <= c <= 126.

Definition ascii_code (c : Z) : Prop := 0 <= c < 128.

(** *** The saved state read back

    [dict_keys_distinct] holds of a value that is not a dict, or a dict
    whose keys are distinct.  [project_wf] is what the sessions built by
    the methods keep: each key of [self.modules] once, each module stored
    under its own name, each instance referring to a module whose name is a
    key, and dicts of macros, connections and overrides with distinct keys. *)
Definition dict_keys_distinct (v : pyval) : bool :=
  match v with PDict kvs => keys_distinct kvs | _ => true end.

Definition project_wf (st : app_state) : bool :=
  keys_distinct (st_modules st) &&
  forallb (fun kl => match nth_error (st_heap st) (snd kl) with
                     | Some o => pystr_eqb (mo_name o) (fst kl) && dict_keys_distinct (mo_macros o)
                     | None => false
                     end) (st_modules st) &&
  forallb (fun i => match nth_error (st_heap st) (io_module_ref i) with
                    | Some o => match pdict_get (st_modules st) (mo_name o) with
                                | Some _ => true
                                | None => false
                                end
                    | None => false
                    end && dict_keys_distinct (io_connections i)
                        && dict_keys_distinct (io_parameter_values i)) (st_instances st).

(** An entry of [data["modules"]] for a module object. *)
Definition module_item (o : module_obj) : pystr * pyval :=
  (mo_name o, PDict [(S_ "filepath", mo_filepath o); (S_ "ports", mo_ports o);
                     (S_ "parameters", mo_parameters o); (S_ "macros", mo_macros o)]).

(** The object [load_module] builds from the entry of [o] read back under
    the key [k]. *)
Definition reload_obj (k : pystr) (o : module_obj) : module_obj :=
  mkModObj k (detuple (mo_filepath o)) (detuple (mo_ports o))
    (detuple (mo_parameters o)) (detuple (mo_macros o)).

(** [self.modules] after loading the objects [os] at locations [base],
    [base + 1], ... *)
Fixpoint loc_entries (base : nat) (os : list module_obj) : list (pystr * nat) :=
  match os with
  | [] => []
  | o :: r => (mo_name o, base) :: loc_entries (S base) r
  end.

(** A view that reads a value also reads it after [json.loads(json.dumps(.))]. *)
Definition view_stable {A} (f : pyval -> option A) : Prop :=
  forall v x, f v = Some x -> json_plain v = true /\ f (detuple v) = Some x.

(** An entry of [data["instances"]] for the instance [i] of the module
    object [o]. *)
Definition inst_item (o : module_obj) (i : inst_obj) : pyval :=
  PDict [(S_ "module", PStr (mo_name o)); (S_ "instance_name", io_instance_name i);
         (S_ "connections", io_connections i);
         (S_ "parameter_values", io_parameter_values i)].

(** An entry of [self.modules] paired with its object, as [project_wf] and
    the typed view give it. *)
Definition mod_ok (heap : list module_obj) (p : (pystr * nat) * module_obj) : Prop :=
  nth_error heap (snd (fst p)) = Some (snd p) /\ mo_name (snd p) = fst (fst p) /\
  dict_keys_distinct (mo_macros (snd p)) = true /\ exists m, view_module (snd p) = Some m.

(** An instance paired with the object it refers to. *)
Definition inst_ok (heap : list module_obj) (ms : list (pystr * nat))
  (p : inst_obj * module_obj) : Prop :=
  nth_error heap (io_module_ref (fst p)) = Some (snd p) /\
  (exists l, pdict_get ms (mo_name (snd p)) = Some l) /\
  dict_keys_distinct (io_connections (fst p)) = true /\
  dict_keys_distinct (io_parameter_values (fst p)) = true /\
  exists x, view_instance heap (fst p) = Some x.

(** The instance [load_instance] builds from the entry of the pair [p] read
    back, [ms] being [self.modules] after the module loop. *)
Definition reload_inst (ms : list (pystr * nat)) (p : inst_obj * module_obj) : inst_obj :=
  mkInstObj (match pdict_get ms (mo_name (snd p)) with Some l => l | None => O end)
    (detuple (io_instance_name (fst p))) (detuple (io_connections (fst p)))
    (detuple (io_parameter_values (fst p))).

(** [counter.v] dropped on the instance list under a name that contains the
    marker text. *)
Definition marker_session : app_state :=
  run_callback (drop_module (S_ "counter") (Some (S_ "u // VERILOG_TOOL_DATA: e30=")))
    (run_callback (open_module "counter.v" (FileText counter_text)) empty_state).

(* ================================================================== *)
(** ** The module list, the instance list and the port tree

    [str(module)] is the entry of a module in the module list.  The
    instance-list methods [delete_selected_instance] and
    [rename_selected_instance] are given the name of the selected entry and
    return, beside the state, the lines they print with [self.log].
    [self.current_instance], set by [select_instance], is an element of
    [self.instances] and is given by its position; the cell editors are
    given the first column of the edited row ([values[0]]) and the text
    entered. *)

(** [str.split()] without argument: the maximal runs of non-whitespace
    characters; [cur] is the run read so far. *)
Fixpoint split_ws (s cur : string) : list string :=
  match s with
  | EmptyString => if String.eqb cur "" then [] else [cur]
  | String c r =>
      if is_space c then app (if String.eqb cur "" then [] else [cur]) (split_ws r "")
      else split_ws r (cur ++ String c "")
  end.

Definition py_split (s : string) : list string := split_ws s "".

(** [words[n]] *)
Definition list_index (l : list string) (n : nat) : res string :=
  match nth_error l n with
  | Some x => Ok x
  | None => Exc (IndexError "list index out of range")
  end.

(** [VerilogModule.__str__]: [f"{self.name} ({os.path.basename(self.filepath)})"]. *)
Definition module_str (m : vmodule) : string :=
  mod_name m ++ " (" ++ after_last_slash (mod_filepath m) "" ++ ")".

(** The name [delete_selected_module], [refresh_selected_module] and
    [drop_module] take from a module-list entry: [entry.split()[0]]. *)
Definition selected_module_name (entry : string) : res string :=
  list_index (py_split entry) 0.

(** [ModuleInstance.get_parameter_info] *)
Definition get_parameter_info (inst : instance) (pname : string) : option parameter :=
  find (fun p => String.eqb (param_name p) pname) (mod_parameters (inst_module inst)).

(** [instance.instance_name == name] for a [str] [name]. *)
Definition inst_named (name : pystr) (i : inst_obj) : bool :=
  match io_instance_name i with
  | PStr n => pystr_eqb n name
  | _ => false
  end.

(** The position of the instance the loop [for instance in self.instances]
    stops at. *)
Fixpoint find_instance (name : pystr) (is : list inst_obj) : option nat :=
  match is with
  | [] => None
  | i :: r => if inst_named name i then Some O
              else match find_instance name r with Some n => Some (S n) | None => None end
  end.

(** [self.instances.remove(x)] for the element [x] at position [n]: the
    instances are distinct objects, so the first element identical to [x]
    is the one at [n]. *)
Fixpoint remove_nth {A} (n : nat) (l : list A) : list A :=
  match l, n with
  | [], _ => []
  | _ :: r, O => r
  | x :: r, S n' => x :: remove_nth n' r
  end.

(** [delete_selected_instance] on the entry [instance_name]. *)
Definition delete_selected_instance (instance_name : pystr) (st : app_state)
  : app_state * list pystr :=
  match find_instance instance_name (st_instances st) with
  | None => (st, [])
  | Some n => (set_instances (remove_nth n (st_instances st)) st,
               [S_ "Deleted instance: " ++ instance_name]%list)
  end.

(** [rename_selected_instance] on the entry [old_name], with the answer of
    the dialog ([None] when cancelled). *)
Definition rename_selected_instance (old_name : pystr) (answer : option pystr)
  (st : app_state) : app_state * list pystr :=
  match find_instance old_name (st_instances st) with
  | None => (st, [])
  | Some n =>
      match answer with
      | None | Some [] => (st, [])
      | Some new_name =>
          if pystr_eqb new_name old_name then (st, []) else
          if existsb (inst_named new_name) (st_instances st) then
            (add_log (DialogNameExists new_name) st, [])
          else
            (set_instances (update_nth (fun i => mkInstObj (io_module_ref i) (PStr new_name)
                                                   (io_connections i) (io_parameter_values i))
                              n (st_instances st)) st,
             [S_ "Renamed instance: " ++ old_name ++ S_ " -> " ++ new_name]%list)
      end
  end.

(** [update_port_tree] for the current instance: one row per port, then
    one per parameter. *)
Definition port_row (inst : instance) (port : port) : string * string * string :=
  let '(conn_type, signal_name) :=
    match dict_get (inst_connections inst) (port_name port) with
    | Some c => c
    | None => ("", "")
    end in
  (port_name port ++ " (" ++ port_direction port ++ " " ++ port_dtype port ++ " "
     ++ port_width port ++ ")", conn_type, signal_name).

Definition param_row (inst : instance) (param : parameter) : string * string * string :=
  let value := match dict_get (inst_parameter_values inst) (param_name param) with
               | Some v => v
               | None => param_value param
               end in
  let ptype := match param_type param with
               | Some t => if String.eqb t "" then "value" else t
               | None => "value"
               end in
  ("parameter " ++ param_name param ++ " (" ++ ptype ++ ")", value, "").

Definition update_port_tree (current_instance : option instance)
  : list (string * string * string) :=
  match current_instance with
  | None => []
  | Some inst => app (map (port_row inst) (mod_ports (inst_module inst)))
                     (map (param_row inst) (mod_parameters (inst_module inst)))
  end.

(** [d.get(k, default)] *)
Definition py_dict_get (d : pyval) (k : pystr) (default : pyval) : res pyval :=
  match d with
  | PDict kvs => Ok (match pdict_get kvs k with Some v => v | None => default end)
  | _ => Exc (AttributeError "object has no attribute 'get'")
  end.

(** [v[n]] with an index [n >= 0]. *)
Definition py_index (v : pyval) (n : nat) : res pyval :=
  match v with
  | PList xs | PTuple xs =>
      match nth_error xs n with Some x => Ok x | None => Exc (IndexError "index out of range") end
  | PStr s =>
      match nth_error s n with Some c => Ok (PStr [c]) | None => Exc (IndexError "string index out of range") end
  | PDict _ => Exc (KeyError "index")
  | _ => Exc (TypeError "object is not subscriptable")
  end.

(** [d[k] = v] with a [str] key. *)
Definition py_setitem (d : pyval) (k : pystr) (v : pyval) : res pyval :=
  match d with
  | PDict kvs => Ok (PDict (pdict_set kvs k v))
  | PList _ => Exc (TypeError "list indices must be integers or slices, not str")
  | _ => Exc (TypeError "object does not support item assignment")
  end.

(** [self.current_instance]; no instance is [None]. *)
Definition current_instance (st : app_state) (cur : nat) : res inst_obj :=
  match nth_error (st_instances st) cur with
  | Some i => Ok i
  | None => Exc (AttributeError "'NoneType' object has no attribute")
  end.

Definition set_connections (cur : nat) (c : pyval) : appM unit :=
  app_modify (fun st => set_instances (update_nth (fun i =>
    mkInstObj (io_module_ref i) (io_instance_name i) c (io_parameter_values i))
    cur (st_instances st)) st).

Definition set_parameter_values (cur : nat) (pv : pyval) : appM unit :=
  app_modify (fun st => set_instances (update_nth (fun i =>
    mkInstObj (io_module_ref i) (io_instance_name i) (io_connections i) pv)
    cur (st_instances st)) st).

(** [on_connection_select]: the connection kind [new_value] for the port of
    the row, keeping its signal name. *)
Definition on_connection_select (cur : nat) (prop_name new_value : string) : appM unit :=
  port_name <<- app_lift (list_index (py_split prop_name) 0) ;;
  st <<- app_get ;;
  inst <<- app_lift (current_instance st cur) ;;
  entry <<- app_lift (py_dict_get (io_connections inst) (S_ port_name) (PTuple [PStr []; PStr []])) ;;
  current_signal <<- app_lift (py_index entry 1) ;;
  conns <<- app_lift (py_setitem (io_connections inst) (S_ port_name)
                        (PTuple [PStr (S_ new_value); current_signal])) ;;
  set_connections cur conns.

(** [on_name_enter]: the signal name [new_value] for the port of the row,
    keeping its connection kind. *)
Definition on_name_enter (cur : nat) (prop_name new_value : string) : appM unit :=
  port_name <<- app_lift (list_index (py_split prop_name) 0) ;;
  st <<- app_get ;;
  inst <<- app_lift (current_instance st cur) ;;
  entry <<- app_lift (py_dict_get (io_connections inst) (S_ port_name) (PTuple [PStr []; PStr []])) ;;
  current_type <<- app_lift (py_index entry 0) ;;
  conns <<- app_lift (py_setitem (io_connections inst) (S_ port_name)
                        (PTuple [current_type; PStr (S_ new_value)])) ;;
  set_connections cur conns.

(** [on_param_enter]: the override [new_value] for the parameter of the row. *)
Definition on_param_enter (cur : nat) (prop_name new_value : string) : appM unit :=
  param_name <<- app_lift (list_index (py_split prop_name) 1) ;;
  st <<- app_get ;;
  inst <<- app_lift (current_instance st cur) ;;
  pv <<- app_lift (py_setitem (io_parameter_values inst) (S_ param_name) (PStr (S_ new_value))) ;;
  set_parameter_values cur pv.

(** *** Invariants of the sessions *)

(** No two instances carry the same [str] name. *)
Fixpoint names_distinct (is : list inst_obj) : bool :=
  match is with
  | [] => true
  | i :: r =>
      match io_instance_name i with
      | PStr n => negb (existsb (inst_named n) r)
      | _ => true
      end && names_distinct r
  end.

(** Every instance refers to a module object bound in [self.modules]. *)
Definition refs_registered (st : app_state) : bool :=
  forallb (fun i => existsb (fun kl => Nat.eqb (snd kl) (io_module_ref i)) (st_modules st))
    (st_instances st).

(** A module with a parameter, dropped on the instance list as [u_fifo]. *)
Definition fifo_text : string :=
  "module fifo (input clk);" ++ nl ++ "parameter DEPTH = 16;" ++ nl ++ "endmodule".

Definition fifo_session : app_state :=
  run_callback (drop_module (S_ "fifo") (Some (S_ "u_fifo")))
    (run_callback (open_module "fifo.v" (FileText fifo_text)) empty_state).

(** The instance object of [counter_session] and its typed view. *)
Definition u_counter_obj : inst_obj :=
  mkInstObj 0 (PStr (S_ "u_counter")) (PDict []) (PDict []).

Definition u_counter_view : instance := mkInstance counter_module "u_counter" [] [].

(** The instance object [rename_selected_instance] writes back. *)
Definition rename_obj (new : pystr) (i : inst_obj) : inst_obj :=
  mkInstObj (io_module_ref i) (PStr new) (io_connections i) (io_parameter_values i).

(** [fifo_session] after opening [counter.v], dropping it as [u_counter]
    and editing rows of the properties panel: [u_fifo]'s [clk] connected as
    a wire to [clk_a] with [DEPTH] overridden by [4], and [u_counter]'s
    [count] connected as an output to [q]. *)
Definition wired_session : app_state :=
  run_callback (on_param_enter 0 "parameter DEPTH (int)" "4")
  (run_callback (on_name_enter 1 "count (output wire [7:0])" "q")
  (run_callback (on_connection_select 1 "count (output wire [7:0])" "output")
  (run_callback (on_name_enter 0 "clk (input wire 1)" "clk_a")
  (run_callback (on_connection_select 0 "clk (input wire 1)" "wire")
  (run_callback (drop_module (S_ "counter") (Some (S_ "u_counter")))
  (run_callback (open_module "counter.v" (FileText counter_text)) fifo_session)))))).

(** The Registry of [wired_session]. *)
Definition wired_registry : registry :=
  mkRegistry
    [("fifo", mkModule "fifo" "fifo.v" [mkPort "clk" "input" "wire" "1" []]
                [mkParameter "DEPTH" "16" (Some "int")] []);
     ("counter", counter_module)]
    [("fifo", "u_fifo", [("clk", ("wire", "clk_a"))], [("DEPTH", "4")]);
     ("counter", "u_counter", [("count", ("output", "q"))], [])].

(* ################################################################## *)
(** * Properties *)

(** ** Sanity checks of the embedding on concrete inputs *)

Example format_width_8 : format_width "8" = " [7:0]". Proof. reflexivity. Qed.
Example format_width_1 : format_width "1" = "". Proof. reflexivity. Qed.
Example format_width_r : format_width "15:8" = " [15:8]". Proof. reflexivity. Qed.
Example format_width_n : format_width "N" = " [N]". Proof. reflexivity. Qed.
Example format_width_u : format_width " 1_6 " = " [15:0]". Proof. reflexivity. Qed.

Example generate_counter :
  generate_top_module [u_counter] "top" =
  "// Auto-generated top module: top
module top (
input wire sysclk,
  output wire [7:0] cnt_out
);

  // Source: counter.v
  counter u_counter (
.clk(sysclk),
    .count(cnt_out)
  );

endmodule".
Proof. reflexivity. Qed.

(** ** Generic lemmas *)

Lemma sapp_assoc (a b c : string) : (a ++ b) ++ c = a ++ (b ++ c).
Proof. induction a as [|x a IH]; simpl; [reflexivity | now rewrite IH]. Qed.

Lemma sapp_nil_r (a : string) : a ++ "" = a.
Proof. induction a as [|x a IH]; simpl; [reflexivity | now rewrite IH]. Qed.

Lemma fold_left_acc {A B} (f : list B -> A -> list B) (g : A -> list B) :
  (forall acc x, f acc x = acc ++ g x)%list ->
  forall l acc, fold_left f l acc = (acc ++ flat_map g l)%list.
Proof.
  intros Hf l; induction l as [|x l IH]; intro acc; simpl.
  - now rewrite app_nil_r.
  - rewrite IH, Hf. now rewrite app_assoc.
Qed.

(** ** Width formatting *)

Lemma all_chars_app p a b : all_chars p (a ++ b) = all_chars p a && all_chars p b.
Proof. induction a as [|x a IH]; simpl; [reflexivity | now rewrite IH, andb_assoc]. Qed.








(** ** Top-level port synthesis *)

Lemma join_cons sep x r : r <> [] -> join sep (x :: r) = x ++ sep ++ join sep r.
Proof. destruct r; [contradiction|reflexivity]. Qed.

Lemma top_ports_of_instance_acc acc i :
  top_ports_of_instance acc i = (acc ++ flat_map (spec_top_decl i) (inst_connections i))%list.
Proof.
  unfold top_ports_of_instance. apply fold_left_acc.
  intros acc' [pname [kind signal]]. unfold spec_top_decl.
  destruct (get_port_info i pname) as [p|]; [|now rewrite app_nil_r].
  destruct (String.eqb_spec signal "") as [_|_]; cbn [negb andb];
    [now rewrite app_nil_r|].
  remember (port_direction p) as dir eqn:Hd; clear Hd.
  assert (Eio : ("input" =? "output")%string = false) by reflexivity.
  assert (Eoi : ("output" =? "input")%string = false) by reflexivity.
  destruct (String.eqb_spec kind "input") as [->|Hi].
  - rewrite Eio. cbn [andb orb].
    destruct (String.eqb_spec dir "input") as [->|Hn].
    + rewrite String.eqb_refl. reflexivity.
    + rewrite (proj2 (String.eqb_neq "input" dir)) by congruence.
      now rewrite app_nil_r.
  - cbn [andb orb].
    destruct (String.eqb_spec kind "output") as [->|Ho].
    + cbn [andb].
      destruct (String.eqb_spec dir "output") as [->|Hn].
      * rewrite String.eqb_refl. reflexivity.
      * rewrite (proj2 (String.eqb_neq "output" dir)) by congruence.
        now rewrite app_nil_r.
    + cbn [andb]. rewrite andb_false_r. now rewrite app_nil_r.
Qed.

(** C3 *)
(** Claim C3 (as amended): the generator emits [direction wire WIDTH name]
    for exactly those connection entries whose port exists, whose signal
    name is non-empty and whose kind equals the port direction (input or
    output); the others are skipped; declarations come in instance order and,
    within an instance, in the insertion order of its connection map; no
    deduplication; the list forms the port list of the generated header. *)
Theorem top_ports_characterisation (instances : list instance) (top : string) :
  let decls := flat_map (fun i => flat_map (spec_top_decl i) (inst_connections i))
                        instances in
  collect_top_ports instances = decls /\
  exists rest,
    generate_top_module instances top =
    "// Auto-generated top module: " ++ top ++ "
module " ++ top ++ " (
" ++ ports_block decls ++ ");

" ++ rest.
Proof.
  intro decls.
  assert (HC : collect_top_ports instances = decls).
  { unfold collect_top_ports. rewrite (fold_left_acc _ (fun i => flat_map (spec_top_decl i) (inst_connections i))).
    - reflexivity.
    - intros; apply top_ports_of_instance_acc. }
  split; [exact HC|].
  unfold generate_top_module. rewrite HC.
  set (W := collect_wires instances).
  set (tail := app (map _ W) (app _ (app (flat_map instance_lines instances) ["endmodule"]))).
  assert (Ht : tail <> []).
  { unfold tail. intro E. apply app_eq_nil in E as [_ E].
    apply app_eq_nil in E as [_ E]. apply app_eq_nil in E as [_ E]. discriminate. }
  exists (join "
" tail).
  destruct decls as [|d ds]; simpl app.
  - rewrite join_cons by discriminate. rewrite join_cons by discriminate.
    rewrite join_cons by exact Ht. simpl. rewrite !sapp_assoc. reflexivity.
  - rewrite join_cons by discriminate. rewrite join_cons by discriminate.
    rewrite join_cons by discriminate. rewrite join_cons by exact Ht.
    unfold ports_block. rewrite !sapp_assoc. simpl. rewrite !sapp_assoc. reflexivity.
Qed.

(** Counterexample to C3 as stated: within one instance the declarations
    follow the connection map, not the module's port order. *)
Lemma top_ports_follow_connection_order :
  map port_name (mod_ports ab_module) = ["a"; "b"] /\
  collect_top_ports [u_ab] = ["input wire sb"; "input wire sa"].
Proof. split; reflexivity. Qed.

(* ------------------------------------------------------------------ *)
(** *** The parser *)

Lemma search_from_ngroups (r : rx) (s : string) (ma : bool) (m : rmatch) :
  search_from r s ma = Some m -> m_ngroups m = ngroups r.
Proof.
  revert ma. induction s as [|c t IH]; intros ma H; simpl in H.
  - destruct (match_at r "" ma) as [[e g]|]; [injection H as <-; reflexivity|discriminate].
  - destruct (match_at r (String c t) ma) as [[e g]|].
    + injection H as <-; reflexivity.
    + exact (IH false H).
Qed.

Lemma finditer_fuel_ngroups (fuel : nat) (r : rx) (s : string) (ma : bool) :
  Forall (fun m => m_ngroups m = ngroups r) (finditer_fuel fuel r s ma).
Proof.
  revert s ma. induction fuel as [|f IH]; intros s ma; simpl; [constructor|].
  destruct (search_from r s ma) as [m|] eqn:E; [|constructor].
  constructor; [exact (search_from_ngroups r s ma m E)|apply IH].
Qed.

Lemma ports_of_matches_exc (ms : list rmatch) (e : exn) :
  ports_of_matches ms = Exc e -> e = IndexError "no such group".
Proof.
  induction ms as [|m rest IH]; simpl; [discriminate|].
  unfold py_group.
  destruct (Nat.leb 1 (m_ngroups m)); cbn [res_bind];
    [|intro H; injection H as <-; reflexivity].
  destruct (Nat.leb 2 (m_ngroups m)); cbn [res_bind];
    [|intro H; injection H as <-; reflexivity].
  destruct (Nat.leb 3 (m_ngroups m)); cbn [res_bind];
    [|intro H; injection H as <-; reflexivity].
  destruct (Nat.leb 4 (m_ngroups m)); cbn [res_bind];
    [|intro H; injection H as <-; reflexivity].
  destruct (ports_of_matches rest); cbn [res_bind]; [discriminate|auto].
Qed.

(** C5 (code_bug).  When the port section has no direction-led match but
    the fallback pattern matches, the loop calls [group(4)] on a match of
    the three-group fallback pattern: parsing raises [IndexError] instead
    of returning a module with [wire]-direction ports. *)
Theorem parse_fallback_ports_raise (filepath content0 : string) (mm : rmatch) :
  re_search module_rx (preprocess_text content0) = Some mm ->
  finditer port_rx (group_str mm 2) = [] ->
  finditer port_fallback_rx (group_str mm 2) <> [] ->
  parse_verilog_file filepath (FileText content0) = Exc (IndexError "no such group").
Proof.
  intros Hm Hp Hf.
  unfold parse_verilog_file. unfold preprocess_text in Hm. cbv zeta in *.
  rewrite Hm. unfold port_matches. rewrite Hp.
  pose proof (finditer_fuel_ngroups (2 * String.length (group_str mm 2) + 2)
                port_fallback_rx (group_str mm 2) false) as Hn.
  fold (finditer port_fallback_rx (group_str mm 2)) in Hn.
  destruct (finditer port_fallback_rx (group_str mm 2)) as [|m ms];
    [contradiction|].
  inversion Hn as [|? ? Hm3 _]; subst.
  simpl ports_of_matches. unfold py_group. rewrite Hm3. reflexivity.
Qed.

(** Witness: [module m (a);]. *)
Lemma parse_fallback_ports_raise_witness :
  (exists mm, re_search module_rx (preprocess_text bare_port_text) = Some mm /\
     finditer port_rx (group_str mm 2) = [] /\
     finditer port_fallback_rx (group_str mm 2) <> []) /\
  parse_verilog_file "m.v" (FileText bare_port_text) = Exc (IndexError "no such group").
Proof.
  assert (H : exists mm, re_search module_rx (preprocess_text bare_port_text) = Some mm /\
     finditer port_rx (group_str mm 2) = [] /\
     finditer port_fallback_rx (group_str mm 2) <> []).
  { eexists. split; [vm_compute; reflexivity|]. split; [vm_compute; reflexivity|].
    vm_compute. discriminate. }
  split; [exact H|].
  destruct H as [mm [H1 [H2 H3]]].
  exact (parse_fallback_ports_raise "m.v" bare_port_text mm H1 H2 H3).
Defined.

(** C9.  The two failure modes of parsing are distinct: an unreadable file
    raises [ValueError] carrying the cause, never "no module found"; a
    readable file yields [None] ("no module found") exactly when the module
    header pattern finds nothing in the preprocessed text, and a readable
    file never produces the I/O error. *)
Theorem parse_failure_modes_distinct (filepath : string) :
  (forall cause,
     parse_verilog_file filepath (IOFailure cause)
     = Exc (ValueError ("Error reading file: " ++ cause)) /\
     parse_verilog_file filepath (IOFailure cause) <> Ok None) /\
  (forall content,
     parse_verilog_file filepath (FileText content) = Ok None <->
     re_search module_rx (preprocess_text content) = None) /\
  (forall content msg,
     parse_verilog_file filepath (FileText content) <> Exc (ValueError msg)).
Proof.
  split; [|split].
  - intro cause. split; [reflexivity|discriminate].
  - intro content. unfold parse_verilog_file, preprocess_text. cbv zeta.
    destruct (re_search module_rx _) as [mm|]; [|tauto].
    split; [|discriminate].
    destruct (ports_of_matches _); cbn [res_bind]; discriminate.
  - intros content msg. unfold parse_verilog_file. cbv zeta.
    destruct (re_search module_rx _) as [mm|]; [|discriminate].
    destruct (ports_of_matches _) as [ps|e] eqn:E; cbn [res_bind]; [discriminate|].
    apply ports_of_matches_exc in E. subst e. discriminate.
Qed.

(** C6 (code_bug).  [\s+] in the macro pattern also matches a newline, so a
    [`define] without a value takes the whole next line as its value: the
    line [`define W 8] is never collected and the width keeps [`W:0]. *)
Theorem macro_after_valueless_define_not_substituted :
  parse_verilog_file "m.v" (FileText guarded_macro_text)
  = Ok (Some (mkModule "m" "m.v" [mkPort "a" "input" "wire" "`W:0" []] []
                [("GUARD", "`define W 8")])).
Proof. vm_compute. reflexivity. Qed.

(** ** Module deletion and persistence on concrete sessions *)

Lemma counter_session_registry :
  registry_view counter_session = Some counter_registry.
Proof. vm_compute. reflexivity. Qed.

(** C8 (code_bug).  The reference check of [delete_selected_module] compares
    object identities.  In [counter_session] deleting [counter] is refused.
    After Refresh Module has replaced the object under [counter], the same
    instance still refers to a module named [counter], yet deleting
    [counter] succeeds: the module leaves the registry while [u_counter]
    keeps its reference to the old object. *)
Theorem delete_after_refresh_ignores_instance :
  run_callback (delete_selected_module (S_ "counter")) counter_session
  = add_log (DialogModuleInUse (S_ "counter") 1) counter_session /\
  registry_view refreshed_session = Some counter_registry /\
  registry_view (run_callback (delete_selected_module (S_ "counter")) refreshed_session)
  = Some (mkRegistry [] [("counter", "u_counter", [], [])]) /\
  st_instances (run_callback (delete_selected_module (S_ "counter")) refreshed_session)
  = st_instances refreshed_session.
Proof. vm_compute. repeat split; reflexivity. Qed.

(** C7 (code_bug).  [deserialize_data] clears the modules and instances
    before it reads [data["modules"]]: opening a project whose payload is
    valid base64 of valid JSON without that key reports the error and
    leaves an empty Registry behind. *)
Theorem open_project_clears_on_missing_modules :
  registry_view counter_session = Some counter_registry /\
  run_callback (open_project "p.v" (FileText empty_payload_text)) counter_session
  = add_log (LogError "Error loading project: " (KeyError "modules"))
      (set_instances [] (set_modules [] counter_session)) /\
  registry_view (run_callback (open_project "p.v" (FileText empty_payload_text)) counter_session)
  = Some (mkRegistry [] []).
Proof. vm_compute. repeat split; reflexivity. Qed.

(** ** Base64 *)

Lemma forallb_zrange (P : Z -> bool) (n : nat) :
  forallb P (zrange n) = true -> forall v, 0 <= v < Z.of_nat n -> P v = true.
Proof.
  intros H v Hv. rewrite forallb_forall in H. apply H.
  unfold zrange. apply in_map_iff. exists (Z.to_nat v). split; [lia|].
  apply List.in_seq. lia.
Qed.

Lemma b64_char_ok_all v : 0 <= v < 64 -> b64_char_ok v = true.
Proof.
  apply (forallb_zrange b64_char_ok 64). vm_compute. reflexivity.
Qed.

Lemma b64_single_ok_all a : 0 <= a < 256 -> b64_single_ok a = true.
Proof.
  apply (forallb_zrange b64_single_ok 256). vm_compute. reflexivity.
Qed.

Lemma b64_pair_ok_all a b : 0 <= a < 256 -> 0 <= b < 256 -> b64_pair_ok a b = true.
Proof.
  intros Ha Hb.
  assert (H : forallb (fun a => forallb (b64_pair_ok a) (zrange 256)) (zrange 256) = true)
    by (vm_compute; reflexivity).
  apply (forallb_zrange _ 256 H) in Ha.
  exact (forallb_zrange _ 256 Ha b Hb).
Qed.

Ltac split_bool :=
  repeat match goal with
  | H : (_ && _) = true |- _ => apply andb_prop in H; destruct H
  | H : (_ =? _) = true |- _ => apply Z.eqb_eq in H
  | H : (_ <? _) = true |- _ => apply Z.ltb_lt in H
  | H : (_ <=? _) = true |- _ => apply Z.leb_le in H
  | H : negb _ = true |- _ => apply negb_true_iff in H
  end.

Ltac rewrite_bytes :=
  repeat match goal with
  | H : Z.land ?x ?m = ?r |- context [Z.land ?x ?m] => rewrite H
  | H : Z.lor ?x ?y = ?r |- context [Z.lor ?x ?y] => rewrite H
  end.

Lemma b64_char_facts v : 0 <= v < 64 ->
  b64_val (b64_char v) = Some v /\ (b64_char v =? 61) = false /\
  0 <= b64_char v < 128 /\ is_space (chr (b64_char v)) = false.
Proof.
  intro Hv. pose proof (b64_char_ok_all v Hv) as H. unfold b64_char_ok in H.
  destruct (b64_val (b64_char v)) as [w|] eqn:E; [|discriminate].
  split_bool. subst w. repeat split; auto; lia.
Qed.

Lemma a2b_char v t qp lc pads acc : 0 <= v < 64 ->
  a2b_base64 (b64_char v :: t) qp lc pads acc =
  match qp with
  | O => a2b_base64 t 1 v 0 acc
  | 1%nat => a2b_base64 t 2 (Z.land v 15) 0 (Z.lor (Z.shiftl lc 2) (Z.shiftr v 4) :: acc)
  | 2%nat => a2b_base64 t 3 (Z.land v 3) 0 (Z.lor (Z.shiftl lc 4) (Z.shiftr v 2) :: acc)
  | _ => a2b_base64 t 0 0 0 (Z.lor (Z.shiftl lc 6) v :: acc)
  end.
Proof.
  intro Hv. destruct (b64_char_facts v Hv) as [H1 [H2 _]].
  simpl. rewrite H2, H1. reflexivity.
Qed.

Lemma a2b_pad t qp lc pads acc :
  a2b_base64 (61 :: t) qp lc pads acc =
  if Nat.leb 2 qp then
    if Nat.leb 4 (qp + S pads) then Ok (rev acc) else a2b_base64 t qp lc (S pads) acc
  else a2b_base64 t qp lc pads acc.
Proof. reflexivity. Qed.

Lemma a2b_b64encode_lt (n : nat) (bs acc : list Z) :
  (length bs < n)%nat -> Forall is_byte bs ->
  a2b_base64 (b64encode bs) 0 0 0 acc = Ok (rev acc ++ bs)%list.
Proof.
  revert bs acc. induction n as [|n IH]; intros bs acc Hlen Hb; [lia|].
  destruct bs as [|a [|b [|c t]]].
  - simpl. rewrite app_nil_r. reflexivity.
  - inversion Hb as [|? ? Ha _]; subst. unfold is_byte in *.
    pose proof (b64_single_ok_all a Ha) as Sa. unfold b64_single_ok, sextet in Sa.
    cbv zeta in Sa. split_bool.
    cbn [b64encode app].
    rewrite a2b_char by lia. rewrite a2b_char by lia.
    rewrite_bytes. rewrite !a2b_pad. simpl. reflexivity.
  - inversion Hb as [|? ? Ha Hb']; subst. inversion Hb' as [|? ? Hb1 _]; subst.
    unfold is_byte in *.
    pose proof (b64_pair_ok_all a b Ha Hb1) as Pab.
    pose proof (b64_single_ok_all b Hb1) as Sb.
    pose proof (b64_single_ok_all a Ha) as Sa.
    unfold b64_pair_ok, b64_single_ok, sextet in *. cbv zeta in *. split_bool.
    cbn [b64encode app].
    rewrite a2b_char by lia. rewrite a2b_char by lia. rewrite a2b_char by lia.
    rewrite a2b_pad. cbn [Nat.leb Nat.add].
    rewrite_bytes. simpl. rewrite <- app_assoc. reflexivity.
  - inversion Hb as [|? ? Ha Hb']; subst. inversion Hb' as [|? ? Hb1 Hc']; subst.
    inversion Hc' as [|? ? Hc Ht]; subst. unfold is_byte in *.
    pose proof (b64_pair_ok_all a b Ha Hb1) as Pab.
    pose proof (b64_pair_ok_all b c Hb1 Hc) as Pbc.
    pose proof (b64_single_ok_all a Ha) as Sa.
    pose proof (b64_single_ok_all c Hc) as Sc.
    unfold b64_pair_ok, b64_single_ok, sextet in *. cbv zeta in *. split_bool.
    cbn [b64encode app].
    rewrite a2b_char by lia. rewrite a2b_char by lia. rewrite a2b_char by lia.
    rewrite a2b_char by lia.
    rewrite_bytes.
    rewrite IH by (simpl in Hlen; lia || auto).
    simpl. rewrite <- !app_assoc. reflexivity.
Qed.

Lemma b64_decode_encode (bs : list Z) :
  Forall is_byte bs -> a2b_base64 (b64encode bs) 0 0 0 [] = Ok bs.
Proof.
  intro H. rewrite (a2b_b64encode_lt (S (length bs))); auto.
Qed.

(** ** JSON *)

Lemma pyval_ind' (P : pyval -> Prop) :
  P PNone -> (forall b, P (PBool b)) -> (forall z, P (PInt z)) ->
  (forall t, P (PFloat t)) -> (forall s, P (PStr s)) ->
  (forall xs, Forall P xs -> P (PList xs)) ->
  (forall xs, Forall P xs -> P (PTuple xs)) ->
  (forall kvs, Forall (fun kv => P (snd kv)) kvs -> P (PDict kvs)) ->
  forall v, P v.
Proof.
  intros HN HB HI HF HS HL HT HD.
  fix IH 1. intro v. destruct v as [| | | | |xs|xs|kvs].
  - exact HN.
  - apply HB.
  - apply HI.
  - apply HF.
  - apply HS.
  - apply HL. induction xs as [|x xs IHxs]; constructor; [apply IH | exact IHxs].
  - apply HT. induction xs as [|x xs IHxs]; constructor; [apply IH | exact IHxs].
  - apply HD. induction kvs as [|kv kvs IHkvs]; constructor; [apply IH | exact IHkvs].
Qed.

Lemma pystr_eqb_eq (a b : pystr) : pystr_eqb a b = true <-> a = b.
Proof.
  revert b. induction a as [|x a IH]; intros [|y b]; simpl;
    try (split; intro H; [discriminate H || reflexivity | discriminate H || reflexivity]).
  rewrite andb_true_iff, Z.eqb_eq, IH. split; [intros [-> ->]; reflexivity|].
  intro H. injection H as -> ->. auto.
Qed.

Lemma pystr_eqb_refl (a : pystr) : pystr_eqb a a = true.
Proof. apply pystr_eqb_eq. reflexivity. Qed.

Lemma pystr_eqb_sym (a b : pystr) : pystr_eqb a b = pystr_eqb b a.
Proof.
  destruct (pystr_eqb a b) eqn:E; destruct (pystr_eqb b a) eqn:F; auto.
  - apply pystr_eqb_eq in E. subst. rewrite pystr_eqb_refl in F. discriminate.
  - apply pystr_eqb_eq in F. subst. rewrite pystr_eqb_refl in E. discriminate.
Qed.

Lemma hex4_u_escape (c : Z) : 0 <= c < 256 ->
  hex4 (hex_digit (c / 4096 mod 16)) (hex_digit (c / 256 mod 16))
       (hex_digit (c / 16 mod 16)) (hex_digit (c mod 16)) = Some c.
Proof.
  intro Hc. pose proof (forallb_zrange hex4_ok 256 ltac:(vm_compute; reflexivity) c Hc) as H.
  unfold hex4_ok in H. destruct (hex4 _ _ _ _); [|discriminate].
  apply Z.eqb_eq in H. subst. reflexivity.
Qed.

Lemma scan_string_plain (c : Z) (t acc : pystr) :
  (c =? 34) = false -> (c =? 92) = false -> (c <=? 31) = false ->
  scan_string (c :: t) acc = scan_string t (c :: acc).
Proof. intros H1 H2 H3. simpl. rewrite H1, H2, H3. reflexivity. Qed.

Lemma scan_string_u (h1 h2 h3 h4 u t0 : Z) (t acc : pystr) :
  hex4 h1 h2 h3 h4 = Some u -> is_high_surrogate u = false ->
  scan_string (92 :: 117 :: h1 :: h2 :: h3 :: h4 :: t0 :: t) acc
  = scan_string (t0 :: t) (u :: acc).
Proof.
  intros H1 H2. cbn [scan_string]. rewrite H1. cbn [scan_string].
  rewrite H2. reflexivity.
Qed.

(** One escaped character is read back by one step of the string scanner. *)
Lemma scan_string_escape_char (c : Z) (t acc : pystr) :
  0 <= c < 256 -> t <> [] ->
  scan_string (escape_char c ++ t)%list acc = scan_string t (c :: acc).
Proof.
  intros Hc Ht. unfold escape_char.
  destruct (Z.eqb_spec c 92); [subst; reflexivity|].
  destruct (Z.eqb_spec c 34); [subst; reflexivity|].
  destruct (Z.eqb_spec c 8); [subst; reflexivity|].
  destruct (Z.eqb_spec c 12); [subst; reflexivity|].
  destruct (Z.eqb_spec c 10); [subst; reflexivity|].
  destruct (Z.eqb_spec c 13); [subst; reflexivity|].
  destruct (Z.eqb_spec c 9); [subst; reflexivity|].
  destruct ((32 <=? c) && (c <=? 126)) eqn:E.
  - split_bool. cbn [app]. apply scan_string_plain.
    + apply Z.eqb_neq. auto.
    + apply Z.eqb_neq. auto.
    + apply Z.leb_gt. lia.
  - replace (c <? 65536) with true by (symmetry; apply Z.ltb_lt; lia).
    destruct t as [|t0 t]; [contradiction|].
    unfold u_escape. cbn [app]. apply scan_string_u.
    + apply hex4_u_escape. exact Hc.
    + unfold is_high_surrogate. apply andb_false_iff. left. apply Z.leb_gt. lia.
Qed.

Lemma scan_string_escaped (s rest acc : pystr) :
  latin1 s = true ->
  scan_string (flat_map escape_char s ++ 34 :: rest)%list acc = Ok ((rev acc ++ s)%list, rest).
Proof.
  revert acc. induction s as [|c s IH]; intros acc Hs.
  - simpl. rewrite app_nil_r. reflexivity.
  - unfold latin1 in Hs. simpl in Hs. apply andb_prop in Hs as [Hc Hs]. split_bool.
    simpl flat_map. rewrite <- app_assoc.
    rewrite scan_string_escape_char by (lia || (destruct (flat_map escape_char s); discriminate)).
    rewrite IH by exact Hs. simpl. rewrite <- app_assoc. reflexivity.
Qed.

Lemma dumps_head (v : pyval) : json_plain v = true ->
  exists c t, json_dumps v = c :: t /\ (c = 110 \/ c = 34 \/ c = 91 \/ c = 123).
Proof.
  destruct v; simpl; intro H; try discriminate.
  - eexists _, _. split; [reflexivity|]. auto.
  - eexists _, _. split; [reflexivity|]. auto.
  - eexists _, _. split; [reflexivity|]. auto.
  - eexists _, _. split; [reflexivity|]. auto.
  - eexists _, _. split; [reflexivity|]. auto.
Qed.

Lemma skip_ws_dumps (v : pyval) (r : pystr) : json_plain v = true ->
  skip_ws (json_dumps v ++ r)%list = (json_dumps v ++ r)%list.
Proof.
  intro H. destruct (dumps_head v H) as [c [t [E Hc]]]. rewrite E.
  destruct Hc as [-> | [-> | [-> | ->]]]; reflexivity.
Qed.

Lemma scan_once_str (f : nat) (t : pystr) :
  scan_once (S f) (34 :: t)
  = (r <- scan_string t [] ;; let (str, rest) := r in Ok (PStr str, rest)).
Proof. reflexivity. Qed.

Lemma scan_once_arr (f : nat) (t : pystr) :
  scan_once (S f) (91 :: t)
  = match skip_ws t with
    | 93 :: rest => Ok (PList [], rest)
    | s1 => array_items f s1 []
    end.
Proof. reflexivity. Qed.

Lemma scan_once_obj (f : nat) (t : pystr) :
  scan_once (S f) (123 :: t)
  = match skip_ws t with
    | 125 :: rest => Ok (PDict [], rest)
    | s1 => object_items f s1 []
    end.
Proof. reflexivity. Qed.

Lemma array_items_step (f : nat) (s : pystr) (acc : list pyval) :
  array_items (S f) s acc
  = (r <- scan_once f s ;;
     let (v, rest) := r in
     match skip_ws rest with
     | 93 :: rest' => Ok (PList (rev (v :: acc)), rest')
     | 44 :: rest' => array_items f (skip_ws rest') (v :: acc)
     | _ => jerr "Expecting ',' delimiter"
     end).
Proof. reflexivity. Qed.

Lemma object_items_step (f : nat) (t : pystr) (acc : list (pystr * pyval)) :
  object_items (S f) (34 :: t) acc
  = (r <- scan_string t [] ;;
     let (key, rest) := r in
     match skip_ws rest with
     | 58 :: rest1 =>
         r2 <- scan_once f (skip_ws rest1) ;;
         let (v, rest2) := r2 in
         let acc' := pdict_set acc key v in
         match skip_ws rest2 with
         | 125 :: rest3 => Ok (PDict acc', rest3)
         | 44 :: rest3 => object_items f (skip_ws rest3) acc'
         | _ => jerr "Expecting ',' delimiter"
         end
     | _ => jerr "Expecting ':' delimiter"
     end).
Proof. reflexivity. Qed.

Lemma pdict_set_fresh {V} (d : list (pystr * V)) (k : pystr) (v : V) :
  existsb (fun kv => pystr_eqb k (fst kv)) d = false -> pdict_set d k v = (d ++ [(k, v)])%list.
Proof.
  induction d as [|[k' v'] d IH]; simpl; [reflexivity|].
  intro H. apply orb_false_iff in H as [H1 H2]. rewrite H1, IH by exact H2. reflexivity.
Qed.

Lemma join_py_cons (sep a : pystr) (l : list pystr) :
  join_py sep (a :: l) = (a ++ match l with [] => [] | _ => sep ++ join_py sep l end)%list.
Proof. destruct l; simpl; [rewrite app_nil_r|]; reflexivity. Qed.

Lemma skip_ws_join_dumps (x : pyval) (xs : list pyval) (r : pystr) :
  json_plain x = true ->
  skip_ws (join_py (S_ ", ") (map json_dumps (x :: xs)) ++ r)%list
  = (join_py (S_ ", ") (map json_dumps (x :: xs)) ++ r)%list.
Proof.
  intro H. simpl map. rewrite join_py_cons, <- app_assoc. apply skip_ws_dumps. exact H.
Qed.

Lemma skip_ws_sep (t : pystr) : skip_ws (S_ ", " ++ t)%list = 44 :: 32 :: t.
Proof. reflexivity. Qed.

Lemma skip_ws_space (t : pystr) : skip_ws (32 :: t) = skip_ws t.
Proof. reflexivity. Qed.

Lemma array_items_dumps (xs : list pyval) :
  Forall (fun x => json_plain x = true -> forall fuel rest, (jneed x <= fuel)%nat ->
            scan_once fuel (json_dumps x ++ rest)%list = Ok (detuple x, rest)) xs ->
  forallb json_plain xs = true -> xs <> [] ->
  forall f acc rest, (fold_right (fun x n => S (jneed x + n)) O xs <= f)%nat ->
  array_items f (join_py (S_ ", ") (map json_dumps xs) ++ 93 :: rest)%list acc
  = Ok (PList (rev acc ++ map detuple xs)%list, rest).
Proof.
  induction 1 as [|x xs Hx Hxs IH]; intros Hp Hne f acc rest Hf; [contradiction|].
  simpl in Hp. apply andb_prop in Hp as [Hpx Hps].
  simpl in Hf. destruct f as [|f]; [lia|].
  rewrite array_items_step.
  destruct xs as [|y ys].
  - simpl map. cbn [join_py]. rewrite (Hx Hpx) by lia. reflexivity.
  - change (join_py (S_ ", ") (map json_dumps (x :: y :: ys)))
      with (json_dumps x ++ S_ ", " ++ join_py (S_ ", ") (map json_dumps (y :: ys)))%list.
    rewrite <- !app_assoc.
    rewrite (Hx Hpx) by lia. cbn [res_bind].
    rewrite skip_ws_sep. cbn iota. rewrite skip_ws_space.
    rewrite skip_ws_join_dumps by (simpl in Hps; apply andb_prop in Hps; tauto).
    rewrite IH; [| exact Hps | discriminate | simpl in Hf |- *; lia].
    simpl. rewrite <- app_assoc. reflexivity.
Qed.

Lemma encode_app (k t : pystr) :
  (encode_basestring_ascii k ++ t)%list = 34 :: (flat_map escape_char k ++ 34 :: t)%list.
Proof. unfold encode_basestring_ascii. simpl. rewrite <- app_assoc. reflexivity. Qed.

Lemma skip_ws_colon (t : pystr) : skip_ws (S_ ": " ++ t)%list = 58 :: 32 :: t.
Proof. reflexivity. Qed.

Lemma existsb_fresh_app (k k' : pystr) (x : pyval) (acc : list (pystr * pyval)) :
  existsb (fun a => pystr_eqb k' (fst a)) acc = false -> pystr_eqb k' k = false ->
  existsb (fun a => pystr_eqb k' (fst a)) (acc ++ [(k, x)])%list = false.
Proof.
  intros H1 H2. rewrite existsb_app, H1. simpl. rewrite H2. reflexivity.
Qed.

Lemma join_py_cons2 (sep a b : pystr) (l : list pystr) :
  join_py sep (a :: b :: l) = (a ++ sep ++ join_py sep (b :: l))%list.
Proof. reflexivity. Qed.

Lemma dict_entry_app (k t : pystr) (x : pyval) :
  (dict_entry (k, x) ++ t)%list
  = 34 :: (flat_map escape_char k ++ 34 :: S_ ": " ++ json_dumps x ++ t)%list.
Proof. unfold dict_entry. rewrite <- !app_assoc. apply encode_app. Qed.

Lemma skip_ws_entries (kv : pystr * pyval) (kvs : list (pystr * pyval)) (t : pystr) :
  skip_ws (join_py (S_ ", ") (map dict_entry (kv :: kvs)) ++ t)%list
  = (join_py (S_ ", ") (map dict_entry (kv :: kvs)) ++ t)%list.
Proof.
  destruct kv as [k x]. rewrite map_cons, join_py_cons, <- app_assoc, dict_entry_app.
  reflexivity.
Qed.

Lemma fresh_extend (acc : list (pystr * pyval)) (k : pystr) (x : pyval)
  (kvs : list (pystr * pyval)) :
  Forall (fun kv => existsb (fun a => pystr_eqb (fst kv) (fst a)) acc = false) kvs ->
  existsb (fun kv => pystr_eqb k (fst kv)) kvs = false ->
  Forall (fun kv => existsb (fun a => pystr_eqb (fst kv) (fst a)) (acc ++ [(k, x)])%list = false) kvs.
Proof.
  induction 1 as [|kv kvs H1 H2 IH]; intro Hk; constructor.
  - simpl in Hk. apply orb_false_iff in Hk as [Hk _].
    apply existsb_fresh_app; [exact H1|]. rewrite pystr_eqb_sym. exact Hk.
  - simpl in Hk. apply orb_false_iff in Hk as [_ Hk]. auto.
Qed.

Lemma object_items_dumps (kvs : list (pystr * pyval)) :
  Forall (fun kv => json_plain (snd kv) = true -> forall fuel rest,
            (jneed (snd kv) <= fuel)%nat ->
            scan_once fuel (json_dumps (snd kv) ++ rest)%list = Ok (detuple (snd kv), rest)) kvs ->
  forallb (fun kv => latin1 (fst kv) && json_plain (snd kv)) kvs = true ->
  keys_distinct kvs = true -> kvs <> [] ->
  forall f acc rest,
  Forall (fun kv => existsb (fun a => pystr_eqb (fst kv) (fst a)) acc = false) kvs ->
  (fold_right (fun kv n => S (jneed (snd kv) + n)) O kvs <= f)%nat ->
  object_items f (join_py (S_ ", ") (map dict_entry kvs) ++ 125 :: rest)%list acc
  = Ok (PDict (acc ++ map (fun kv => (fst kv, detuple (snd kv))) kvs)%list, rest).
Proof.
  induction 1 as [|[k x] kvs Hx Hxs IH];
    intros Hp Hd Hne f acc rest Hfresh Hf; [contradiction|].
  simpl in Hp, Hd, Hx. apply andb_prop in Hp as [Hpk Hps].
  apply andb_prop in Hpk as [Hk Hpx]. apply andb_prop in Hd as [Hd1 Hd2].
  inversion Hfresh as [|? ? Hfk Hfr]; subst.
  simpl in Hf. destruct f as [|f]; [lia|].
  destruct kvs as [|[k2 x2] kvs].
  - rewrite map_cons. cbn [map join_py]. rewrite dict_entry_app.
    rewrite object_items_step. rewrite scan_string_escaped by exact Hk. cbn [res_bind rev app].
    rewrite skip_ws_colon. cbn iota. rewrite skip_ws_space, skip_ws_dumps by exact Hpx.
    rewrite (Hx Hpx) by lia. cbn [res_bind].
    rewrite pdict_set_fresh by exact Hfk. reflexivity.
  - rewrite map_cons, map_cons, join_py_cons2, <- !app_assoc, dict_entry_app.
    rewrite object_items_step. rewrite scan_string_escaped by exact Hk. cbn [res_bind rev app].
    rewrite skip_ws_colon. cbn iota. rewrite skip_ws_space, skip_ws_dumps by exact Hpx.
    rewrite (Hx Hpx) by lia. cbn [res_bind].
    rewrite pdict_set_fresh by exact Hfk.
    rewrite skip_ws_sep. cbn iota. rewrite skip_ws_space.
    rewrite <- map_cons. rewrite skip_ws_entries.
    rewrite IH; auto.
    + simpl. rewrite <- app_assoc. reflexivity.
    + discriminate.
    + apply negb_true_iff in Hd1. apply fresh_extend; auto.
    + simpl in Hf |- *. lia.
Qed.

Lemma arr_match_nonempty (x : pyval) (xs : list pyval) (t : pystr) (f : nat) :
  json_plain x = true ->
  match (join_py (S_ ", ") (map json_dumps (x :: xs)) ++ t)%list with
  | 93 :: rest => Ok (PList [], rest)
  | s1 => array_items f s1 []
  end = array_items f (join_py (S_ ", ") (map json_dumps (x :: xs)) ++ t)%list [].
Proof.
  intro H. rewrite map_cons, join_py_cons, <- app_assoc.
  destruct (dumps_head x H) as [c [u [E Hc]]]. rewrite E.
  destruct Hc as [-> | [-> | [-> | ->]]]; reflexivity.
Qed.

Lemma obj_match_nonempty (kv : pystr * pyval) (kvs : list (pystr * pyval)) (t : pystr) (f : nat) :
  match (join_py (S_ ", ") (map dict_entry (kv :: kvs)) ++ t)%list with
  | 125 :: rest => Ok (PDict [], rest)
  | s1 => object_items f s1 []
  end = object_items f (join_py (S_ ", ") (map dict_entry (kv :: kvs)) ++ t)%list [].
Proof.
  destruct kv as [k x]. rewrite map_cons, join_py_cons, <- app_assoc, dict_entry_app.
  reflexivity.
Qed.

Lemma dumps_dict (kvs : list (pystr * pyval)) :
  json_dumps (PDict kvs) = ([123] ++ join_py (S_ ", ") (map dict_entry kvs) ++ [125])%list.
Proof. reflexivity. Qed.

Lemma dumps_list (xs : list pyval) :
  json_dumps (PList xs) = ([91] ++ join_py (S_ ", ") (map json_dumps xs) ++ [93])%list.
Proof. reflexivity. Qed.

Lemma dumps_tuple (xs : list pyval) :
  json_dumps (PTuple xs) = ([91] ++ join_py (S_ ", ") (map json_dumps xs) ++ [93])%list.
Proof. reflexivity. Qed.

Lemma scan_once_dumps (v : pyval) :
  json_plain v = true -> forall fuel rest, (jneed v <= fuel)%nat ->
  scan_once fuel (json_dumps v ++ rest)%list = Ok (detuple v, rest).
Proof.
  induction v as [| | | | s | xs IH | xs IH | kvs IH] using pyval_ind';
    intros Hp fuel rest Hf; simpl in Hp; try discriminate.
  - destruct fuel; [simpl in Hf; lia|]. reflexivity.
  - destruct fuel; [simpl in Hf; lia|].
    simpl json_dumps. rewrite encode_app, scan_once_str, scan_string_escaped by exact Hp.
    reflexivity.
  - destruct fuel as [|f]; [simpl in Hf; lia|].
    rewrite dumps_list, <- !app_assoc. cbn [app]. rewrite scan_once_arr.
    destruct xs as [|x xs']; [reflexivity|].
    simpl in Hp. pose proof Hp as Hp'. apply andb_prop in Hp' as [Hx _].
    rewrite skip_ws_join_dumps by exact Hx. rewrite arr_match_nonempty by exact Hx.
    rewrite array_items_dumps; auto; [discriminate|simpl in Hf |- *; lia].
  - destruct fuel as [|f]; [simpl in Hf; lia|].
    rewrite dumps_tuple, <- !app_assoc. cbn [app]. rewrite scan_once_arr.
    destruct xs as [|x xs']; [reflexivity|].
    simpl in Hp. pose proof Hp as Hp'. apply andb_prop in Hp' as [Hx _].
    rewrite skip_ws_join_dumps by exact Hx. rewrite arr_match_nonempty by exact Hx.
    rewrite array_items_dumps; auto; [discriminate|simpl in Hf |- *; lia].
  - destruct fuel as [|f]; [simpl in Hf; lia|].
    rewrite dumps_dict, <- !app_assoc. cbn [app]. rewrite scan_once_obj.
    apply andb_prop in Hp as [Hd Hp].
    destruct kvs as [|kv kvs']; [reflexivity|].
    rewrite skip_ws_entries, obj_match_nonempty.
    rewrite object_items_dumps; auto.
    + discriminate.
    + apply Forall_forall. reflexivity.
    + simpl in Hf |- *. lia.
Qed.

Lemma fold_join_le {A} (g : A -> nat) (h : A -> pystr) (xs : list A) :
  Forall (fun x => (g x <= length (h x))%nat) xs ->
  (fold_right (fun x n => S (g x + n)) O xs <= 1 + length (join_py (S_ ", ") (map h xs)))%nat.
Proof.
  induction 1 as [|x xs Hx Hxs IH]; [simpl; lia|].
  destruct xs as [|y ys].
  - simpl. lia.
  - rewrite map_cons, map_cons, join_py_cons2. rewrite <- map_cons.
    rewrite !length_app. simpl fold_right in *. simpl length at 2. lia.
Qed.

Lemma jneed_le (v : pyval) : json_plain v = true -> (jneed v <= length (json_dumps v))%nat.
Proof.
  induction v as [| | | | s | xs IH | xs IH | kvs IH] using pyval_ind';
    intro Hp; simpl in Hp; try discriminate.
  - simpl. lia.
  - simpl json_dumps. unfold encode_basestring_ascii. rewrite !length_app. simpl. lia.
  - rewrite dumps_list, !length_app. simpl jneed. simpl length.
    enough (fold_right (fun x n => S (jneed x + n)) O xs
            <= 1 + length (join_py (S_ ", ") (map json_dumps xs)))%nat by lia.
    apply fold_join_le. rewrite Forall_forall in IH |- *. intros x Hx.
    apply IH; [exact Hx|]. rewrite forallb_forall in Hp. auto.
  - rewrite dumps_tuple, !length_app. simpl jneed. simpl length.
    enough (fold_right (fun x n => S (jneed x + n)) O xs
            <= 1 + length (join_py (S_ ", ") (map json_dumps xs)))%nat by lia.
    apply fold_join_le. rewrite Forall_forall in IH |- *. intros x Hx.
    apply IH; [exact Hx|]. rewrite forallb_forall in Hp. auto.
  - apply andb_prop in Hp as [_ Hp].
    rewrite dumps_dict, !length_app. simpl jneed. simpl length.
    enough (fold_right (fun kv n => S (jneed (snd kv) + n)) O kvs
            <= 1 + length (join_py (S_ ", ") (map dict_entry kvs)))%nat by lia.
    apply fold_join_le. rewrite Forall_forall in IH |- *. intros [k x] Hx.
    rewrite forallb_forall in Hp. specialize (Hp _ Hx). simpl in Hp.
    apply andb_prop in Hp as [_ Hp]. specialize (IH _ Hx Hp). simpl in IH.
    unfold dict_entry, encode_basestring_ascii. rewrite !length_app. simpl. lia.
Qed.

Lemma json_loads_dumps (v : pyval) :
  json_plain v = true -> json_loads (json_dumps v) = Ok (detuple v).
Proof.
  intro Hp. unfold json_loads.
  pose proof (scan_once_dumps v Hp (2 * length (json_dumps v) + 2) [] ltac:(pose proof (jneed_le v Hp); lia)) as E.
  rewrite app_nil_r in E.
  pose proof (skip_ws_dumps v [] Hp) as W. rewrite app_nil_r in W.
  destruct (dumps_head v Hp) as [c [u [D Hc]]].
  rewrite D in E, W |- *.
  destruct Hc as [-> | [-> | [-> | ->]]]; cbn iota; rewrite W, E; reflexivity.
Qed.


(** ** The payload is ASCII *)

Lemma Forall_join_py (P : Z -> Prop) (sep : pystr) (xs : list pystr) :
  Forall P sep -> Forall (Forall P) xs -> Forall P (join_py sep xs).
Proof.
  intro Hs. induction 1 as [|x xs Hx Hxs IH]; [constructor|].
  destruct xs as [|y ys]; [exact Hx|].
  rewrite join_py_cons2. apply Forall_app. split; [exact Hx|].
  apply Forall_app. auto.
Qed.

Lemma hex_digit_printable (n : Z) : 0 <= n < 16 -> printable (hex_digit n).
Proof.
  intro H. unfold printable, hex_digit. destruct (Z.ltb_spec n 10); lia.
Qed.

Lemma u_escape_printable (n : Z) : Forall printable (u_escape n).
Proof.
  unfold u_escape.
  repeat constructor; try (unfold printable; lia);
    apply hex_digit_printable; apply Z.mod_pos_bound; lia.
Qed.

Lemma escape_char_printable (c : Z) : Forall printable (escape_char c).
Proof.
  unfold escape_char.
  destruct (c =? 92); [repeat constructor; unfold printable; lia|].
  destruct (c =? 34); [repeat constructor; unfold printable; lia|].
  destruct (c =? 8); [repeat constructor; unfold printable; lia|].
  destruct (c =? 12); [repeat constructor; unfold printable; lia|].
  destruct (c =? 10); [repeat constructor; unfold printable; lia|].
  destruct (c =? 13); [repeat constructor; unfold printable; lia|].
  destruct (c =? 9); [repeat constructor; unfold printable; lia|].
  destruct ((32 <=? c) && (c <=? 126)) eqn:E.
  - split_bool. repeat constructor; unfold printable; lia.
  - destruct (c <? 65536); [apply u_escape_printable|].
    apply Forall_app. split; apply u_escape_printable.
Qed.

Lemma encode_printable (s : pystr) : Forall printable (encode_basestring_ascii s).
Proof.
  unfold encode_basestring_ascii. apply Forall_app. split; [repeat constructor; unfold printable; lia|].
  apply Forall_app. split; [|repeat constructor; unfold printable; lia].
  induction s as [|c s IH]; [constructor|]. simpl. apply Forall_app. split; auto.
  apply escape_char_printable.
Qed.

Lemma sep_printable : Forall printable (S_ ", ").
Proof. change (S_ ", ") with [44; 32]. repeat constructor; unfold printable; lia. Qed.

Lemma dumps_printable (v : pyval) : json_plain v = true -> Forall printable (json_dumps v).
Proof.
  induction v as [| | | | s | xs IH | xs IH | kvs IH] using pyval_ind';
    intro Hp; simpl in Hp; try discriminate.
  - change (json_dumps PNone) with [110; 117; 108; 108].
    repeat constructor; unfold printable; lia.
  - apply encode_printable.
  - rewrite dumps_list. apply Forall_app. split; [repeat constructor; unfold printable; lia|].
    apply Forall_app. split; [|repeat constructor; unfold printable; lia].
    apply Forall_join_py; [apply sep_printable|]. apply Forall_map.
    rewrite Forall_forall in IH |- *. intros x Hx. apply IH; [exact Hx|].
    rewrite forallb_forall in Hp. auto.
  - rewrite dumps_tuple. apply Forall_app. split; [repeat constructor; unfold printable; lia|].
    apply Forall_app. split; [|repeat constructor; unfold printable; lia].
    apply Forall_join_py; [apply sep_printable|]. apply Forall_map.
    rewrite Forall_forall in IH |- *. intros x Hx. apply IH; [exact Hx|].
    rewrite forallb_forall in Hp. auto.
  - apply andb_prop in Hp as [_ Hp].
    rewrite dumps_dict. apply Forall_app. split; [repeat constructor; unfold printable; lia|].
    apply Forall_app. split; [|repeat constructor; unfold printable; lia].
    apply Forall_join_py; [apply sep_printable|]. apply Forall_map.
    rewrite Forall_forall in IH |- *. intros [k x] Hx.
    rewrite forallb_forall in Hp. specialize (Hp _ Hx). simpl in Hp.
    apply andb_prop in Hp as [_ Hp]. specialize (IH _ Hx Hp). simpl in IH.
    unfold dict_entry. apply Forall_app. split; [apply encode_printable|].
    change (S_ ": ") with [58; 32].
    apply Forall_app. split; [repeat constructor; unfold printable; lia|].
    exact IH.
Qed.

Lemma utf8_encode_ascii (s : pystr) : Forall ascii_code s -> utf8_encode s = Ok s.
Proof.
  induction 1 as [|c s Hc Hs IH]; [reflexivity|].
  unfold ascii_code in Hc. simpl. unfold utf8_encode_char.
  replace (c <? 128) with true by (symmetry; apply Z.ltb_lt; lia).
  cbn [res_bind]. rewrite IH. reflexivity.
Qed.

Lemma utf8_decode_ascii (s : pystr) : Forall ascii_code s -> utf8_decode s = Ok s.
Proof.
  induction 1 as [|c s Hc Hs IH]; [reflexivity|].
  unfold ascii_code in Hc. simpl.
  replace (c <? 128) with true by (symmetry; apply Z.ltb_lt; lia).
  rewrite IH. reflexivity.
Qed.

Ltac b64_elems :=
  repeat (apply Forall_cons;
          [first [left; reflexivity | right; eexists; split; [|reflexivity]; lia] |]);
  apply Forall_nil.

Lemma b64encode_chars (n : nat) (bs : list Z) :
  (length bs < n)%nat -> Forall is_byte bs ->
  Forall (fun c => c = 61 \/ exists v, 0 <= v < 64 /\ c = b64_char v) (b64encode bs).
Proof.
  revert bs. induction n as [|n IH]; intros bs Hlen Hb; [lia|].
  destruct bs as [|a [|b [|c t]]].
  - constructor.
  - inversion Hb as [|? ? Ha _]; subst. unfold is_byte in *.
    pose proof (b64_single_ok_all a Ha) as Sa. unfold b64_single_ok, sextet in Sa.
    cbv zeta in Sa. split_bool.
    b64_elems.
  - inversion Hb as [|? ? Ha Hb']; subst. inversion Hb' as [|? ? Hb1 _]; subst.
    unfold is_byte in *.
    pose proof (b64_pair_ok_all a b Ha Hb1) as Pab.
    pose proof (b64_single_ok_all b Hb1) as Sb.
    pose proof (b64_single_ok_all a Ha) as Sa.
    unfold b64_pair_ok, b64_single_ok, sextet in *. cbv zeta in *. split_bool.
    b64_elems.
  - inversion Hb as [|? ? Ha Hb']; subst. inversion Hb' as [|? ? Hb1 Hc']; subst.
    inversion Hc' as [|? ? Hc Ht]; subst. unfold is_byte in *.
    pose proof (b64_pair_ok_all a b Ha Hb1) as Pab.
    pose proof (b64_pair_ok_all b c Hb1 Hc) as Pbc.
    pose proof (b64_single_ok_all a Ha) as Sa.
    pose proof (b64_single_ok_all c Hc) as Sc.
    unfold b64_pair_ok, b64_single_ok, sextet in *. cbv zeta in *. split_bool.
    cbn [b64encode]. apply Forall_app. split.
    + b64_elems.
    + apply IH; [simpl in Hlen; lia | exact Ht].
Qed.

Lemma b64encode_safe (bs : list Z) : Forall is_byte bs ->
  Forall (fun c => ascii_code c /\ is_space (chr c) = false) (b64encode bs).
Proof.
  intro H. pose proof (b64encode_chars (S (length bs)) bs ltac:(lia) H) as E.
  eapply Forall_impl; [|exact E]. intros c [-> | [v [Hv ->]]].
  - split; [unfold ascii_code; lia | reflexivity].
  - destruct (b64_char_facts v Hv) as [_ [_ [H1 H2]]]. split; [exact H1 | exact H2].
Qed.
Lemma mt_lit_prefix (p s : string) g k :
  p <> "" -> mt (lit p) (p ++ s) g k = k s g.
Proof.
  unfold lit. revert g k. induction p as [|c t IH]; intros g k Hp; [congruence|].
  destruct t as [|c' t'].
  - simpl. unfold is_char. rewrite Ascii.eqb_refl. reflexivity.
  - change (mt (RSeq (RChar (is_char c)) (lit_with is_char (String c' t')))
              (String c (String c' t' ++ s)) g k = k s g).
    simpl. unfold is_char at 1. rewrite Ascii.eqb_refl. apply IH. discriminate.
Qed.

Lemma mt_lit_fail (p s : string) g k :
  String.prefix p s = false -> mt (lit p) s g k = None.
Proof.
  unfold lit. revert s g k. induction p as [|c t IH]; intros s g k Hp.
  - destruct s; discriminate.
  - destruct s as [|d s'].
    + destruct t; reflexivity.
    + simpl in Hp. destruct (ascii_dec c d) as [->|Hcd].
      * destruct t as [|c' t'].
        -- destruct s'; discriminate.
        -- change (mt (RSeq (RChar (is_char d)) (lit_with is_char (String c' t')))
                     (String d s') g k = None).
           simpl. unfold is_char at 1. rewrite Ascii.eqb_refl. apply IH. exact Hp.
      * assert (E : is_char c d = false).
        { unfold is_char. apply Ascii.eqb_neq. congruence. }
        destruct t as [|c' t']; simpl; rewrite E; reflexivity.
Qed.

Lemma prefix_before_newline (p x y : string) :
  all_chars (fun c => negb (Ascii.eqb c "010")) p = true ->
  String.prefix p (x ++ String "010" y) = true -> String.prefix p x = true.
Proof.
  revert p. induction x as [|d x IH]; intros p Hp H.
  - destruct p as [|c p]; [reflexivity|].
    simpl in Hp, H. destruct (ascii_dec c "010") as [->|]; [discriminate|discriminate].
  - destruct p as [|c p]; [reflexivity|].
    simpl in Hp, H |- *. destruct (ascii_dec c d); [|discriminate].
    apply andb_prop in Hp. apply IH; tauto.
Qed.

Lemma search_skip_code (code rest : string) :
  str_contains tool_data_marker code = false ->
  search_from tool_data_rx (code ++ nl ++ nl ++ rest) false =
  search_from tool_data_rx rest false.
Proof.
  induction code as [|c code IH]; intro H.
  - reflexivity.
  - change (str_contains tool_data_marker (String c code)) with
      (String.prefix tool_data_marker (String c code) ||
       str_contains tool_data_marker code) in H.
    apply orb_false_elim in H as [Hp Hc].
    assert (E : String.prefix tool_data_marker (String c (code ++ nl ++ nl ++ rest)) = false).
    { destruct (String.prefix tool_data_marker (String c (code ++ nl ++ nl ++ rest))) eqn:E;
        [|reflexivity].
      apply (prefix_before_newline _ (String c code) (nl ++ rest)) in E;
        [congruence|reflexivity]. }
    change ((String c code ++ nl ++ nl ++ rest)) with (String c (code ++ nl ++ nl ++ rest)).
    simpl search_from at 1. unfold match_at, tool_data_rx.
    cbn [mt]. rewrite (mt_lit_fail _ _ _ _ E). apply IH, Hc.
Qed.

Lemma class_run_all (p : ascii -> bool) (t : string) :
  all_chars p t = true -> exists l, class_run p t = (l ++ [""])%list.
Proof.
  induction t as [|c t IH]; intro H.
  - exists []. reflexivity.
  - simpl in H. apply andb_prop in H as [Hc Ht].
    destruct (IH Ht) as [l Hl]. exists (String c t :: l).
    simpl. rewrite Hc, Hl. reflexivity.
Qed.

Lemma substring_full (s : string) : substring 0 (String.length s) s = s.
Proof. induction s as [|c s IH]; [reflexivity|simpl; now rewrite IH]. Qed.

Lemma search_from_hit r s b e g :
  match_at r s b = Some (e, g) -> search_from r s b = Some (mkMatch s e g (ngroups r)).
Proof. intro H. destruct s; simpl; rewrite H; reflexivity. Qed.

Lemma search_tool_data (code enc : string) :
  str_contains tool_data_marker code = false ->
  enc <> "" -> all_chars (fun c => negb (is_space c)) enc = true ->
  exists m, re_search tool_data_rx (code ++ nl ++ nl ++ tool_data_marker ++ enc) = Some m
            /\ group_str m 1 = enc.
Proof.
  intros Hc Hne Hall. unfold re_search. rewrite search_skip_code by exact Hc.
  assert (M : match_at tool_data_rx (tool_data_marker ++ enc) false = Some ("", [(1%nat, enc)])).
  { unfold match_at, tool_data_rx. cbn [mt].
    rewrite mt_lit_prefix by discriminate.
    destruct enc as [|c t]; [congruence|].
    simpl in Hall. apply andb_prop in Hall as [Hc0 Ht].
    destruct (class_run_all _ t Ht) as [l Hl].
    simpl. rewrite Hc0. simpl skipn. rewrite Hl, rev_unit. simpl.
    now rewrite substring_full. }
  rewrite (search_from_hit _ _ _ _ _ M).
  eexists; split; reflexivity.
Qed.
Lemma S_string_of_codes (l : list Z) :
  Forall ascii_code l -> S_ (string_of_list_ascii (map chr l)) = l.
Proof.
  intro H. unfold S_, of_string. rewrite list_ascii_of_string_of_list_ascii, map_map.
  induction H as [|c l Hc _ IH]; [reflexivity|].
  simpl. rewrite IH. f_equal. unfold code, chr, ascii_code in *.
  rewrite nat_ascii_embedding by lia. lia.
Qed.

Lemma all_chars_of_codes (l : list Z) :
  Forall (fun c => is_space (chr c) = false) l ->
  all_chars (fun c => negb (is_space c)) (string_of_list_ascii (map chr l)) = true.
Proof.
  induction 1 as [|c l Hc _ IH]; [reflexivity|]. simpl. rewrite Hc, IH. reflexivity.
Qed.

Lemma b64encode_nonempty (bs : list Z) : bs <> [] -> b64encode bs <> [].
Proof. destruct bs as [|a [|b [|c t]]]; simpl; congruence. Qed.

Lemma ascii_code_byte (s : pystr) : Forall ascii_code s -> Forall is_byte s.
Proof.
  intro H. eapply Forall_impl; [|exact H]. unfold ascii_code, is_byte. intros; lia.
Qed.

Lemma forallb_ascii_code (s : pystr) :
  Forall ascii_code s -> forallb (fun c => c <? 128) s = true.
Proof.
  induction 1 as [|c l Hc _ IH]; [reflexivity|]. simpl. rewrite IH.
  unfold ascii_code in Hc. rewrite andb_true_r. apply Z.ltb_lt. lia.
Qed.

(** The payload of an ASCII text is non-empty base64 without blanks, and
    decoding it gives the text back. *)
Lemma payload_roundtrip (s : pystr) :
  Forall ascii_code s -> s <> [] ->
  exists enc, encode_payload s = Ok enc /\ enc <> "" /\
              all_chars (fun c => negb (is_space c)) enc = true /\
              b64decode (S_ enc) = Ok s.
Proof.
  intros Ha Hne. pose proof (ascii_code_byte s Ha) as Hb.
  pose proof (b64encode_safe s Hb) as Hs.
  assert (Hc : Forall ascii_code (b64encode s)).
  { eapply Forall_impl; [|exact Hs]. simpl. tauto. }
  exists (string_of_list_ascii (map chr (b64encode s))).
  unfold encode_payload. rewrite utf8_encode_ascii by exact Ha. simpl.
  rewrite utf8_decode_ascii by exact Hc. simpl.
  split; [reflexivity|]. split; [|split].
  - pose proof (b64encode_nonempty s Hne).
    destruct (b64encode s); [congruence|discriminate].
  - apply all_chars_of_codes. eapply Forall_impl; [|exact Hs]. simpl. tauto.
  - rewrite S_string_of_codes by exact Hc. unfold b64decode.
    rewrite forallb_ascii_code by exact Hc. apply b64_decode_encode, Hb.
Qed.
Lemma option_all_Forall2 {A B} (f : A -> option B) (xs : list A) (ys : list B) :
  option_all (map f xs) = Some ys <-> Forall2 (fun x y => f x = Some y) xs ys.
Proof.
  revert ys. induction xs as [|x xs IH]; intros ys; simpl.
  - split; intro H; [injection H as <-; constructor|inversion H; reflexivity].
  - split.
    + destruct (f x) eqn:Fx; [|discriminate].
      destruct (option_all (map f xs)) eqn:E; [|discriminate].
      intro H; injection H as <-. constructor; [exact Fx|]. apply IH. reflexivity.
    + intro H; inversion H as [|? y ? ys' Hxy Hr]; subst. rewrite Hxy.
      apply IH in Hr. rewrite Hr. reflexivity.
Qed.

Lemma to_string_latin1 (s : pystr) (x : string) : to_string s = Some x -> latin1 s = true.
Proof. unfold to_string, latin1. destruct (forallb _ s); congruence. Qed.


Lemma view_str_stable : view_stable view_str.
Proof.
  intros v x H. destruct v; try discriminate. simpl in H |- *.
  split; [eapply to_string_latin1; eauto|exact H].
Qed.

Lemma option_all_stable {A} (f : pyval -> option A) (xs : list pyval) (ys : list A) :
  view_stable f -> option_all (map f xs) = Some ys ->
  forallb json_plain xs = true /\ option_all (map f (map detuple xs)) = Some ys.
Proof.
  intros Hf H. apply option_all_Forall2 in H. rewrite option_all_Forall2.
  induction H as [|x y xs ys Hxy _ [IH1 IH2]]; [split; [reflexivity|constructor]|].
  destruct (Hf _ _ Hxy) as [H1 H2]. simpl. rewrite H1, IH1. split; [reflexivity|].
  constructor; assumption.
Qed.

Lemma view_list_stable {A} (f : pyval -> option A) : view_stable f -> view_stable (view_list f).
Proof.
  intros Hf v x H. destruct v; try discriminate. simpl in H |- *.
  exact (option_all_stable f xs x Hf H).
Qed.

Lemma existsb_map' {A B} (f : A -> B) (p : B -> bool) (l : list A) :
  existsb p (map f l) = existsb (fun x => p (f x)) l.
Proof. induction l as [|x l IH]; simpl; [reflexivity|now rewrite IH]. Qed.

Lemma keys_distinct_map_snd {V W} (g : V -> W) (kvs : list (pystr * V)) :
  keys_distinct (map (fun kv => (fst kv, g (snd kv))) kvs) = keys_distinct kvs.
Proof.
  induction kvs as [|[k v] kvs IH]; [reflexivity|]. simpl. rewrite IH, existsb_map'.
  reflexivity.
Qed.

Lemma view_dict_stable {A} (f : pyval -> option A) (v : pyval) (x : list (string * A)) :
  view_stable f -> dict_keys_distinct v = true -> view_dict f v = Some x ->
  json_plain v = true /\ view_dict f (detuple v) = Some x.
Proof.
  intros Hf Hd H. destruct v as [| | | | | | |kvs]; try discriminate.
  simpl in Hd, H |- *. unfold view_keys in *. rewrite Hd. simpl.
  apply option_all_Forall2 in H. rewrite option_all_Forall2.
  clear Hd. induction H as [|[k v] y kvs ys Hxy _ [IH1 IH2]]; [split; [reflexivity|constructor]|].
  simpl in Hxy. destruct (to_string k) eqn:Ek; [|discriminate].
  destruct (f v) eqn:Ev; [|discriminate]. destruct (Hf _ _ Ev) as [H1 H2].
  split.
  - simpl. rewrite (to_string_latin1 _ _ Ek), H1. exact IH1.
  - simpl. constructor; [|exact IH2]. simpl. rewrite Ek, H2. exact Hxy.
Qed.

Lemma view_conn_stable : view_stable view_conn.
Proof.
  intros v x H.
  destruct v as [| | | | |xs|xs|]; try discriminate;
    (destruct xs as [|k [|s [|]]]; try discriminate); simpl in H |- *;
    (destruct (view_str k) eqn:Ek; [|discriminate]);
    (destruct (view_str s) eqn:Es; [|discriminate]);
    destruct (view_str_stable _ _ Ek) as [H1 H2]; destruct (view_str_stable _ _ Es) as [H3 H4];
    rewrite H1, H3, H2, H4; split; auto.
Qed.

Lemma view_port_stable : view_stable view_port.
Proof.
  intros v x H. destruct v as [| | | | | | |kvs]; try discriminate.
  destruct kvs as [|[k1 n] [|[k2 d] [|[k3 t] [|[k4 w] [|[k5 ds] [|]]]]]]; try discriminate.
  all: destruct ds as [| | | | |dims| |]; try discriminate; try (cbn in H; discriminate).
  unfold view_port in H |- *.
  destruct (pystr_eqb k1 (S_ "name") && pystr_eqb k2 (S_ "direction")
            && pystr_eqb k3 (S_ "dtype") && pystr_eqb k4 (S_ "width")
            && pystr_eqb k5 (S_ "dimensions")) eqn:E; [|discriminate].
  rewrite !andb_true_iff, !pystr_eqb_eq in E. destruct E as [[[[-> ->] ->] ->] ->].
  destruct (view_str n) eqn:En; [|discriminate].
  destruct (view_str d) eqn:Ed; [|discriminate].
  destruct (view_str t) eqn:Et; [|discriminate].
  destruct (view_str w) eqn:Ew; [|discriminate].
  destruct (option_all (map view_str dims)) eqn:Eds; [|discriminate].
  destruct (view_str_stable _ _ En) as [Hn Hn'].
  destruct (view_str_stable _ _ Ed) as [Hd Hd'].
  destruct (view_str_stable _ _ Et) as [Ht Ht'].
  destruct (view_str_stable _ _ Ew) as [Hw Hw'].
  destruct (option_all_stable _ _ _ view_str_stable Eds) as [Hds Hds'].
  split.
  - cbn [json_plain forallb fst snd]. rewrite Hn, Hd, Ht, Hw, Hds. reflexivity.
  - cbn [detuple map fst snd]. rewrite Hn', Hd', Ht', Hw', Hds'. exact H.
Qed.

Lemma view_param_stable : view_stable view_param.
Proof.
  intros v x H. destruct v as [| | | | | | |kvs]; try discriminate.
  destruct kvs as [|[k1 n] [|[k2 y] [|[k3 t] [|]]]]; try discriminate.
  all: destruct t as [| | | |ts| | |]; try discriminate; try (cbn in H; discriminate).
  all: unfold view_param in H |- *.
  all: destruct (pystr_eqb k1 (S_ "name") && pystr_eqb k2 (S_ "value")
                 && pystr_eqb k3 (S_ "type")) eqn:E; [|discriminate].
  all: rewrite !andb_true_iff, !pystr_eqb_eq in E; destruct E as [[-> ->] ->].
  all: destruct (view_str n) eqn:En; [|discriminate].
  all: destruct (view_str y) eqn:Ey; [|discriminate].
  all: destruct (view_str_stable _ _ En) as [Hn Hn'].
  all: destruct (view_str_stable _ _ Ey) as [Hy Hy'].
  all: try discriminate.
  - split.
    + cbn [json_plain forallb fst snd]. rewrite Hn, Hy. reflexivity.
    + cbn [detuple map fst snd]. rewrite Hn', Hy'. exact H.
  - destruct (view_str (PStr ts)) eqn:Et; [|discriminate].
    destruct (view_str_stable _ _ Et) as [Ht Ht'].
    split.
    + cbn [json_plain forallb fst snd] in Ht |- *. rewrite Hn, Hy, Ht. reflexivity.
    + cbn [detuple map fst snd]. rewrite Hn', Hy', Et. exact H.
Qed.
Lemma view_module_reload (o : module_obj) (m : vmodule) :
  view_module o = Some m -> dict_keys_distinct (mo_macros o) = true ->
  to_string (mo_name o) = Some (mod_name m) /\
  json_plain (mo_filepath o) && json_plain (mo_ports o) && json_plain (mo_parameters o)
  && json_plain (mo_macros o) = true /\
  view_module (reload_obj (mo_name o) o) = Some m.
Proof.
  intros H Hd. unfold view_module, reload_obj in *. cbn [mo_name mo_filepath mo_ports mo_parameters mo_macros].
  destruct (to_string (mo_name o)) eqn:E1; [|discriminate].
  destruct (view_str (mo_filepath o)) eqn:E2; [|discriminate].
  destruct (view_list view_port (mo_ports o)) eqn:E3; [|discriminate].
  destruct (view_list view_param (mo_parameters o)) eqn:E4; [|discriminate].
  destruct (view_dict view_str (mo_macros o)) eqn:E5; [|discriminate].
  injection H as <-.
  destruct (view_str_stable _ _ E2) as [H2 H2'].
  destruct (view_list_stable _ view_port_stable _ _ E3) as [H3 H3'].
  destruct (view_list_stable _ view_param_stable _ _ E4) as [H4 H4'].
  destruct (view_dict_stable _ _ _ view_str_stable Hd E5) as [H5 H5'].
  rewrite H2, H3, H4, H5, H2', H3', H4', H5'. auto.
Qed.

Lemma Forall2_Forall_l {A B} (R : A -> B -> Prop) (xs : list A) (ys : list B) :
  Forall2 R xs ys -> Forall (fun x => exists y, R x y) xs.
Proof. induction 1; constructor; eauto. Qed.

Lemma forallb_Forall' {A} (p : A -> bool) (xs : list A) :
  Forall (fun x => p x = true) xs -> forallb p xs = true.
Proof. induction 1; simpl; [reflexivity|]. rewrite H, IHForall. reflexivity. Qed.

Lemma Forall_forallb' {A} (p : A -> bool) (xs : list A) :
  forallb p xs = true -> Forall (fun x => p x = true) xs.
Proof.
  induction xs as [|x xs IH]; simpl; intro H; constructor.
  - now apply andb_prop in H.
  - apply IH. now apply andb_prop in H.
Qed.

Lemma existsb_fst_Forall2 {V W} (p : pystr -> bool) (xs : list (pystr * V)) (ys : list (pystr * W)) :
  Forall2 (fun a b => fst a = fst b) xs ys ->
  existsb (fun kv => p (fst kv)) xs = existsb (fun kv => p (fst kv)) ys.
Proof. induction 1 as [|a b xs ys Hab _ IH]; simpl; [reflexivity|]. now rewrite Hab, IH. Qed.

Lemma keys_distinct_Forall2 {V W} (xs : list (pystr * V)) (ys : list (pystr * W)) :
  Forall2 (fun a b => fst a = fst b) xs ys -> keys_distinct xs = keys_distinct ys.
Proof.
  induction 1 as [|[k v] [k' w] xs ys Hab Hr IH]; simpl; [reflexivity|].
  simpl in Hab; subst k'. rewrite IH.
  rewrite (existsb_fst_Forall2 (fun k' => pystr_eqb k k') xs ys Hr). reflexivity.
Qed.

Lemma fold_pdict_set_distinct (ms acc : list (pystr * pyval)) :
  keys_distinct ms = true ->
  Forall (fun kv => existsb (fun a => pystr_eqb (fst kv) (fst a)) acc = false) ms ->
  fold_left (fun d '(k, v) => pdict_set d k v) ms acc = (acc ++ ms)%list.
Proof.
  revert acc. induction ms as [|[k v] ms IH]; intros acc Hd Hf; simpl.
  - now rewrite app_nil_r.
  - simpl in Hd. apply andb_prop in Hd as [Hk Hd]. apply negb_true_iff in Hk.
    inversion Hf as [|? ? Hh Ht]; subst.
    rewrite pdict_set_fresh by exact Hh. rewrite IH; [now rewrite <- app_assoc|exact Hd|].
    apply fresh_extend; assumption.
Qed.

Lemma Forall_fresh_nil (ms : list (pystr * pyval)) :
  Forall (fun kv => existsb (fun a : pystr * pyval => pystr_eqb (fst kv) (fst a)) [] = false) ms.
Proof. induction ms; constructor; auto. Qed.
Lemma pair_up {A B} (P : A -> B -> Prop) (xs : list A) :
  Forall (fun x => exists y, P x y) xs ->
  exists ps, map fst ps = xs /\ Forall (fun p => P (fst p) (snd p)) ps.
Proof.
  induction 1 as [|x xs [y Hy] _ [ps [Hps Hf]]].
  - exists []. split; constructor.
  - exists ((x, y) :: ps). simpl. rewrite Hps. split; [reflexivity|]. constructor; assumption.
Qed.

Lemma Forall_and' {A} (P Q : A -> Prop) (xs : list A) :
  Forall P xs -> Forall Q xs -> Forall (fun x => P x /\ Q x) xs.
Proof. induction 1; inversion 1; constructor; auto. Qed.

Lemma wf_pairs (st : app_state) (reg : registry) :
  project_wf st = true -> registry_view st = Some reg ->
  (exists PM, map fst PM = st_modules st /\ Forall (mod_ok (st_heap st)) PM) /\
  (exists PI, map fst PI = st_instances st /\
              Forall (inst_ok (st_heap st) (st_modules st)) PI).
Proof.
  intros Hwf Hr. unfold project_wf in Hwf.
  apply andb_prop in Hwf as [Hwf W3]. apply andb_prop in Hwf as [W1 W2].
  apply Forall_forallb' in W2, W3.
  unfold registry_view in Hr.
  destruct (option_all _) as [ms|] eqn:R1; [|discriminate].
  destruct (view_instances st) as [is|] eqn:R2; [|discriminate].
  apply option_all_Forall2, Forall2_Forall_l in R1.
  unfold view_instances in R2. apply option_all_Forall2, Forall2_Forall_l in R2.
  split.
  - destruct (pair_up (fun kl o => mod_ok (st_heap st) (kl, o)) (st_modules st))
      as [PM [H1 H2]].
    2:{ exists PM. split; [exact H1|]. eapply Forall_impl; [|exact H2]. intros [? ?]; auto. }
    pose proof (Forall_and' _ _ _ W2 R1) as H.
    eapply Forall_impl; [|exact H]. intros [k l] [Hw [y Hy]]. simpl in Hw, Hy.
    destruct (nth_error (st_heap st) l) as [o|] eqn:Eo; [|discriminate].
    apply andb_prop in Hw as [Hn Hd]. apply pystr_eqb_eq in Hn.
    destruct (to_string k); [|discriminate]. destruct (view_module o) eqn:Ev; [|discriminate].
    exists o. unfold mod_ok. simpl. eauto 6.
  - destruct (pair_up (fun i o => inst_ok (st_heap st) (st_modules st) (i, o))
                (st_instances st)) as [PI [H1 H2]].
    2:{ exists PI. split; [exact H1|]. eapply Forall_impl; [|exact H2]. intros [? ?]; auto. }
    pose proof (Forall_and' _ _ _ W3 R2) as H.
    eapply Forall_impl; [|exact H]. intros i [Hw Hx].
    destruct (nth_error (st_heap st) (io_module_ref i)) as [o|] eqn:Eo;
      [|apply andb_prop in Hw as [Hw _]; apply andb_prop in Hw as [Hw _]; discriminate].
    apply andb_prop in Hw as [Hw Hp]. apply andb_prop in Hw as [Hl Hc].
    destruct (pdict_get (st_modules st) (mo_name o)) eqn:El; [|discriminate].
    exists o. unfold inst_ok. simpl. eauto 8.
Qed.

Lemma option_all_map_Some {A B} (f : A -> option B) (h : A -> B) (xs : list A) :
  Forall (fun x => f x = Some (h x)) xs -> option_all (map f xs) = Some (map h xs).
Proof. induction 1 as [|x xs Hx _ IH]; simpl; [reflexivity|]. now rewrite Hx, IH. Qed.

Lemma keys_distinct_fst {V W} (xs : list (pystr * V)) (ys : list (pystr * W)) :
  map fst xs = map fst ys -> keys_distinct xs = keys_distinct ys.
Proof.
  revert ys. induction xs as [|[k v] xs IH]; intros [|[k' w] ys]; simpl; try discriminate;
    [reflexivity|].
  intro H. injection H as -> Hr. rewrite (IH ys Hr). f_equal. f_equal.
  rewrite <- (existsb_map' fst (pystr_eqb k') xs), <- (existsb_map' fst (pystr_eqb k') ys).
  now rewrite Hr.
Qed.

Lemma serialize_data_pairs (st : app_state) (PM : list ((pystr * nat) * module_obj))
  (PI : list (inst_obj * module_obj)) :
  keys_distinct (st_modules st) = true ->
  map fst PM = st_modules st -> Forall (mod_ok (st_heap st)) PM ->
  map fst PI = st_instances st -> Forall (inst_ok (st_heap st) (st_modules st)) PI ->
  serialize_data st =
  Some (PDict [(S_ "modules", PDict (map (fun p => module_item (snd p)) PM));
               (S_ "instances", PList (map (fun p => inst_item (snd p) (fst p)) PI))]).
Proof.
  intros Hd HM FM HI FI. unfold serialize_data. rewrite <- HM, <- HI, !map_map.
  rewrite (option_all_map_Some _ (fun p => module_item (snd p))).
  2:{ eapply Forall_impl; [|exact FM]. intros [[k l] o] [H1 [H2 _]]. simpl in *.
      rewrite H1. subst k. reflexivity. }
  rewrite (option_all_map_Some _ (fun p => inst_item (snd p) (fst p))).
  2:{ eapply Forall_impl; [|exact FI]. intros [i o] [H1 _]. simpl in *.
      rewrite H1. reflexivity. }
  rewrite fold_pdict_set_distinct; [reflexivity| |apply Forall_fresh_nil].
  rewrite <- (keys_distinct_fst (st_modules st)).
  - exact Hd.
  - rewrite <- HM, !map_map. apply map_ext_in. intros [[k l] o] Hin.
    rewrite Forall_forall in FM. destruct (FM _ Hin) as [_ [H2 _]]. symmetry. exact H2.
Qed.

Lemma latin1_of_view (o : module_obj) (m : vmodule) :
  view_module o = Some m -> latin1 (mo_name o) = true.
Proof.
  unfold view_module. destruct (to_string (mo_name o)) eqn:E; [|discriminate].
  intros _. eapply to_string_latin1; eauto.
Qed.

Lemma serialized_plain (st : app_state) (PM : list ((pystr * nat) * module_obj))
  (PI : list (inst_obj * module_obj)) :
  keys_distinct (st_modules st) = true ->
  map fst PM = st_modules st -> Forall (mod_ok (st_heap st)) PM ->
  Forall (inst_ok (st_heap st) (st_modules st)) PI ->
  json_plain (PDict [(S_ "modules", PDict (map (fun p => module_item (snd p)) PM));
                     (S_ "instances", PList (map (fun p => inst_item (snd p) (fst p)) PI))])
  = true.
Proof.
  intros Hd HM FM FI.
  assert (A : keys_distinct (map (fun p => module_item (snd p)) PM) = true).
  { rewrite <- Hd. apply keys_distinct_fst. rewrite <- HM, !map_map. apply map_ext_in.
    intros [[k l] o] Hin. rewrite Forall_forall in FM.
    destruct (FM _ Hin) as [_ [H2 _]]. exact H2. }
  assert (B : forallb (fun kv => latin1 (fst kv) && json_plain (snd kv))
                (map (fun p => module_item (snd p)) PM) = true).
  { apply forallb_Forall', Forall_map. eapply Forall_impl; [|exact FM].
    intros [[k l] o] [_ [_ [Hm [m Hv]]]]. simpl.
    destruct (view_module_reload o m Hv Hm) as [H1 [H2 _]].
    rewrite (latin1_of_view o m Hv). cbn [json_plain forallb fst snd].
    repeat (apply andb_prop in H2 as [H2 ?]). rewrite H2.
    repeat match goal with H : json_plain _ = true |- _ => rewrite H; clear H end.
    reflexivity. }
  assert (C : forallb json_plain (map (fun p => inst_item (snd p) (fst p)) PI) = true).
  { apply forallb_Forall', Forall_map. eapply Forall_impl; [|exact FI].
    intros [i o] [H1 [_ [Hc [Hp [x Hx]]]]]. simpl in *.
    unfold view_instance in Hx. rewrite H1 in Hx.
    destruct (view_module o) as [m|] eqn:Em; [|discriminate].
    destruct (view_str (io_instance_name i)) eqn:En; [|discriminate].
    destruct (view_dict view_conn (io_connections i)) eqn:Ec; [|discriminate].
    destruct (view_dict view_str (io_parameter_values i)) eqn:Ep; [|discriminate].
    destruct (view_str_stable _ _ En) as [Hn _].
    destruct (view_dict_stable _ _ _ view_conn_stable Hc Ec) as [Hc' _].
    destruct (view_dict_stable _ _ _ view_str_stable Hp Ep) as [Hp' _].
    unfold inst_item. cbn [json_plain forallb fst snd].
    rewrite (latin1_of_view o m Em), Hn, Hc', Hp'. reflexivity. }
  cbn [json_plain forallb fst snd]. rewrite A, B, C. reflexivity.
Qed.
Ltac eval_keys :=
  repeat match goal with
  | |- context [pystr_eqb (S_ ?a) (S_ ?b)] =>
      let v := eval vm_compute in (pystr_eqb (S_ a) (S_ b)) in
      change (pystr_eqb (S_ a) (S_ b)) with v
  end.

Lemma update_nth_last {A} (f : A -> A) (xs : list A) (x : A) :
  update_nth f (length xs) (xs ++ [x])%list = (xs ++ [f x])%list.
Proof. induction xs as [|y xs IH]; simpl; [reflexivity|now rewrite IH]. Qed.

Lemma load_module_step (o : module_obj) (s : pystr) (H : list module_obj)
  (M : list (pystr * nat)) (I : list inst_obj) (L : list log_entry) :
  mo_filepath o = PStr s ->
  existsb (fun kv => pystr_eqb (mo_name o) (fst kv)) M = false ->
  load_module (mo_name o, detuple (snd (module_item o))) (mkState H M I L) =
  (Ok tt, mkState (H ++ [reload_obj (mo_name o) o]) (M ++ [(mo_name o, length H)]) I L).
Proof.
  intros Hfp Hfr. unfold load_module, module_item, reload_obj.
  cbn [detuple map fst snd]. rewrite Hfp.
  unfold app_bind, app_lift, app_alloc, app_update_module, app_modify.
  cbn [py_getitem pdict_get]. eval_keys. cbn.
  rewrite !update_nth_last. unfold set_modules. cbn.
  rewrite pdict_set_fresh by exact Hfr. reflexivity.
Qed.

Lemma keys_distinct_app_fresh {V} (M r : list (pystr * V)) (k : pystr) (v : V) :
  keys_distinct (M ++ (k, v) :: r)%list = true ->
  existsb (fun kv => pystr_eqb k (fst kv)) M = false.
Proof.
  induction M as [|[k' v'] M IH]; simpl; [reflexivity|].
  intro H. apply andb_prop in H as [H1 H2]. apply negb_true_iff in H1.
  rewrite existsb_app in H1. apply orb_false_iff in H1 as [_ H1]. simpl in H1.
  apply orb_false_iff in H1 as [H1 _]. rewrite pystr_eqb_sym, H1. simpl. exact (IH H2).
Qed.

Lemma load_modules (os : list module_obj) (H : list module_obj)
  (M : list (pystr * nat)) (I : list inst_obj) (L : list log_entry) :
  Forall (fun o => exists s, mo_filepath o = PStr s) os ->
  keys_distinct (M ++ loc_entries (length H) os)%list = true ->
  app_iter load_module (map (fun o => (mo_name o, detuple (snd (module_item o)))) os)
    (mkState H M I L) =
  (Ok tt, mkState (H ++ map (fun o => reload_obj (mo_name o) o) os)
                  (M ++ loc_entries (length H) os) I L).
Proof.
  revert H M. induction os as [|o os IH]; intros H M Hfp Hd.
  - simpl. rewrite !app_nil_r. reflexivity.
  - inversion Hfp as [|? ? [s Hs] Hr]; subst. cbn [map app_iter]. unfold app_bind at 1.
    rewrite (load_module_step o s) by (auto; simpl in Hd; eapply keys_distinct_app_fresh; exact Hd).
    rewrite IH; [| exact Hr |].
    + rewrite length_app, <- !app_assoc. simpl. rewrite Nat.add_1_r. reflexivity.
    + rewrite length_app, <- app_assoc. simpl. rewrite Nat.add_1_r. exact Hd.
Qed.

Lemma load_instance_step (p : inst_obj * module_obj) (l : nat) (H : list module_obj)
  (M : list (pystr * nat)) (I : list inst_obj) (L : list log_entry) :
  pdict_get M (mo_name (snd p)) = Some l ->
  load_instance (detuple (inst_item (snd p) (fst p))) (mkState H M I L) =
  (Ok tt, mkState H M (I ++ [reload_inst M p]) L).
Proof.
  intro Hl. unfold load_instance, inst_item, reload_inst. cbn [detuple map fst snd].
  unfold app_bind, app_lift, app_get, app_modify.
  cbn [py_getitem pdict_get]. eval_keys. cbn. rewrite Hl. reflexivity.
Qed.

Lemma load_instances (PI : list (inst_obj * module_obj)) (H : list module_obj)
  (M : list (pystr * nat)) (I : list inst_obj) (L : list log_entry) :
  Forall (fun p => exists l, pdict_get M (mo_name (snd p)) = Some l) PI ->
  app_iter load_instance (map detuple (map (fun p => inst_item (snd p) (fst p)) PI))
    (mkState H M I L) =
  (Ok tt, mkState H M (I ++ map (reload_inst M) PI) L).
Proof.
  revert I. induction PI as [|p PI IH]; intros I Hl.
  - simpl. rewrite app_nil_r. reflexivity.
  - inversion Hl as [|? ? [l Hp] Hr]; subst. cbn [map app_iter]. unfold app_bind at 1.
    rewrite (load_instance_step p l) by exact Hp.
    rewrite IH by exact Hr. rewrite <- app_assoc. reflexivity.
Qed.
Lemma deserialize_saved (st0 : app_state) (PM : list ((pystr * nat) * module_obj))
  (PI : list (inst_obj * module_obj)) :
  let data := PDict [(S_ "modules", PDict (map (fun p => module_item (snd p)) PM));
                     (S_ "instances", PList (map (fun p => inst_item (snd p) (fst p)) PI))] in
  let M1 := loc_entries (length (st_heap st0)) (map snd PM) in
  json_plain data = true ->
  Forall (fun o => exists s, mo_filepath o = PStr s) (map snd PM) ->
  keys_distinct M1 = true ->
  Forall (fun p => exists l, pdict_get M1 (mo_name (snd p)) = Some l) PI ->
  exists e, deserialize_data (json_dumps data) st0 =
    (Ok tt, add_log e (mkState (st_heap st0 ++ map (fun o => reload_obj (mo_name o) o) (map snd PM))
                               M1 (map (reload_inst M1) PI) (st_log st0))).
Proof.
  intros data M1 Hp Hfp Hd Hl. destruct st0 as [H0 M0 I0 L0]. cbn [st_heap st_log] in *.
  unfold deserialize_data, app_bind, app_lift, app_modify, app_get.
  rewrite json_loads_dumps by exact Hp. unfold data. cbn [detuple map fst snd].
  cbn [py_getitem pdict_get]. eval_keys. cbn [py_items py_iter].
  replace (map (fun kv => (fst kv, detuple (snd kv))) (map (fun p => module_item (snd p)) PM))
    with (map (fun o => (mo_name o, detuple (snd (module_item o)))) (map snd PM))
    by (rewrite !map_map; reflexivity).
  change (set_instances [] (set_modules [] (mkState H0 M0 I0 L0))) with (mkState H0 [] [] L0).
  rewrite load_modules by assumption. cbn [app]. fold M1.
  rewrite load_instances by assumption. cbn [app].
  eexists. reflexivity.
Qed.
Lemma view_module_name (o : module_obj) (m : vmodule) :
  view_module o = Some m -> to_string (mo_name o) = Some (mod_name m).
Proof.
  unfold view_module. destruct (to_string (mo_name o)); [|discriminate].
  repeat match goal with |- context [match ?x with Some _ => _ | None => _ end] =>
    destruct x; [|discriminate] end.
  intro H. injection H as <-. reflexivity.
Qed.

Lemma pdict_get_loc_entries (base : nat) (os : list module_obj) (k : pystr) (l : nat) :
  pdict_get (loc_entries base os) k = Some l ->
  exists j o, l = (base + j)%nat /\ nth_error os j = Some o /\ mo_name o = k.
Proof.
  revert base. induction os as [|o os IH]; intros base H; simpl in H; [discriminate|].
  destruct (pystr_eqb k (mo_name o)) eqn:E.
  - injection H as <-. apply pystr_eqb_eq in E. exists O, o. split; [lia|]. auto.
  - destruct (IH _ H) as [j [o' [-> [Hj Hn]]]]. exists (S j), o'.
    split; [lia|]. auto.
Qed.

Lemma mods_reloaded (heap H1 : list module_obj) (PM : list ((pystr * nat) * module_obj))
  (base : nat) :
  Forall (mod_ok heap) PM ->
  (forall i, nth_error H1 (base + i) =
             nth_error (map (fun o => reload_obj (mo_name o) o) (map snd PM)) i) ->
  map (fun '(k, l) =>
         match to_string k,
               match nth_error H1 l with Some o => view_module o | None => None end with
         | Some k', Some m => Some (k', m)
         | _, _ => None
         end) (loc_entries base (map snd PM)) =
  map (fun '(k, l) =>
         match to_string k,
               match nth_error heap l with Some o => view_module o | None => None end with
         | Some k', Some m => Some (k', m)
         | _, _ => None
         end) (map fst PM).
Proof.
  revert base. induction PM as [|[[k l] o] PM IH]; intros base F Hn; [reflexivity|].
  inversion F as [|? ? [H1' [H2 [H3 [m H4]]]] Fr]; subst. simpl in H1', H2, H3, H4.
  cbn [map loc_entries fst snd]. f_equal.
  - pose proof (Hn O) as E. rewrite Nat.add_0_r in E. simpl in E. rewrite E, H1'.
    destruct (view_module_reload o m H4 H3) as [_ [_ ->]]. rewrite H4, H2. reflexivity.
  - apply IH; [exact Fr|]. intro i. specialize (Hn (S i)). simpl in Hn. rewrite <- Hn.
    f_equal. lia.
Qed.

Lemma insts_reloaded (heap H1 : list module_obj) (ms : list (pystr * nat))
  (PM : list ((pystr * nat) * module_obj)) (PI : list (inst_obj * module_obj)) (base : nat) :
  Forall (mod_ok heap) PM ->
  (forall i, nth_error H1 (base + i) =
             nth_error (map (fun o => reload_obj (mo_name o) o) (map snd PM)) i) ->
  Forall (inst_ok heap ms) PI ->
  Forall (fun p => exists l, pdict_get (loc_entries base (map snd PM)) (mo_name (snd p)) = Some l) PI ->
  forall IS, option_all (map (view_instance heap) (map fst PI)) = Some IS ->
  exists IS', option_all (map (view_instance H1) (map (reload_inst (loc_entries base (map snd PM))) PI)) = Some IS' /\
    map (fun i => (mod_name (inst_module i), inst_name i, inst_connections i, inst_parameter_values i)) IS' =
    map (fun i => (mod_name (inst_module i), inst_name i, inst_connections i, inst_parameter_values i)) IS.
Proof.
  intros FM Hn. induction PI as [|[i o] PI IH]; intros FI FL IS HIS.
  - simpl in HIS. injection HIS as <-. exists []. split; reflexivity.
  - inversion FI as [|? ? [Ho [_ [Hc [Hp _]]]] FI']; subst.
    inversion FL as [|? ? [l Hl] FL']; subst. simpl in Ho, Hc, Hp, Hl.
    cbn [map option_all fst] in HIS.
    destruct (view_instance heap i) as [x|] eqn:Ex; [|simpl in HIS; discriminate].
    destruct (option_all (map (view_instance heap) (map fst PI))) as [IS0|] eqn:E0;
      [|simpl in HIS; discriminate].
    injection HIS as <-.
    destruct (IH FI' FL' IS0 eq_refl) as [IS' [H1' H2']].
    unfold view_instance in Ex. rewrite Ho in Ex.
    destruct (view_module o) as [m|] eqn:Em; [|discriminate].
    destruct (view_str (io_instance_name i)) as [n|] eqn:En; [|discriminate].
    destruct (view_dict view_conn (io_connections i)) as [cs|] eqn:Ec; [|discriminate].
    destruct (view_dict view_str (io_parameter_values i)) as [pvs|] eqn:Ep; [|discriminate].
    injection Ex as <-.
    destruct (pdict_get_loc_entries _ _ _ _ Hl) as [j [o' [Hl' [Hj Hname]]]].
    assert (Hin : In o' (map snd PM)) by (eapply nth_error_In; eauto).
    apply in_map_iff in Hin as [p' [Hp' Hin]].
    rewrite Forall_forall in FM. destruct (FM _ Hin) as [_ [_ [Hd' [m' Hm']]]].
    rewrite Hp' in Hd', Hm'.
    destruct (view_module_reload o' m' Hm' Hd') as [Hnm' [_ Hv']].
    exists (mkInstance m' n cs pvs :: IS'). split.
    + cbn [map option_all]. rewrite H1'.
      unfold view_instance, reload_inst. cbn [fst snd io_module_ref io_instance_name
        io_connections io_parameter_values]. rewrite Hl, Hl', Hn.
      rewrite nth_error_map, Hj. cbn [option_map]. rewrite Hv'.
      rewrite (proj2 (view_str_stable _ _ En)).
      rewrite (proj2 (view_dict_stable _ _ _ view_conn_stable Hc Ec)).
      rewrite (proj2 (view_dict_stable _ _ _ view_str_stable Hp Ep)). reflexivity.
    + cbn [map]. rewrite H2'. f_equal. cbn [inst_module inst_name inst_connections
        inst_parameter_values mod_name].
      pose proof (view_module_name o m Em) as Hnm. rewrite <- Hname, Hnm' in Hnm.
      injection Hnm as ->. reflexivity.
Qed.
Lemma registry_view_add_log (e : log_entry) (st : app_state) :
  registry_view (add_log e st) = registry_view st.
Proof. destruct st; reflexivity. Qed.

Lemma map_fst_loc_entries (base : nat) (os : list module_obj) :
  map fst (loc_entries base os) = map mo_name os.
Proof. revert base. induction os as [|o os IH]; intro base; simpl; [reflexivity|now rewrite IH]. Qed.

Lemma pdict_get_same_keys {V W} (xs : list (pystr * V)) (ys : list (pystr * W)) (k : pystr) :
  map fst xs = map fst ys -> (exists v, pdict_get xs k = Some v) -> exists w, pdict_get ys k = Some w.
Proof.
  revert ys. induction xs as [|[k1 v1] xs IH]; intros [|[k2 w2] ys] H [v Hv]; simpl in *;
    try discriminate.
  injection H as -> Hr. destruct (pystr_eqb k k2); [eauto|]. eapply IH; eauto.
Qed.

Lemma view_module_filepath (o : module_obj) (m : vmodule) :
  view_module o = Some m -> exists s, mo_filepath o = PStr s.
Proof.
  unfold view_module. destruct (to_string (mo_name o)); [|discriminate].
  destruct (mo_filepath o); simpl; try discriminate. eauto.
Qed.

Lemma dumps_ascii (v : pyval) : json_plain v = true -> Forall ascii_code (json_dumps v).
Proof.
  intro H. eapply Forall_impl; [|exact (dumps_printable v H)].
  unfold printable, ascii_code. intros; lia.
Qed.

Lemma dumps_nonempty (v : pyval) : json_plain v = true -> json_dumps v <> [].
Proof. intro H. destruct (dumps_head v H) as [c [t [-> _]]]. discriminate. Qed.

Lemma nth_error_app_shift {A} (H0 L : list A) (i : nat) :
  nth_error (H0 ++ L)%list (length H0 + i) = nth_error L i.
Proof. rewrite nth_error_app2 by lia. f_equal. lia. Qed.

Lemma save_project_text (filepath : string) (st st' : app_state) (text : string) :
  save_project filepath st = Some (Some text, st') ->
  exists insts data enc,
    String.eqb filepath "" = false /\ view_instances st = Some insts /\
    serialize_data st = Some data /\ encode_payload (json_dumps data) = Ok enc /\
    text = (generate_top_module insts (top_name_of filepath) ++ nl ++ nl ++ tool_data_marker ++ enc) /\
    st' = add_log (LogSaved filepath (top_name_of filepath) (length (st_instances st))) st.
Proof.
  unfold save_project. destruct (String.eqb filepath "") eqn:Ep; [discriminate|].
  destruct (view_instances st) as [insts|] eqn:E1; [|discriminate].
  destruct (serialize_data st) as [data|] eqn:E2; [|discriminate].
  destruct (encode_payload (json_dumps data)) as [enc|] eqn:E3; [|discriminate].
  intro H. injection H as <- <-. exists insts, data, enc. repeat split; auto.
Qed.

Lemma open_project_found (filepath content : string) (st0 st1 : app_state) (m : rmatch)
  (bs : list Z) (s : pystr) :
  String.eqb filepath "" = false ->
  re_search tool_data_rx content = Some m ->
  b64decode (S_ (group_str m 1)) = Ok bs -> utf8_decode bs = Ok s ->
  deserialize_data s st0 = (Ok tt, st1) ->
  run_callback (open_project filepath (FileText content)) st0 =
  add_log (LogProjectLoaded filepath) st1.
Proof.
  intros Ep Hm Hb Hu Hd. unfold run_callback, open_project. rewrite Ep.
  unfold app_try, app_bind, app_lift. rewrite Hm, Hb, Hu, Hd. reflexivity.
Qed.

Lemma open_project_missing (filepath content : string) (st0 : app_state) :
  String.eqb filepath "" = false ->
  re_search tool_data_rx content = None ->
  run_callback (open_project filepath (FileText content)) st0 = add_log LogNoToolData st0.
Proof.
  intros Ep Hm. unfold run_callback, open_project. rewrite Ep.
  unfold app_try, app_bind, app_lift. rewrite Hm. reflexivity.
Qed.

(** Claim C1 (corrected).  Round trip through the project file: for a
    session satisfying [project_wf] (distinct module keys, each module
    object stored under its own name, each instance's module name a key of
    the module map, macros, connections and overrides with distinct keys)
    whose generated module text does not contain the marker
    ["// VERILOG_TOOL_DATA: "], saving the project and opening the saved
    text, in any session, gives back a Registry equal to the original one:
    the same modules under the same names with the same filepath, ports,
    parameters and macros, and the same instances in the same order with
    the same module name, instance name, connections and overrides. *)
Theorem save_open_roundtrip (st st' st0 : app_state) (reg : registry)
  (filepath text : string) :
  project_wf st = true ->
  registry_view st = Some reg ->
  (forall insts, view_instances st = Some insts ->
     str_contains tool_data_marker (generate_top_module insts (top_name_of filepath)) = false) ->
  save_project filepath st = Some (Some text, st') ->
  registry_view (run_callback (open_project filepath (FileText text)) st0) = Some reg.
Proof.
  intros Hwf Hreg Hcode Hsave.
  destruct (wf_pairs st reg Hwf Hreg) as [[PM [HM FM]] [PI [HI FI]]].
  assert (W1 : keys_distinct (st_modules st) = true).
  { unfold project_wf in Hwf. now repeat (apply andb_prop in Hwf as [Hwf ?]). }
  pose proof (serialize_data_pairs st PM PI W1 HM FM HI FI) as Hser.
  pose proof (serialized_plain st PM PI W1 HM FM FI) as Hplain.
  set (data := PDict [(S_ "modules", PDict (map (fun p => module_item (snd p)) PM));
                      (S_ "instances", PList (map (fun p => inst_item (snd p) (fst p)) PI))])
    in Hser, Hplain.
  pose proof (dumps_ascii data Hplain) as Hascii.
  destruct (payload_roundtrip (json_dumps data) Hascii (dumps_nonempty data Hplain))
    as [enc [He [Hne [Hall Hdec]]]].
  destruct (save_project_text _ _ _ _ Hsave)
    as [insts [data' [enc' [Ep [Hvi [Hser' [He' [-> _]]]]]]]].
  rewrite Hser in Hser'. injection Hser' as <-. rewrite He in He'. injection He' as <-.
  destruct (search_tool_data _ enc (Hcode insts Hvi) Hne Hall) as [m [Hm Hg]].
  set (M1 := loc_entries (length (st_heap st0)) (map snd PM)).
  assert (HfpM : Forall (fun o => exists s, mo_filepath o = PStr s) (map snd PM)).
  { apply Forall_map. eapply Forall_impl; [|exact FM].
    intros p [_ [_ [_ [mm Hv]]]]. eapply view_module_filepath; eauto. }
  assert (HdM : keys_distinct M1 = true).
  { rewrite <- W1. apply keys_distinct_fst. unfold M1. rewrite map_fst_loc_entries, <- HM, !map_map.
    apply map_ext_in. intros p Hin. rewrite Forall_forall in FM.
    destruct (FM _ Hin) as [_ [H2 _]]. exact H2. }
  assert (HlM : Forall (fun p => exists l, pdict_get M1 (mo_name (snd p)) = Some l) PI).
  { eapply Forall_impl; [|exact FI]. intros p [_ [Hl _]].
    eapply pdict_get_same_keys; [|exact Hl].
    unfold M1. rewrite map_fst_loc_entries, <- HM, !map_map.
    apply map_ext_in. intros q Hin. rewrite Forall_forall in FM.
    destruct (FM _ Hin) as [_ [H2 _]]. symmetry. exact H2. }
  destruct (deserialize_saved st0 PM PI Hplain HfpM HdM HlM) as [e Hds].
  fold data M1 in Hds.
  rewrite <- Hg in Hdec.
  rewrite (open_project_found _ _ _ _ _ _ _ Ep Hm Hdec (utf8_decode_ascii _ Hascii) Hds).
  rewrite !registry_view_add_log.
  unfold registry_view in Hreg |- *. cbn [st_heap st_modules st_instances].
  unfold M1. rewrite mods_reloaded with (heap := st_heap st);
    [|exact FM|intro i; apply nth_error_app_shift].
  rewrite HM.
  destruct (option_all _) as [ms|]; [|discriminate].
  rewrite Hvi in Hreg. rename insts into IS. rename Hvi into HIS.
  injection Hreg as <-.
  unfold view_instances in HIS. rewrite <- HI in HIS.
  destruct (insts_reloaded (st_heap st) (st_heap st0 ++ map (fun o => reload_obj (mo_name o) o) (map snd PM))
              (st_modules st) PM PI (length (st_heap st0)) FM
              (fun i => nth_error_app_shift _ _ i) FI HlM IS HIS) as [IS' [H1 H2]].
  unfold view_instances. cbn [st_heap st_instances]. unfold M1 in H1. rewrite H1, H2. reflexivity.
Qed.
(** Counterexample to C1 as stated.  An instance whose name contains the
    marker text (here ["u // VERILOG_TOOL_DATA: e30="], which the Add
    Instance dialog accepts) puts the marker into the generated module
    body.  [open_project] decodes the first match, the payload [{}], and
    ends with an empty Registry instead of the saved one. *)
Lemma roundtrip_fails_marker_in_instance_name :
  project_wf marker_session = true /\
  registry_view marker_session =
    Some (mkRegistry [("counter", counter_module)]
                     [("counter", "u // VERILOG_TOOL_DATA: e30=", [], [])]) /\
  exists text st', save_project "top.v" marker_session = Some (Some text, st') /\
    registry_view (run_callback (open_project "top.v" (FileText text)) empty_state) =
    Some (mkRegistry [] []).
Proof.
  split; [vm_compute; reflexivity|]. split; [vm_compute; reflexivity|].
  eexists; eexists; split; [vm_compute; reflexivity|]. vm_compute. reflexivity.
Qed.

Lemma save_open_roundtrip_witness :
  exists text st', save_project "top.v" wired_session = Some (Some text, st') /\
    registry_view (run_callback (open_project "top.v" (FileText text)) empty_state) =
    Some wired_registry.
Proof.
  eexists; eexists. split; [vm_compute; reflexivity|].
  eapply (save_open_roundtrip wired_session _ empty_state wired_registry "top.v").
  - vm_compute. reflexivity.
  - vm_compute. reflexivity.
  - intros insts H. vm_compute in H. injection H as <-. vm_compute. reflexivity.
  - vm_compute. reflexivity.
Defined.
(** Counterexample to C2 as stated.  The saved text carries the marker
    ["// VERILOG_TOOL_DATA: "], not ["// TOOL_DATA: "], and a file whose
    last line is ["// TOOL_DATA: <base64>"] is reported as having no tool
    data. *)
Lemma spec_marker_not_recognised :
  (exists text st', save_project "top.v" counter_session = Some (Some text, st') /\
     str_contains "// TOOL_DATA: " text = false /\
     str_contains tool_data_marker text = true) /\
  run_callback (open_project "p.v" (FileText spec_marker_text)) counter_session =
  add_log LogNoToolData counter_session.
Proof.
  split; [|vm_compute; reflexivity].
  eexists; eexists; split; [vm_compute; reflexivity|]. split; vm_compute; reflexivity.
Qed.

(** Claim C2 (corrected).  [save_project] writes the generated module
    text, a blank line and then the line
    ["// VERILOG_TOOL_DATA: " ++ enc], where [enc] is a non-empty,
    whitespace-free base64 text that decodes to the JSON text of
    [serialize_data] (which parses back to that data).  When the module
    text does not contain the marker, the search of [open_project] finds
    exactly that payload.  When the search finds no marker at all,
    [open_project] only logs "Error: No tool data found in file" and leaves
    the state unchanged otherwise. *)
Theorem save_payload_line_and_missing_marker (st st' : app_state) (reg : registry)
  (filepath text : string) :
  project_wf st = true -> registry_view st = Some reg ->
  save_project filepath st = Some (Some text, st') ->
  (exists insts data enc,
     view_instances st = Some insts /\ serialize_data st = Some data /\
     text = (generate_top_module insts (top_name_of filepath) ++ nl ++ nl ++ tool_data_marker ++ enc) /\
     enc <> "" /\ all_chars (fun c => negb (is_space c)) enc = true /\
     b64decode (S_ enc) = Ok (json_dumps data) /\
     json_loads (json_dumps data) = Ok (detuple data) /\
     (str_contains tool_data_marker (generate_top_module insts (top_name_of filepath)) = false ->
      exists m, re_search tool_data_rx text = Some m /\ group_str m 1 = enc)) /\
  (forall content st0, re_search tool_data_rx content = None ->
     run_callback (open_project filepath (FileText content)) st0 = add_log LogNoToolData st0).
Proof.
  intros Hwf Hreg Hsave.
  destruct (wf_pairs st reg Hwf Hreg) as [[PM [HM FM]] [PI [HI FI]]].
  assert (W1 : keys_distinct (st_modules st) = true).
  { unfold project_wf in Hwf. now repeat (apply andb_prop in Hwf as [Hwf ?]). }
  pose proof (serialize_data_pairs st PM PI W1 HM FM HI FI) as Hser.
  pose proof (serialized_plain st PM PI W1 HM FM FI) as Hplain.
  set (data := PDict [(S_ "modules", PDict (map (fun p => module_item (snd p)) PM));
                      (S_ "instances", PList (map (fun p => inst_item (snd p) (fst p)) PI))])
    in Hser, Hplain.
  pose proof (dumps_ascii data Hplain) as Hascii.
  destruct (payload_roundtrip (json_dumps data) Hascii (dumps_nonempty data Hplain))
    as [enc [He [Hne [Hall Hdec]]]].
  destruct (save_project_text _ _ _ _ Hsave)
    as [insts [data' [enc' [Ep [Hvi [Hser' [He' [-> _]]]]]]]].
  rewrite Hser in Hser'. injection Hser' as <-. rewrite He in He'. injection He' as <-.
  split.
  - exists insts, data, enc.
    refine (conj Hvi (conj Hser (conj eq_refl (conj Hne (conj Hall (conj Hdec (conj _ _))))))).
    + apply json_loads_dumps, Hplain.
    + intro Hc. exact (search_tool_data _ enc Hc Hne Hall).
  - intros content st0 Hm. exact (open_project_missing _ _ st0 Ep Hm).
Qed.

Lemma save_payload_line_and_missing_marker_witness :
  (exists text st', save_project "top.v" counter_session = Some (Some text, st') /\
   forall content st0, re_search tool_data_rx content = None ->
     run_callback (open_project "top.v" (FileText content)) st0 = add_log LogNoToolData st0).
Proof.
  destruct (save_project "top.v" counter_session) as [[[text|] st']|] eqn:E;
    try (vm_compute in E; discriminate E).
  exists text, st'. split; [reflexivity|].
  refine (proj2 (save_payload_line_and_missing_marker counter_session st' counter_registry
                   "top.v" text _ _ E)); vm_compute; reflexivity.
Defined.

(** Claim C10 (confirmed).  [generate_top_module] only reads the
    attributes of the instances and of their modules and builds local
    lists and a local dict ([lines], [top_ports], [wires], [param_strs],
    [port_strs]); it is embedded above as a pure function of the instance
    values.  Its one caller, [save_project], therefore leaves the heap of
    module objects, the module map and the instance list exactly as they
    were, so every instance's connections and overrides and every module's
    name, ports, parameters and macros read the same after the call; only
    a log line is added. *)
Theorem save_project_preserves_registry (filepath : string) (st st' : app_state)
  (r : option string) :
  save_project filepath st = Some (r, st') ->
  st_heap st' = st_heap st /\ st_modules st' = st_modules st /\
  st_instances st' = st_instances st /\ registry_view st' = registry_view st /\
  view_instances st' = view_instances st.
Proof.
  unfold save_project. intros H.
  destruct (String.eqb filepath "").
  - injection H as _ <-. repeat split.
  - destruct (view_instances st) as [insts|] eqn:Hvi; [|discriminate].
    destruct (serialize_data st) as [data|]; [|discriminate].
    destruct (encode_payload (json_dumps data)) as [enc|e]; [|discriminate].
    injection H as _ <-. rewrite registry_view_add_log.
    destruct st as [h ms is lg]. repeat split; try reflexivity. rewrite <- Hvi. reflexivity.
Qed.

Lemma save_project_preserves_registry_witness :
  exists text st', save_project "top.v" counter_session = Some (Some text, st') /\
    st_heap st' = st_heap counter_session /\ st_modules st' = st_modules counter_session /\
    st_instances st' = st_instances counter_session /\
    registry_view st' = registry_view counter_session /\
    view_instances st' = view_instances counter_session.
Proof.
  destruct (save_project "top.v" counter_session) as [[[text|] st']|] eqn:E;
    try (vm_compute in E; discriminate E).
  exists text, st'. split; [reflexivity|].
  exact (save_project_preserves_registry "top.v" counter_session st' (Some text) E).
Defined.
(* ================================================================== *)
(** ** The module list, the instance list and the port tree *)

Lemma append_assoc_str (a b c : string) : ((a ++ b) ++ c) = (a ++ (b ++ c)).
Proof. induction a as [|x a IH]; simpl; [reflexivity|]. rewrite IH. reflexivity. Qed.

Lemma append_empty_str (a : string) : (a ++ "") = a.
Proof. induction a as [|x a IH]; simpl; [reflexivity|]. rewrite IH. reflexivity. Qed.

Lemma split_ws_word (w s cur : string) :
  all_chars (fun c => negb (is_space c)) w = true ->
  split_ws (w ++ s) cur = split_ws s (cur ++ w).
Proof.
  revert cur. induction w as [|c w IH]; intros cur H; simpl.
  - rewrite append_empty_str. reflexivity.
  - simpl in H. apply andb_prop in H as [Hc Hw].
    destruct (is_space c); [discriminate|]. rewrite IH by exact Hw.
    rewrite append_assoc_str. reflexivity.
Qed.

Lemma split_word_first (w r : string) :
  w <> "" -> all_chars (fun c => negb (is_space c)) w = true ->
  py_split (w ++ String " " r) = w :: py_split r.
Proof.
  intros Hne Hw. unfold py_split. rewrite split_ws_word by exact Hw.
  simpl. replace (String.eqb w "") with false; [reflexivity|].
  symmetry. apply String.eqb_neq. exact Hne.
Qed.

Lemma chr_code (c : ascii) : chr (code c) = c.
Proof.
  unfold chr, code. rewrite Nat2Z.id. apply ascii_nat_embedding.
Qed.

Lemma code_chr (c : Z) : 0 <= c < 256 -> code (chr c) = c.
Proof.
  intro H. unfold chr, code. rewrite nat_ascii_embedding by lia. lia.
Qed.

Lemma to_string_S_ (s : string) : to_string (S_ s) = Some s.
Proof.
  unfold to_string, S_, of_string.
  replace (forallb _ _) with true.
  - rewrite map_map. f_equal.
    rewrite (map_ext (fun x => chr (code x)) (fun x => x)) by apply chr_code.
    rewrite map_id. apply string_of_list_ascii_of_string.
  - symmetry. apply forallb_forall. intros z Hz. apply in_map_iff in Hz as [c [<- _]].
    unfold code. pose proof (nat_ascii_bounded c). apply andb_true_intro; split; lia.
Qed.

Lemma to_string_inv (p : pystr) (s : string) : to_string p = Some s -> p = S_ s.
Proof.
  unfold to_string. destruct (forallb _ p) eqn:E; [|discriminate].
  intro H. injection H as <-. unfold S_, of_string.
  rewrite list_ascii_of_string_of_list_ascii, map_map.
  rewrite forallb_forall in E.
  rewrite <- (map_id p) at 1. apply map_ext_in. intros c Hc.
  specialize (E c Hc). apply andb_prop in E as [E1 E2].
  symmetry. apply code_chr. lia.
Qed.

Lemma S_inj (a b : string) : S_ a = S_ b -> a = b.
Proof.
  intro H. pose proof (to_string_S_ a) as Ha. rewrite H, to_string_S_ in Ha. congruence.
Qed.

Lemma pystr_eqb_S (a b : string) : pystr_eqb (S_ a) (S_ b) = String.eqb a b.
Proof.
  destruct (String.eqb_spec a b) as [<-|Hn]; [apply pystr_eqb_refl|].
  apply not_true_is_false. intro H. apply pystr_eqb_eq, S_inj in H. contradiction.
Qed.

Lemma view_keys_cons {A} (f : pyval -> option A) (k : pystr) (v : pyval)
  (r : list (pystr * pyval)) :
  view_keys f ((k, v) :: r) =
  match (match to_string k, f v with Some k', Some v' => Some (k', v') | _, _ => None end) with
  | Some x => match view_keys f r with Some l => Some (x :: l) | None => None end
  | None => None
  end.
Proof. reflexivity. Qed.

Lemma view_keys_set {A} (f : pyval -> option A) (kvs : list (pystr * pyval))
  (l : list (string * A)) (k : string) (v : pyval) (x : A) :
  view_keys f kvs = Some l -> f v = Some x ->
  view_keys f (pdict_set kvs (S_ k) v) = Some (dict_set l k x).
Proof.
  revert l. induction kvs as [|[k' v'] r IH]; intros l Hl Hv.
  - injection Hl as <-. simpl. rewrite view_keys_cons, to_string_S_, Hv. reflexivity.
  - rewrite view_keys_cons in Hl.
    destruct (to_string k') as [k''|] eqn:Ek; [|discriminate].
    destruct (f v') as [y|] eqn:Ey; [|discriminate].
    destruct (view_keys f r) as [l'|] eqn:Er; [|discriminate].
    injection Hl as <-. apply to_string_inv in Ek. subst k'.
    simpl. rewrite pystr_eqb_S. destruct (String.eqb k k'') eqn:Ekk.
    + rewrite view_keys_cons, to_string_S_, Hv, Er. reflexivity.
    + rewrite view_keys_cons, to_string_S_, Ey, (IH l' eq_refl Hv). reflexivity.
Qed.

Lemma view_keys_get {A} (f : pyval -> option A) (kvs : list (pystr * pyval))
  (l : list (string * A)) (k : string) :
  view_keys f kvs = Some l ->
  match pdict_get kvs (S_ k), dict_get l k with
  | Some v, Some x => f v = Some x
  | None, None => True
  | _, _ => False
  end.
Proof.
  revert l. induction kvs as [|[k' v'] r IH]; intros l Hl.
  - injection Hl as <-. exact I.
  - rewrite view_keys_cons in Hl.
    destruct (to_string k') as [k''|] eqn:Ek; [|discriminate].
    destruct (f v') as [y|] eqn:Ey; [|discriminate].
    destruct (view_keys f r) as [l'|] eqn:Er; [|discriminate].
    injection Hl as <-. apply to_string_inv in Ek. subst k'.
    simpl. rewrite pystr_eqb_S. destruct (String.eqb k k''); [exact Ey|].
    apply IH. reflexivity.
Qed.

Lemma view_conn_index (v : pyval) (a b : string) :
  view_conn v = Some (a, b) ->
  py_index v 0 = Ok (PStr (S_ a)) /\ py_index v 1 = Ok (PStr (S_ b)).
Proof.
  intro H. unfold view_conn in H.
  destruct v as [| | | | |xs|xs|]; try discriminate;
    destruct xs as [|ka [|sb [|? ?]]]; try discriminate;
    destruct (view_str ka) as [a'|] eqn:Ea; try discriminate;
    destruct (view_str sb) as [b'|] eqn:Eb; try discriminate;
    injection H as <- <-;
    destruct ka; try discriminate; destruct sb; try discriminate;
    simpl in Ea, Eb; apply to_string_inv in Ea; apply to_string_inv in Eb; subst;
    split; reflexivity.
Qed.

Lemma view_instance_inv (heap : list module_obj) (i : inst_obj) (inst : instance) :
  view_instance heap i = Some inst ->
  exists o, nth_error heap (io_module_ref i) = Some o /\
    view_module o = Some (inst_module inst) /\
    view_str (io_instance_name i) = Some (inst_name inst) /\
    view_dict view_conn (io_connections i) = Some (inst_connections inst) /\
    view_dict view_str (io_parameter_values i) = Some (inst_parameter_values inst).
Proof.
  unfold view_instance. destruct (nth_error heap (io_module_ref i)) as [o|]; [|discriminate].
  destruct (view_module o) eqn:E1; [|discriminate].
  destruct (view_str (io_instance_name i)) eqn:E2; [|discriminate].
  destruct (view_dict view_conn (io_connections i)) eqn:E3; [|discriminate].
  destruct (view_dict view_str (io_parameter_values i)) eqn:E4; [|discriminate].
  intro H. injection H as <-. exists o. repeat split; assumption.
Qed.

Lemma view_instance_mk (heap : list module_obj) (r : nat) (n c pv : pyval) (o : module_obj)
  (m : vmodule) (n' : string) (cs : list (string * (string * string)))
  (pvs : list (string * string)) :
  nth_error heap r = Some o -> view_module o = Some m -> view_str n = Some n' ->
  view_dict view_conn c = Some cs -> view_dict view_str pv = Some pvs ->
  view_instance heap (mkInstObj r n c pv) = Some (mkInstance m n' cs pvs).
Proof.
  intros H1 H2 H3 H4 H5. unfold view_instance. simpl. rewrite H1, H2, H3, H4, H5. reflexivity.
Qed.

Lemma update_nth_at {A} (f : A -> A) (n : nat) (l : list A) (x : A) :
  nth_error l n = Some x -> update_nth f n l = update_nth (fun _ => f x) n l.
Proof.
  revert n. induction l as [|y l IH]; intros [|n] H; simpl in *; try discriminate.
  - injection H as ->. reflexivity.
  - rewrite (IH n H). reflexivity.
Qed.

Lemma nth_error_update_nth_same {A} (f : A -> A) (n : nat) (l : list A) (x : A) :
  nth_error l n = Some x -> nth_error (update_nth f n l) n = Some (f x).
Proof.
  revert n. induction l as [|y l IH]; intros [|n] H; simpl in *; try discriminate.
  - injection H as ->. reflexivity.
  - exact (IH n H).
Qed.

Lemma update_nth_twice {A} (f g : A -> A) (n : nat) (l : list A) :
  update_nth g n (update_nth f n l) = update_nth (fun x => g (f x)) n l.
Proof.
  revert n. induction l as [|y l IH]; intros [|n]; simpl; try reflexivity.
  rewrite IH. reflexivity.
Qed.

Lemma pdict_get_set_same {V} (kvs : list (pystr * V)) (k : pystr) (v : V) :
  pdict_get (pdict_set kvs k v) k = Some v.
Proof.
  induction kvs as [|[k' v'] r IH]; simpl.
  - rewrite pystr_eqb_refl. reflexivity.
  - destruct (pystr_eqb k k') eqn:E; simpl; rewrite E; [reflexivity|exact IH].
Qed.

Lemma pdict_set_set {V} (kvs : list (pystr * V)) (k : pystr) (v1 v2 : V) :
  pdict_set (pdict_set kvs k v1) k v2 = pdict_set kvs k v2.
Proof.
  induction kvs as [|[k' v'] r IH]; simpl.
  - rewrite pystr_eqb_refl. reflexivity.
  - destruct (pystr_eqb k k') eqn:E; simpl; rewrite E; [reflexivity|rewrite IH; reflexivity].
Qed.

Lemma dict_get_set_same {V} (l : list (string * V)) (k : string) (v : V) :
  dict_get (dict_set l k v) k = Some v.
Proof.
  induction l as [|[k' v'] r IH]; simpl.
  - rewrite String.eqb_refl. reflexivity.
  - destruct (String.eqb k k') eqn:E; simpl; rewrite E; [reflexivity|exact IH].
Qed.

Lemma port_row_split (inst : instance) (p : port) :
  port_name p <> "" -> all_chars (fun c => negb (is_space c)) (port_name p) = true ->
  list_index (py_split (fst (fst (port_row inst p)))) 0 = Ok (port_name p).
Proof.
  intros Hne Hw.
  assert (E : fst (fst (port_row inst p)) =
              (port_name p ++ String " " ("(" ++ port_direction p ++ " " ++ port_dtype p ++ " "
                 ++ port_width p ++ ")"))).
  { unfold port_row.
    destruct (dict_get (inst_connections inst) (port_name p)) as [[a b]|]; reflexivity. }
  rewrite E, split_word_first by assumption. reflexivity.
Qed.

Lemma param_row_split (inst : instance) (q : parameter) :
  param_name q <> "" -> all_chars (fun c => negb (is_space c)) (param_name q) = true ->
  list_index (py_split (fst (fst (param_row inst q)))) 1 = Ok (param_name q).
Proof.
  intros Hne Hw.
  assert (E : fst (fst (param_row inst q)) =
    ("parameter" ++ String " " (param_name q ++ String " " ("(" ++
       match param_type q with
       | Some t => if String.eqb t "" then "value" else t
       | None => "value"
       end ++ ")")))) by reflexivity.
  rewrite E, split_word_first by (discriminate || reflexivity).
  rewrite split_word_first by assumption. reflexivity.
Qed.

(** The run of each cell editor when its steps succeed. *)
Lemma conn_select_run (st : app_state) (cur : nat) (prop k pname : string) (i : inst_obj)
  (kvs : list (pystr * pyval)) (sig : pyval) :
  list_index (py_split prop) 0 = Ok pname ->
  nth_error (st_instances st) cur = Some i -> io_connections i = PDict kvs ->
  py_index (match pdict_get kvs (S_ pname) with
            | Some v => v | None => PTuple [PStr []; PStr []] end) 1 = Ok sig ->
  run_callback (on_connection_select cur prop k) st =
  set_instances (update_nth (fun _ => mkInstObj (io_module_ref i) (io_instance_name i)
      (PDict (pdict_set kvs (S_ pname) (PTuple [PStr (S_ k); sig]))) (io_parameter_values i))
    cur (st_instances st)) st.
Proof.
  intros H1 H2 H3 H4. unfold run_callback, on_connection_select, app_bind, app_lift, app_get.
  rewrite H1. unfold current_instance. rewrite H2. unfold py_dict_get. rewrite H3, H4.
  unfold py_setitem, set_connections, app_modify. cbn [snd].
  rewrite (update_nth_at _ _ _ _ H2). reflexivity.
Qed.

Lemma name_enter_run (st : app_state) (cur : nat) (prop s pname : string) (i : inst_obj)
  (kvs : list (pystr * pyval)) (typ : pyval) :
  list_index (py_split prop) 0 = Ok pname ->
  nth_error (st_instances st) cur = Some i -> io_connections i = PDict kvs ->
  py_index (match pdict_get kvs (S_ pname) with
            | Some v => v | None => PTuple [PStr []; PStr []] end) 0 = Ok typ ->
  run_callback (on_name_enter cur prop s) st =
  set_instances (update_nth (fun _ => mkInstObj (io_module_ref i) (io_instance_name i)
      (PDict (pdict_set kvs (S_ pname) (PTuple [typ; PStr (S_ s)]))) (io_parameter_values i))
    cur (st_instances st)) st.
Proof.
  intros H1 H2 H3 H4. unfold run_callback, on_name_enter, app_bind, app_lift, app_get.
  rewrite H1. unfold current_instance. rewrite H2. unfold py_dict_get. rewrite H3, H4.
  unfold py_setitem, set_connections, app_modify. cbn [snd].
  rewrite (update_nth_at _ _ _ _ H2). reflexivity.
Qed.

Lemma param_enter_run (st : app_state) (cur : nat) (prop v pname : string) (i : inst_obj)
  (kvs : list (pystr * pyval)) :
  list_index (py_split prop) 1 = Ok pname ->
  nth_error (st_instances st) cur = Some i -> io_parameter_values i = PDict kvs ->
  run_callback (on_param_enter cur prop v) st =
  set_instances (update_nth (fun _ => mkInstObj (io_module_ref i) (io_instance_name i)
      (io_connections i) (PDict (pdict_set kvs (S_ pname) (PStr (S_ v)))))
    cur (st_instances st)) st.
Proof.
  intros H1 H2 H3. unfold run_callback, on_param_enter, app_bind, app_lift, app_get.
  rewrite H1. unfold current_instance. rewrite H2. rewrite H3.
  unfold py_setitem, set_parameter_values, app_modify. cbn [snd].
  rewrite (update_nth_at _ _ _ _ H2). reflexivity.
Qed.
Lemma set_instances_twice (l l' : list inst_obj) (st : app_state) :
  set_instances l (set_instances l' st) = set_instances l st.
Proof. destruct st; reflexivity. Qed.

(** The connection entry of a port as the editors read it: the shown pair,
    or [("", "")] when the port has no entry. *)
Lemma conn_entry_index (kvs : list (pystr * pyval)) (conns : list (string * (string * string)))
  (pn : string) :
  view_keys view_conn kvs = Some conns ->
  let c := match dict_get conns pn with Some c => c | None => ("", "") end in
  let e := match pdict_get kvs (S_ pn) with Some v => v | None => PTuple [PStr []; PStr []] end in
  py_index e 0 = Ok (PStr (S_ (fst c))) /\ py_index e 1 = Ok (PStr (S_ (snd c))).
Proof.
  intro H. pose proof (view_keys_get view_conn kvs conns pn H) as G. cbv zeta.
  destruct (pdict_get kvs (S_ pn)) as [v|]; destruct (dict_get conns pn) as [[a b]|];
    try contradiction.
  - exact (view_conn_index v a b G).
  - split; reflexivity.
Qed.

Lemma port_row_conn (inst : instance) (p : port) :
  snd (fst (port_row inst p)) =
    fst (match dict_get (inst_connections inst) (port_name p) with Some c => c | None => ("", "") end) /\
  snd (port_row inst p) =
    snd (match dict_get (inst_connections inst) (port_name p) with Some c => c | None => ("", "") end).
Proof.
  unfold port_row. destruct (dict_get (inst_connections inst) (port_name p)) as [[a b]|];
    split; reflexivity.
Qed.

Lemma view_conn_pair (a b : string) :
  view_conn (PTuple [PStr (S_ a); PStr (S_ b)]) = Some (a, b).
Proof. unfold view_conn, view_str. rewrite !to_string_S_. reflexivity. Qed.

(** The objects of a typed instance, with its connections a dict. *)
Lemma inst_conns_dict (heap : list module_obj) (i : inst_obj) (inst : instance) :
  view_instance heap i = Some inst ->
  exists o kvs, nth_error heap (io_module_ref i) = Some o /\
    view_module o = Some (inst_module inst) /\
    view_str (io_instance_name i) = Some (inst_name inst) /\
    io_connections i = PDict kvs /\
    view_keys view_conn kvs = Some (inst_connections inst) /\
    view_dict view_str (io_parameter_values i) = Some (inst_parameter_values inst).
Proof.
  intro H. destruct (view_instance_inv _ _ _ H) as [o [H1 [H2 [H3 [H4 H5]]]]].
  destruct (io_connections i) as [| | | | | | |kvs] eqn:E; try discriminate H4.
  exists o, kvs. repeat split; assumption.
Qed.

Lemma inst_pvals_dict (heap : list module_obj) (i : inst_obj) (inst : instance) :
  view_instance heap i = Some inst ->
  exists kvs, io_parameter_values i = PDict kvs /\
    view_keys view_str kvs = Some (inst_parameter_values inst).
Proof.
  intro H. destruct (view_instance_inv _ _ _ H) as [o [H1 [H2 [H3 [H4 H5]]]]].
  destruct (io_parameter_values i) as [| | | | | | |kvs] eqn:E; try discriminate H5.
  exists kvs. split; [reflexivity|exact H5].
Qed.

(** Extra: the module-list entry [str(module)] of a module whose name is
    non-empty and has no whitespace (as every name the parser extracts,
    [\w+]) gives back that name through [entry.split()[0]], the name the
    module-list callbacks look up in [self.modules]. *)
Theorem module_entry_selects_name (m : vmodule) :
  mod_name m <> "" -> all_chars (fun c => negb (is_space c)) (mod_name m) = true ->
  selected_module_name (module_str m) = Ok (mod_name m).
Proof.
  intros Hne Hw. unfold selected_module_name, module_str.
  change (" (" ++ ?x) with (String " " ("(" ++ x)).
  rewrite split_word_first by assumption. reflexivity.
Qed.

Lemma module_entry_selects_name_witness :
  selected_module_name (module_str counter_module) = Ok "counter".
Proof.
  apply (module_entry_selects_name counter_module); [discriminate|reflexivity].
Defined.

(** Extra: choosing a connection kind [k] in the connection column of the
    row of a port (whose name is non-empty and has no whitespace) of the
    current instance changes only that instance: in its typed view the
    port's connection becomes [k] with the signal name shown in the row
    ([""] when the port had no connection); the other connections, the
    name, the overrides and the module are unchanged. *)
Theorem on_connection_select_sets_kind (st : app_state) (cur : nat) (i : inst_obj)
  (inst : instance) (p : port) (k : string) :
  nth_error (st_instances st) cur = Some i ->
  view_instance (st_heap st) i = Some inst ->
  port_name p <> "" -> all_chars (fun c => negb (is_space c)) (port_name p) = true ->
  exists i',
    run_callback (on_connection_select cur (fst (fst (port_row inst p))) k) st =
      set_instances (update_nth (fun _ => i') cur (st_instances st)) st /\
    view_instance (st_heap st) i' =
      Some (mkInstance (inst_module inst) (inst_name inst)
              (dict_set (inst_connections inst) (port_name p) (k, snd (port_row inst p)))
              (inst_parameter_values inst)).
Proof.
  intros Hi Hv Hne Hw.
  destruct (inst_conns_dict _ _ _ Hv) as [o [kvs [H1 [H2 [H3 [H4 [H5 H6]]]]]]].
  destruct (conn_entry_index kvs _ (port_name p) H5) as [_ E1].
  destruct (port_row_conn inst p) as [_ R2]. rewrite <- R2 in E1.
  eexists. split.
  - exact (conn_select_run st cur _ k (port_name p) i kvs _ (port_row_split inst p Hne Hw) Hi H4 E1).
  - apply (view_instance_mk _ _ _ _ _ o); try assumption.
    apply view_keys_set; [exact H5|apply view_conn_pair].
Qed.

Lemma on_connection_select_sets_kind_witness :
  exists i',
    run_callback (on_connection_select 0 (fst (fst (port_row u_counter_view
                    (mkPort "clk" "input" "wire" "1" [])))) "input") counter_session =
      set_instances (update_nth (fun _ => i') 0 (st_instances counter_session)) counter_session /\
    view_instance (st_heap counter_session) i' =
      Some (mkInstance counter_module "u_counter" [("clk", ("input", ""))] []).
Proof.
  apply (on_connection_select_sets_kind counter_session 0 u_counter_obj u_counter_view
           (mkPort "clk" "input" "wire" "1" []) "input");
    [vm_compute; reflexivity|vm_compute; reflexivity|discriminate|reflexivity].
Defined.

(** Extra: the two editors of a port row commute.  Choosing the kind [k]
    and entering the signal name [s] for the row of a port (name non-empty,
    without whitespace) of the current instance give the same state in
    either order, and in it the port's connection is [(k, s)], every other
    part of the instance being unchanged. *)
Theorem connection_edits_commute (st : app_state) (cur : nat) (i : inst_obj)
  (inst : instance) (p : port) (k s : string) :
  nth_error (st_instances st) cur = Some i ->
  view_instance (st_heap st) i = Some inst ->
  port_name p <> "" -> all_chars (fun c => negb (is_space c)) (port_name p) = true ->
  run_callback (on_name_enter cur (fst (fst (port_row inst p))) s)
    (run_callback (on_connection_select cur (fst (fst (port_row inst p))) k) st) =
  run_callback (on_connection_select cur (fst (fst (port_row inst p))) k)
    (run_callback (on_name_enter cur (fst (fst (port_row inst p))) s) st) /\
  exists i',
    run_callback (on_name_enter cur (fst (fst (port_row inst p))) s)
      (run_callback (on_connection_select cur (fst (fst (port_row inst p))) k) st) =
      set_instances (update_nth (fun _ => i') cur (st_instances st)) st /\
    view_instance (st_heap st) i' =
      Some (mkInstance (inst_module inst) (inst_name inst)
              (dict_set (inst_connections inst) (port_name p) (k, s))
              (inst_parameter_values inst)).
Proof.
  intros Hi Hv Hne Hw.
  destruct (inst_conns_dict _ _ _ Hv) as [o [kvs [H1 [H2 [H3 [H4 [H5 H6]]]]]]].
  destruct (conn_entry_index kvs _ (port_name p) H5) as [E0 E1].
  pose proof (port_row_split inst p Hne Hw) as Hs.
  set (row := fst (fst (port_row inst p))) in *.
  set (c := match dict_get (inst_connections inst) (port_name p) with
            | Some c => c | None => ("", "") end) in *.
  set (fin := mkInstObj (io_module_ref i) (io_instance_name i)
                (PDict (pdict_set kvs (S_ (port_name p)) (PTuple [PStr (S_ k); PStr (S_ s)])))
                (io_parameter_values i)).
  assert (A : run_callback (on_name_enter cur row s)
                (run_callback (on_connection_select cur row k) st) =
              set_instances (update_nth (fun _ => fin) cur (st_instances st)) st).
  { rewrite (conn_select_run st cur row k (port_name p) i kvs _ Hs Hi H4 E1).
    set (i1 := mkInstObj _ _ _ _).
    assert (Hn : nth_error (st_instances (set_instances (update_nth (fun _ => i1) cur
                   (st_instances st)) st)) cur = Some i1)
      by exact (nth_error_update_nth_same (fun _ => i1) cur (st_instances st) i Hi).
    rewrite (name_enter_run _ cur row s (port_name p) i1 _ (PStr (S_ k)) Hs Hn eq_refl).
    - rewrite set_instances_twice. cbn [st_instances set_instances].
      rewrite update_nth_twice. unfold fin, i1. cbn [io_module_ref io_instance_name io_parameter_values].
      rewrite pdict_set_set. reflexivity.
    - rewrite pdict_get_set_same. reflexivity. }
  assert (B : run_callback (on_connection_select cur row k)
                (run_callback (on_name_enter cur row s) st) =
              set_instances (update_nth (fun _ => fin) cur (st_instances st)) st).
  { rewrite (name_enter_run st cur row s (port_name p) i kvs _ Hs Hi H4 E0).
    set (i1 := mkInstObj _ _ _ _).
    assert (Hn : nth_error (st_instances (set_instances (update_nth (fun _ => i1) cur
                   (st_instances st)) st)) cur = Some i1)
      by exact (nth_error_update_nth_same (fun _ => i1) cur (st_instances st) i Hi).
    rewrite (conn_select_run _ cur row k (port_name p) i1 _ (PStr (S_ s)) Hs Hn eq_refl).
    - rewrite set_instances_twice. cbn [st_instances set_instances].
      rewrite update_nth_twice. unfold fin, i1. cbn [io_module_ref io_instance_name io_parameter_values].
      rewrite pdict_set_set. reflexivity.
    - rewrite pdict_get_set_same. reflexivity. }
  split; [rewrite A, B; reflexivity|].
  exists fin. split; [exact A|].
  apply (view_instance_mk _ _ _ _ _ o); try assumption.
  apply view_keys_set; [exact H5|apply view_conn_pair].
Qed.

Lemma connection_edits_commute_witness :
  run_callback (on_name_enter 0 "clk (input wire 1)" "sysclk")
    (run_callback (on_connection_select 0 "clk (input wire 1)" "input") counter_session) =
  run_callback (on_connection_select 0 "clk (input wire 1)" "input")
    (run_callback (on_name_enter 0 "clk (input wire 1)" "sysclk") counter_session) /\
  exists i',
    run_callback (on_name_enter 0 "clk (input wire 1)" "sysclk")
      (run_callback (on_connection_select 0 "clk (input wire 1)" "input") counter_session) =
      set_instances (update_nth (fun _ => i') 0 (st_instances counter_session)) counter_session /\
    view_instance (st_heap counter_session) i' =
      Some (mkInstance counter_module "u_counter" [("clk", ("input", "sysclk"))] []).
Proof.
  exact (connection_edits_commute counter_session 0 u_counter_obj u_counter_view
           (mkPort "clk" "input" "wire" "1" []) "input" "sysclk"
           ltac:(vm_compute; reflexivity) ltac:(vm_compute; reflexivity)
           ltac:(discriminate) ltac:(reflexivity)).
Defined.

(** Extra: entering a value [v] in the value column of the row of a
    parameter (name non-empty, without whitespace) of the current instance
    sets the instance's override of that parameter to [v], leaving its
    other overrides, connections, name and module unchanged; the row of the
    parameter, shown again, carries [v]. *)
Theorem on_param_enter_sets_override (st : app_state) (cur : nat) (i : inst_obj)
  (inst : instance) (q : parameter) (v : string) :
  nth_error (st_instances st) cur = Some i ->
  view_instance (st_heap st) i = Some inst ->
  param_name q <> "" -> all_chars (fun c => negb (is_space c)) (param_name q) = true ->
  exists i',
    run_callback (on_param_enter cur (fst (fst (param_row inst q))) v) st =
      set_instances (update_nth (fun _ => i') cur (st_instances st)) st /\
    view_instance (st_heap st) i' =
      Some (mkInstance (inst_module inst) (inst_name inst) (inst_connections inst)
              (dict_set (inst_parameter_values inst) (param_name q) v)) /\
    snd (fst (param_row (mkInstance (inst_module inst) (inst_name inst) (inst_connections inst)
                           (dict_set (inst_parameter_values inst) (param_name q) v)) q)) = v.
Proof.
  intros Hi Hv Hne Hw.
  destruct (view_instance_inv _ _ _ Hv) as [o [H1 [H2 [H3 [H4 H5]]]]].
  destruct (inst_pvals_dict _ _ _ Hv) as [kvs [Hp Hk]].
  eexists. split; [|split].
  - exact (param_enter_run st cur _ v (param_name q) i kvs (param_row_split inst q Hne Hw) Hi Hp).
  - apply (view_instance_mk _ _ _ _ _ o); try assumption.
    apply view_keys_set; [exact Hk|]. unfold view_str. apply to_string_S_.
  - unfold param_row. cbn [inst_parameter_values]. rewrite dict_get_set_same. reflexivity.
Qed.

Lemma on_param_enter_sets_override_witness :
  exists i',
    run_callback (on_param_enter 0 "parameter DEPTH (int)" "32") fifo_session =
      set_instances (update_nth (fun _ => i') 0 (st_instances fifo_session)) fifo_session /\
    view_instance (st_heap fifo_session) i' =
      Some (mkInstance (mkModule "fifo" "fifo.v" [mkPort "clk" "input" "wire" "1" []]
                          [mkParameter "DEPTH" "16" (Some "int")] [])
              "u_fifo" [] [("DEPTH", "32")]) /\
    snd (fst (param_row (mkInstance (mkModule "fifo" "fifo.v" [mkPort "clk" "input" "wire" "1" []]
                          [mkParameter "DEPTH" "16" (Some "int")] [])
              "u_fifo" [] [("DEPTH", "32")]) (mkParameter "DEPTH" "16" (Some "int")))) = "32".
Proof.
  exact (on_param_enter_sets_override fifo_session 0
           (mkInstObj 0 (PStr (S_ "u_fifo")) (PDict []) (PDict []))
           (mkInstance (mkModule "fifo" "fifo.v" [mkPort "clk" "input" "wire" "1" []]
                          [mkParameter "DEPTH" "16" (Some "int")] [])
              "u_fifo" [] [])
           (mkParameter "DEPTH" "16" (Some "int")) "32"
           ltac:(vm_compute; reflexivity) ltac:(vm_compute; reflexivity)
           ltac:(discriminate) ltac:(reflexivity)).
Defined.
Lemma find_instance_none (n : pystr) (l : list inst_obj) :
  existsb (inst_named n) l = false -> find_instance n l = None.
Proof.
  induction l as [|i l IH]; simpl; [reflexivity|].
  intro H. apply orb_false_iff in H as [H1 H2]. rewrite H1, IH by exact H2. reflexivity.
Qed.

Lemma find_instance_at (n : pystr) (pre post : list inst_obj) (i : inst_obj) :
  existsb (inst_named n) pre = false -> inst_named n i = true ->
  find_instance n (pre ++ i :: post) = Some (length pre).
Proof.
  induction pre as [|j pre IH]; simpl; intros H1 H2.
  - rewrite H2. reflexivity.
  - apply orb_false_iff in H1 as [H1 H3]. rewrite H1, IH by assumption. reflexivity.
Qed.

Lemma remove_nth_at {A} (pre post : list A) (x : A) :
  remove_nth (length pre) (pre ++ x :: post) = (pre ++ post)%list.
Proof. induction pre as [|y pre IH]; simpl; [reflexivity|]. rewrite IH. reflexivity. Qed.

Lemma update_nth_at_app {A} (f : A -> A) (pre post : list A) (x : A) :
  update_nth f (length pre) (pre ++ x :: post) = (pre ++ f x :: post)%list.
Proof. induction pre as [|y pre IH]; simpl; [reflexivity|]. rewrite IH. reflexivity. Qed.

(** Extra: [delete_selected_instance] on the entry [n] removes the first
    instance named [n] and nothing else: the instances before and after it
    stay, in order, and the modules are untouched.  When no instance is
    named [n], nothing changes and nothing is printed. *)
Theorem delete_selected_instance_removes_first (n : pystr) (st : app_state) :
  (existsb (inst_named n) (st_instances st) = false ->
     delete_selected_instance n st = (st, [])) /\
  (forall pre i post, st_instances st = (pre ++ i :: post)%list ->
     existsb (inst_named n) pre = false -> inst_named n i = true ->
     delete_selected_instance n st =
       (set_instances (pre ++ post) st, [S_ "Deleted instance: " ++ n]%list)).
Proof.
  split.
  - intro H. unfold delete_selected_instance. rewrite find_instance_none by exact H. reflexivity.
  - intros pre i post E H1 H2. unfold delete_selected_instance.
    rewrite E, find_instance_at by assumption. rewrite remove_nth_at. reflexivity.
Qed.

Lemma delete_selected_instance_removes_first_witness :
  delete_selected_instance (S_ "u_counter") counter_session =
    (set_instances [] counter_session, [S_ "Deleted instance: " ++ S_ "u_counter"]%list).
Proof.
  apply (proj2 (delete_selected_instance_removes_first (S_ "u_counter") counter_session)
           [] u_counter_obj []); vm_compute; reflexivity.
Defined.

(** Extra: [rename_selected_instance] on the entry [old] with the dialog
    answer [ans].  Nothing happens when no instance is named [old], when
    the dialog is cancelled or left empty, or when the answer is [old]
    itself.  Otherwise, for a new name already carried by an instance, an
    error dialog is shown and the instances are unchanged; for a free name
    the first instance named [old] takes the new name, keeping its module,
    connections, overrides and position, and no other instance changes. *)
Theorem rename_selected_instance_cases (old : pystr) (st : app_state) :
  (forall ans, existsb (inst_named old) (st_instances st) = false ->
     rename_selected_instance old ans st = (st, [])) /\
  (forall pre i post, st_instances st = (pre ++ i :: post)%list ->
     existsb (inst_named old) pre = false -> inst_named old i = true ->
     rename_selected_instance old None st = (st, []) /\
     rename_selected_instance old (Some []) st = (st, []) /\
     rename_selected_instance old (Some old) st = (st, []) /\
     forall new, new <> [] -> pystr_eqb new old = false ->
       rename_selected_instance old (Some new) st =
       if existsb (inst_named new) (st_instances st)
       then (add_log (DialogNameExists new) st, [])
       else (set_instances (pre ++ mkInstObj (io_module_ref i) (PStr new) (io_connections i)
                                     (io_parameter_values i) :: post) st,
             [S_ "Renamed instance: " ++ old ++ S_ " -> " ++ new]%list)).
Proof.
  split.
  - intros ans H. unfold rename_selected_instance. rewrite find_instance_none by exact H.
    reflexivity.
  - intros pre i post E H1 H2. unfold rename_selected_instance.
    rewrite E, find_instance_at by assumption. rewrite <- E.
    split; [reflexivity|]. split; [reflexivity|].
    split; [rewrite pystr_eqb_refl; destruct old; reflexivity|].
    intros new Hne Hn. destruct new as [|z new]; [contradiction|].
    rewrite Hn. destruct (existsb (inst_named (z :: new)) (st_instances st)); [reflexivity|].
    rewrite E, update_nth_at_app. reflexivity.
Qed.

Lemma rename_selected_instance_cases_witness :
  rename_selected_instance (S_ "u_counter") (Some (S_ "u0")) counter_session =
    (set_instances [mkInstObj 0 (PStr (S_ "u0")) (PDict []) (PDict [])] counter_session,
     [S_ "Renamed instance: " ++ S_ "u_counter" ++ S_ " -> " ++ S_ "u0"]%list).
Proof.
  refine (proj2 (proj2 (proj2 (proj2 (rename_selected_instance_cases (S_ "u_counter")
            counter_session) [] u_counter_obj [] _ _ _))) (S_ "u0") _ _);
    try (vm_compute; reflexivity); discriminate.
Defined.

Lemma existsb_app_inst (f : inst_obj -> bool) (l l' : list inst_obj) :
  existsb f (l ++ l') = existsb f l || existsb f l'.
Proof. apply existsb_app. Qed.

Lemma inst_named_sym (a b : pystr) (i j : inst_obj) :
  io_instance_name i = PStr a -> io_instance_name j = PStr b ->
  inst_named a j = inst_named b i.
Proof.
  intros Ei Ej. unfold inst_named. rewrite Ei, Ej. apply pystr_eqb_sym.
Qed.

Lemma names_distinct_snoc (l : list inst_obj) (x : inst_obj) (n : pystr) :
  io_instance_name x = PStr n ->
  names_distinct l = true -> existsb (inst_named n) l = false ->
  names_distinct (l ++ [x]) = true.
Proof.
  intro Ex. induction l as [|i l IH]; intros Hd Hf; simpl.
  - rewrite Ex. reflexivity.
  - simpl in Hd, Hf. apply andb_prop in Hd as [Hi Hd]. apply orb_false_iff in Hf as [Hf1 Hf2].
    rewrite IH by assumption. rewrite andb_true_r.
    destruct (io_instance_name i) as [| | | |a| | |] eqn:Ei; try reflexivity.
    rewrite existsb_app_inst. simpl. rewrite (inst_named_sym a n i x Ei Ex), Hf1.
    rewrite orb_false_r. exact Hi.
Qed.

Lemma existsb_remove_nth (f : inst_obj -> bool) (k : nat) (l : list inst_obj) :
  existsb f l = false -> existsb f (remove_nth k l) = false.
Proof.
  revert k. induction l as [|y l IH]; intros [|k] H; simpl in *; try reflexivity.
  - apply orb_false_iff in H as [_ H]. exact H.
  - apply orb_false_iff in H as [H1 H2]. rewrite H1, IH by exact H2. reflexivity.
Qed.

Lemma names_distinct_remove_nth (k : nat) (l : list inst_obj) :
  names_distinct l = true -> names_distinct (remove_nth k l) = true.
Proof.
  revert k. induction l as [|y l IH]; intros [|k] H; simpl in *; try reflexivity.
  - apply andb_prop in H as [_ H]. exact H.
  - apply andb_prop in H as [H1 H2]. rewrite IH by exact H2. rewrite andb_true_r.
    destruct (io_instance_name y); try reflexivity.
    apply negb_true_iff. apply existsb_remove_nth. apply negb_true_iff. exact H1.
Qed.


Lemma existsb_update_rename (a new : pystr) (k : nat) (l : list inst_obj) :
  existsb (inst_named a) l = false -> pystr_eqb new a = false ->
  existsb (inst_named a) (update_nth (rename_obj new) k l) = false.
Proof.
  revert k. induction l as [|y l IH]; intros [|k] H Hn; simpl in *; try reflexivity.
  - apply orb_false_iff in H as [_ H]. unfold inst_named at 1. simpl. rewrite Hn. exact H.
  - apply orb_false_iff in H as [H1 H2]. rewrite H1, IH by assumption. reflexivity.
Qed.

Lemma names_distinct_rename (new : pystr) (k : nat) (l : list inst_obj) :
  names_distinct l = true -> existsb (inst_named new) l = false ->
  names_distinct (update_nth (rename_obj new) k l) = true.
Proof.
  revert k. induction l as [|y l IH]; intros [|k] Hd Hf; simpl in *; try reflexivity.
  - apply andb_prop in Hd as [_ Hd]. apply orb_false_iff in Hf as [_ Hf].
    rewrite Hf, Hd. reflexivity.
  - apply andb_prop in Hd as [H1 Hd]. apply orb_false_iff in Hf as [Hf1 Hf2].
    rewrite IH by assumption. rewrite andb_true_r.
    destruct (io_instance_name y) as [| | | |a| | |] eqn:Ey; try reflexivity.
    apply negb_true_iff. apply existsb_update_rename; [apply negb_true_iff; exact H1|].
    unfold inst_named in Hf1. rewrite Ey in Hf1. rewrite pystr_eqb_sym. exact Hf1.
Qed.

Lemma drop_module_run (module_name : pystr) (answer : option pystr) (st : app_state) :
  run_callback (drop_module module_name answer) st = st \/
  (exists e, run_callback (drop_module module_name answer) st = add_log e st) \/
  exists l n, answer = Some n /\ pdict_get (st_modules st) module_name = Some l /\
    existsb (inst_named n) (st_instances st) = false /\
    run_callback (drop_module module_name answer) st =
      add_log (LogInstantiated module_name n)
        (set_instances (st_instances st ++ [mkInstObj l (PStr n) (PDict []) (PDict [])]) st).
Proof.
  unfold run_callback, drop_module, app_bind, app_get.
  destruct (pdict_get (st_modules st) module_name) as [l|] eqn:El; [|left; reflexivity].
  destruct answer as [[|z n]|]; try (left; reflexivity).
  change (existsb (fun i => match io_instance_name i with
                            | PStr n0 => pystr_eqb n0 (z :: n) | _ => false end) (st_instances st))
    with (existsb (inst_named (z :: n)) (st_instances st)).
  destruct (existsb (inst_named (z :: n)) (st_instances st)) eqn:Ex.
  - right; left. eexists. reflexivity.
  - right; right. exists l, (z :: n). split; [reflexivity|]. split; [reflexivity|].
    split; [exact Ex|]. destruct st; reflexivity.
Qed.

(** Extra: the instance-list operations keep instance names distinct.
    When no two instances carry the same name, this still holds after
    dropping a module on the instance list, after renaming an instance
    (whatever the dialog answer) and after deleting an instance. *)
Theorem instance_names_stay_distinct (st : app_state) :
  names_distinct (st_instances st) = true ->
  (forall module_name answer,
     names_distinct (st_instances (run_callback (drop_module module_name answer) st)) = true) /\
  (forall old answer,
     names_distinct (st_instances (fst (rename_selected_instance old answer st))) = true) /\
  (forall n, names_distinct (st_instances (fst (delete_selected_instance n st))) = true).
Proof.
  intro Hd. split; [|split].
  - intros m a. destruct (drop_module_run m a st) as [E|[[e E]|[l [n [_ [_ [Hf E]]]]]]];
      rewrite E; destruct st; try exact Hd.
    apply (names_distinct_snoc _ _ n); [reflexivity|exact Hd|exact Hf].
  - intros old [[|z new]|]; unfold rename_selected_instance;
      destruct (find_instance old (st_instances st)) as [k|]; try exact Hd.
    destruct (pystr_eqb (z :: new) old); [exact Hd|].
    destruct (existsb (inst_named (z :: new)) (st_instances st)) eqn:Hf;
      [destruct st; exact Hd|].
    apply names_distinct_rename; assumption.
  - intro n. unfold delete_selected_instance.
    destruct (find_instance n (st_instances st)); [|exact Hd].
    apply names_distinct_remove_nth. exact Hd.
Qed.

Lemma instance_names_stay_distinct_witness :
  names_distinct (st_instances (run_callback (drop_module (S_ "counter") (Some (S_ "u_counter")))
                                  counter_session)) = true.
Proof.
  apply (proj1 (instance_names_stay_distinct counter_session ltac:(vm_compute; reflexivity))).
Defined.

Lemma pdict_get_existsb (ms : list (pystr * nat)) (k : pystr) (l : nat) :
  pdict_get ms k = Some l -> existsb (fun kl => Nat.eqb (snd kl) l) ms = true.
Proof.
  induction ms as [|[k' v] r IH]; simpl; [discriminate|].
  destruct (pystr_eqb k k').
  - intros [= ->]. rewrite Nat.eqb_refl. reflexivity.
  - intro H. rewrite (IH H). apply orb_true_r.
Qed.

Lemma pdict_del_existsb (ms : list (pystr * nat)) (k : pystr) (l r : nat) :
  pdict_get ms k = Some l -> r <> l ->
  existsb (fun kl => Nat.eqb (snd kl) r) ms = true ->
  existsb (fun kl => Nat.eqb (snd kl) r) (pdict_del ms k) = true.
Proof.
  induction ms as [|[k' v] rest IH]; simpl; [discriminate|].
  destruct (pystr_eqb k k').
  - intros [= ->] Hne H. apply orb_true_iff in H as [H|H]; [|exact H].
    apply Nat.eqb_eq in H. simpl in H. congruence.
  - intros Hg Hne H. simpl. apply orb_true_iff in H as [H|H].
    + rewrite H. reflexivity.
    + rewrite (IH Hg Hne H). apply orb_true_r.
Qed.

Lemma filter_nil_false {A} (p : A -> bool) (l : list A) :
  filter p l = [] -> forall x, In x l -> p x = false.
Proof.
  induction l as [|a l IH]; simpl; [tauto|].
  destruct (p a) eqn:E; [discriminate|].
  intros H x [<-|Hx]; [exact E|exact (IH H x Hx)].
Qed.

Lemma refs_registered_refs (st : app_state) :
  refs_registered st =
  forallb (fun r => existsb (fun kl => Nat.eqb (snd kl) r) (st_modules st))
    (map io_module_ref (st_instances st)).
Proof.
  unfold refs_registered. induction (st_instances st) as [|i l IH]; simpl; [reflexivity|].
  rewrite IH. reflexivity.
Qed.

Lemma refs_registered_frame (st st' : app_state) :
  st_modules st' = st_modules st ->
  map io_module_ref (st_instances st') = map io_module_ref (st_instances st) ->
  refs_registered st' = refs_registered st.
Proof.
  intros Hm Hr. rewrite !refs_registered_refs, Hm, Hr. reflexivity.
Qed.

Lemma map_update_nth_keep {A B} (h : A -> B) (g : A -> A) (n : nat) (l : list A) :
  (forall x, h (g x) = h x) -> map h (update_nth g n l) = map h l.
Proof.
  intro Hg. revert n; induction l as [|x l IH]; intros [|n]; simpl;
    try rewrite Hg; try rewrite IH; reflexivity.
Qed.

Lemma forallb_remove_nth {A} (p : A -> bool) (n : nat) (l : list A) :
  forallb p l = true -> forallb p (remove_nth n l) = true.
Proof.
  revert n; induction l as [|x l IH]; intros [|n]; simpl; try tauto.
  - intro H. apply andb_true_iff in H as [_ H]. exact H.
  - intro H. apply andb_true_iff in H as [H1 H2]. rewrite H1, (IH n H2). reflexivity.
Qed.

(** The three editors of the properties panel end in the state they
    started in (a failed step raises out of the callback), or change the
    current instance's connections or overrides only. *)
Lemma editors_run (cur : nat) (prop v : string) (st : app_state)
  (e : string -> string -> appM unit) :
  e = on_connection_select cur \/ e = on_name_enter cur \/ e = on_param_enter cur ->
  run_callback (e prop v) st = st \/
  exists g, (forall i, io_module_ref (g i) = io_module_ref i /\
                       io_instance_name (g i) = io_instance_name i) /\
    run_callback (e prop v) st = set_instances (update_nth g cur (st_instances st)) st.
Proof.
  intros [ -> | [ -> | -> ] ];
    unfold run_callback, on_connection_select, on_name_enter, on_param_enter,
      set_connections, set_parameter_values, app_bind, app_lift, app_get, app_modify; cbn;
    repeat match goal with
           | |- context [match ?x with Ok _ => _ | Exc _ => _ end] => destruct x
           end; cbn; try (left; reflexivity); right; eexists; split;
    try reflexivity; intro i; split; reflexivity.
Qed.

Lemma names_distinct_names (l l' : list inst_obj) :
  map io_instance_name l' = map io_instance_name l -> names_distinct l' = names_distinct l.
Proof.
  assert (Hx : forall n (a b : list inst_obj), map io_instance_name b = map io_instance_name a ->
            existsb (inst_named n) b = existsb (inst_named n) a).
  { intro n; induction a as [|x a IH]; intros [|y b]; simpl; try discriminate; [reflexivity|].
    intros [= Hxy Hr]. unfold inst_named at 1 3. rewrite Hxy, (IH b Hr). reflexivity. }
  revert l'; induction l as [|x l IH]; intros [|y l']; simpl; try discriminate; [reflexivity|].
  intros [= Hxy Hr]. rewrite Hxy, (IH l' Hr).
  destruct (io_instance_name x); try reflexivity. rewrite (Hx _ l l' Hr). reflexivity.
Qed.

(** Extra: editing a row of the properties panel ([on_connection_select],
    [on_name_enter], [on_param_enter]) never touches the module objects,
    [self.modules] or the log, never adds or removes an instance, and
    never changes which module an instance refers to or its name; so it
    keeps instance names distinct and module references registered.  This
    holds for every row text, value and selection, also when the callback
    raises. *)
Theorem editors_keep_frame (cur : nat) (prop v : string) (st : app_state)
  (e : string -> string -> appM unit) :
  e = on_connection_select cur \/ e = on_name_enter cur \/ e = on_param_enter cur ->
  let st' := run_callback (e prop v) st in
  st_heap st' = st_heap st /\ st_modules st' = st_modules st /\ st_log st' = st_log st /\
  map io_module_ref (st_instances st') = map io_module_ref (st_instances st) /\
  map io_instance_name (st_instances st') = map io_instance_name (st_instances st) /\
  names_distinct (st_instances st') = names_distinct (st_instances st) /\
  refs_registered st' = refs_registered st.
Proof.
  intro He. cbv zeta.
  assert (Hm : st_heap (run_callback (e prop v) st) = st_heap st /\
               st_modules (run_callback (e prop v) st) = st_modules st /\
               st_log (run_callback (e prop v) st) = st_log st /\
               map io_module_ref (st_instances (run_callback (e prop v) st)) =
                 map io_module_ref (st_instances st) /\
               map io_instance_name (st_instances (run_callback (e prop v) st)) =
                 map io_instance_name (st_instances st)).
  { destruct (editors_run cur prop v st e He) as [E|[g [Hg E]]]; rewrite E;
      [repeat split; reflexivity|].
    repeat split; try reflexivity; apply map_update_nth_keep; intro i; apply Hg. }
  destruct Hm as [H1 [H2 [H3 [H4 H5]]]].
  repeat split; try assumption.
  - apply names_distinct_names. exact H5.
  - apply refs_registered_frame; assumption.
Qed.

Lemma editors_keep_frame_witness :
  map io_module_ref (st_instances (run_callback (on_connection_select 0 "clk (input wire 1)" "wire")
                                    counter_session)) =
  map io_module_ref (st_instances counter_session).
Proof.
  exact (proj1 (proj2 (proj2 (proj2 (editors_keep_frame 0 "clk (input wire 1)" "wire"
           counter_session _ (or_introl eq_refl)))))).
Defined.

(** Extra: every instance keeps referring to a module object bound in
    [self.modules].  When this holds, it still holds after dropping a
    module on the instance list, after deleting a module (the check for
    instances using it is what keeps it), after deleting or renaming an
    instance, and after editing a row of the properties panel, whatever the
    selection and the dialog answers. *)
Theorem module_refs_stay_registered (st : app_state) :
  refs_registered st = true ->
  (forall module_name answer, refs_registered (run_callback (drop_module module_name answer) st) = true) /\
  (forall module_name, refs_registered (run_callback (delete_selected_module module_name) st) = true) /\
  (forall n, refs_registered (fst (delete_selected_instance n st)) = true) /\
  (forall old answer, refs_registered (fst (rename_selected_instance old answer st)) = true) /\
  (forall cur prop v e,
     e = on_connection_select cur \/ e = on_name_enter cur \/ e = on_param_enter cur ->
     refs_registered (run_callback (e prop v) st) = true).
Proof.
  intro Hr. split; [|split; [|split; [|split]]].
  - intros m a. destruct (drop_module_run m a st) as [E|[[e E]|[l [n [_ [Hl [_ E]]]]]]];
      rewrite E; destruct st as [h ms is lg]; try exact Hr.
    unfold refs_registered in *; simpl in *. rewrite forallb_app, Hr. simpl.
    rewrite (pdict_get_existsb ms m l Hl). reflexivity.
  - intro m. unfold run_callback, delete_selected_module, app_bind, app_get.
    destruct (pdict_get (st_modules st) m) as [l|] eqn:El; [|exact Hr].
    destruct (filter (fun inst => Nat.eqb (io_module_ref inst) l) (st_instances st)) as [|x r] eqn:Ef.
    + destruct st as [h ms is lg]. unfold refs_registered in *; simpl in *.
      apply forallb_forall. intros i Hi.
      apply (pdict_del_existsb ms m l); [exact El| |].
      * intro E. pose proof (filter_nil_false _ _ Ef i Hi) as F. simpl in F.
        rewrite E, Nat.eqb_refl in F. discriminate.
      * exact (proj1 (forallb_forall _ _) Hr i Hi).
    + destruct st; exact Hr.
  - intro n. unfold delete_selected_instance.
    destruct (find_instance n (st_instances st)); [|exact Hr].
    destruct st as [h ms is lg]; unfold refs_registered in *; simpl in *.
    apply forallb_remove_nth. exact Hr.
  - intros old [[|z new]|]; unfold rename_selected_instance;
      destruct (find_instance old (st_instances st)) as [k|]; try exact Hr.
    destruct (pystr_eqb (z :: new) old); [exact Hr|].
    destruct (existsb (inst_named (z :: new)) (st_instances st)); [destruct st; exact Hr|].
    rewrite <- Hr. apply refs_registered_frame; [reflexivity|].
    apply map_update_nth_keep. reflexivity.
  - intros cur prop v e He.
    destruct (editors_run cur prop v st e He) as [E|[g [Hg E]]]; rewrite E; [exact Hr|].
    rewrite <- Hr. apply refs_registered_frame; [reflexivity|].
    apply map_update_nth_keep. intro i; apply Hg.
Qed.

Lemma module_refs_stay_registered_witness :
  refs_registered (run_callback (delete_selected_module (S_ "counter")) counter_session) = true.
Proof.
  apply (proj1 (proj2 (module_refs_stay_registered counter_session
                         ltac:(vm_compute; reflexivity)))).
Defined.

Lemma app_iter_inv {A} (f : A -> appM unit) (P : app_state -> Prop) :
  (forall x st, P st -> P (snd (f x st))) ->
  forall l st, P st -> P (snd (app_iter f l st)).
Proof.
  intros Hf l; induction l as [|x l IH]; intros st H; simpl; [exact H|].
  unfold app_bind. pose proof (Hf x st H) as Hx.
  destruct (f x st) as [[[]|e] st']; simpl in *; auto.
Qed.

Lemma load_module_instances (item : pystr * pyval) (st : app_state) :
  st_instances (snd (load_module item st)) = st_instances st.
Proof.
  destruct item as [name d].
  unfold load_module, app_bind, app_lift, app_alloc, app_update_module, app_modify; cbn.
  repeat match goal with
         | |- context [match ?x with Ok _ => _ | Exc _ => _ end] => destruct x
         end; reflexivity.
Qed.

Lemma refs_registered_add_log (e : log_entry) (st : app_state) :
  refs_registered (add_log e st) = refs_registered st.
Proof. destruct st; reflexivity. Qed.

Lemma refs_registered_no_instances (st : app_state) :
  st_instances st = [] -> refs_registered st = true.
Proof. unfold refs_registered. intros ->. reflexivity. Qed.

Lemma modules_get_some (ms : list (pystr * nat)) (key : pyval) (l : nat) :
  modules_get ms key = Ok (Some l) -> existsb (fun kl => Nat.eqb (snd kl) l) ms = true.
Proof.
  intro H. destruct key; simpl in H;
    repeat match type of H with context [if ?b then _ else _] => destruct b end;
    try discriminate.
  injection H as H. exact (pdict_get_existsb ms _ l H).
Qed.

Ltac destruct_res :=
  match goal with
  | |- context [match ?x with Ok _ => _ | Exc _ => _ end] => destruct x eqn:?
  | |- context [match ?x with Some _ => _ | None => _ end] => destruct x eqn:?
  end.

Lemma load_instance_refs (x : pyval) (st : app_state) :
  refs_registered st = true -> refs_registered (snd (load_instance x st)) = true.
Proof.
  intro Hr. unfold load_instance, app_bind, app_lift, app_get, app_modify, app_ret; cbn.
  repeat (destruct_res; cbn; try exact Hr).
  match goal with H : modules_get _ _ = Ok (Some _) |- _ => pose proof (modules_get_some _ _ _ H) as Hl end.
  destruct st as [h ms is lg]; unfold refs_registered in *; simpl in *.
  rewrite forallb_app, Hr. simpl. rewrite Hl. reflexivity.
Qed.

Lemma deserialize_data_refs (s : pystr) (st : app_state) :
  refs_registered st = true -> refs_registered (snd (deserialize_data s st)) = true.
Proof.
  intro Hr. unfold deserialize_data, app_bind, app_lift, app_get, app_modify, app_log; cbn.
  destruct (json_loads s) as [data|e]; cbn; [|exact Hr].
  do 2 (destruct_res; cbn; try reflexivity).
  match goal with
  | |- context [app_iter load_module ?l ?s1] =>
      pose proof (app_iter_inv load_module (fun s => st_instances s = [])
                    (fun x st Hx => eq_trans (load_module_instances x st) Hx) l s1 eq_refl) as H2;
      destruct (app_iter load_module l s1) as [r S2]; simpl in H2
  end.
  pose proof (refs_registered_no_instances S2 H2) as R2.
  destruct r as [[]|e]; cbn; [|exact R2].
  do 2 (destruct_res; cbn; try exact R2).
  match goal with
  | |- context [app_iter load_instance ?l S2] =>
      pose proof (app_iter_inv load_instance (fun s => refs_registered s = true)
                    load_instance_refs l S2 R2) as R3;
      destruct (app_iter load_instance l S2) as [r S3]; simpl in R3
  end.
  destruct r as [[]|e]; cbn; exact R3.
Qed.

(** Extra: opening a project never leaves an instance referring to a
    module object that [self.modules] does not bind.  Whatever the file
    holds (no marker, a payload that is not base64, UTF-8 or JSON, or JSON
    of any shape, on which loading stops at the first error), when the
    invariant holds before [open_project] it holds after. *)
Theorem open_project_keeps_refs_registered (filepath : string) (f : file_read) (st : app_state) :
  refs_registered st = true -> refs_registered (run_callback (open_project filepath f) st) = true.
Proof.
  intro Hr. pose proof deserialize_data_refs as DR. revert DR.
  unfold run_callback, open_project, app_try, app_bind, app_lift, app_log, app_modify, app_ret.
  generalize deserialize_data as dd. intros dd DR. cbn.
  destruct (String.eqb filepath ""); cbn; [exact Hr|].
  destruct f as [content|cause]; cbn; [|exact Hr].
  repeat (destruct_res; cbn; try exact Hr).
  match goal with
  | |- context [dd ?s st] =>
      pose proof (DR s st Hr) as R;
      destruct (dd s st) as [[[]|e] S]; cbn; simpl in R; exact R
  end.
Qed.

Lemma open_project_keeps_refs_registered_witness :
  refs_registered (run_callback (open_project "top.v" (FileText empty_payload_text)) counter_session)
  = true.
Proof.
  apply open_project_keeps_refs_registered. vm_compute. reflexivity.
Defined.

(** Extra: opening a project changes nothing but the log unless the
    marker's payload decodes to JSON.  A file that cannot be read, that has
    no marker, or whose payload is not base64, not UTF-8 or not JSON
    leaves the module objects, [self.modules] and [self.instances] as they
    were, with one line logged. *)
Theorem open_project_undecodable_keeps_state (filepath : string) (f : file_read) (st : app_state) :
  String.eqb filepath "" = false ->
  (forall content m bs s, f = FileText content -> re_search tool_data_rx content = Some m ->
     b64decode (S_ (group_str m 1)) = Ok bs -> utf8_decode bs = Ok s ->
     exists e, json_loads s = Exc e) ->
  run_callback (open_project filepath f) st = add_log LogNoToolData st \/
  exists e, run_callback (open_project filepath f) st = add_log (LogError "Error loading project: " e) st.
Proof.
  intros Hfp Hj.
  unfold run_callback, open_project, app_try, app_bind, app_lift, app_log, app_modify, app_ret.
  rewrite Hfp.
  destruct f as [content|cause]; [|right; eexists; reflexivity].
  destruct (re_search tool_data_rx content) as [m|] eqn:Hm; [|left; reflexivity].
  destruct (b64decode (S_ (group_str m 1))) as [bs|e] eqn:Hb; [|right; eexists; reflexivity].
  destruct (utf8_decode bs) as [s|e] eqn:Hu; [|right; eexists; reflexivity].
  destruct (Hj content m bs s eq_refl Hm Hb Hu) as [e He].
  unfold deserialize_data, app_bind, app_lift. rewrite He.
  right. exists e. reflexivity.
Qed.

(** A project file whose payload is base64 for the text [not json]. *)
Lemma open_project_undecodable_keeps_state_witness :
  run_callback (open_project "p.v" (FileText "// VERILOG_TOOL_DATA: bm90IGpzb24="))
    counter_session = add_log LogNoToolData counter_session \/
  exists e, run_callback (open_project "p.v" (FileText "// VERILOG_TOOL_DATA: bm90IGpzb24="))
              counter_session = add_log (LogError "Error loading project: " e) counter_session.
Proof.
  apply open_project_undecodable_keeps_state; [reflexivity|].
  intros content m bs s Hf Hm Hb Hu. injection Hf as <-.
  vm_compute in Hm. injection Hm as <-.
  vm_compute in Hb. injection Hb as <-.
  vm_compute in Hu. injection Hu as <-.
  eexists. vm_compute. reflexivity.
Defined.

Lemma view_str_S (s : string) : view_str (PStr (S_ s)) = Some s.
Proof. exact (to_string_S_ s). Qed.

Lemma option_all_view_strs (ds : list string) :
  option_all (map view_str (map (fun d => PStr (S_ d)) ds)) = Some ds.
Proof.
  induction ds as [|d ds IH]; [reflexivity|].
  cbn [map option_all]. rewrite view_str_S, IH. reflexivity.
Qed.

Lemma view_port_val (p : port) : view_port (port_val p) = Some p.
Proof.
  destruct p as [n d t w ds]. unfold port_val, view_port. cbn [port_name port_direction
    port_dtype port_width port_dimensions].
  rewrite !pystr_eqb_refl. cbn [andb]. rewrite !view_str_S, option_all_view_strs. reflexivity.
Qed.

Lemma view_param_val (p : parameter) : view_param (param_val p) = Some p.
Proof.
  destruct p as [n v [t|]]; unfold param_val, view_param; cbn [param_name param_value param_type];
    rewrite !pystr_eqb_refl; cbn [andb]; rewrite !view_str_S; reflexivity.
Qed.

Lemma option_all_map_view {A B} (f : B -> option A) (g : A -> B) (xs : list A) :
  (forall x, f (g x) = Some x) -> option_all (map f (map g xs)) = Some xs.
Proof.
  intro H. induction xs as [|x xs IH]; [reflexivity|].
  cbn [map option_all]. rewrite H, IH. reflexivity.
Qed.

Lemma view_macros_val (ms : list (string * string)) :
  view_dict view_str (macros_val ms) = Some ms.
Proof.
  unfold view_dict, macros_val, view_keys.
  induction ms as [|[k v] ms IH]; [reflexivity|].
  cbn [map option_all]. rewrite to_string_S_, view_str_S, IH. reflexivity.
Qed.

Lemma view_module_obj_of (m : vmodule) : view_module (module_obj_of m) = Some m.
Proof.
  destruct m as [n fp ps pms ms]. unfold view_module, module_obj_of.
  cbn [mo_name mo_filepath mo_ports mo_parameters mo_macros mod_name mod_filepath
       mod_ports mod_parameters mod_macros].
  rewrite to_string_S_, view_str_S, view_macros_val. unfold view_list.
  rewrite (option_all_map_view view_port port_val ps view_port_val).
  rewrite (option_all_map_view view_param param_val pms view_param_val). reflexivity.
Qed.

Lemma pdict_get_set_other {V} (kvs : list (pystr * V)) (k k' : pystr) (v : V) :
  pystr_eqb k' k = false -> pdict_get (pdict_set kvs k v) k' = pdict_get kvs k'.
Proof.
  intro Hne. induction kvs as [|[k0 v0] r IH]; simpl.
  - rewrite Hne. reflexivity.
  - destruct (pystr_eqb k k0) eqn:E; simpl.
    + apply pystr_eqb_eq in E. subst k0. rewrite Hne. reflexivity.
    + rewrite IH. reflexivity.
Qed.

Lemma open_module_parsed (filepath : string) (f : file_read) (st : app_state) (m : vmodule) :
  String.eqb filepath "" = false -> parse_verilog_file filepath f = Ok (Some m) ->
  run_callback (open_module filepath f) st =
  add_log (LogParsed (S_ (mod_name m)))
    (mkState (st_heap st ++ [module_obj_of m])%list
       (pdict_set (st_modules st) (S_ (mod_name m)) (length (st_heap st)))
       (st_instances st) (st_log st)).
Proof.
  intros Hfp Hm. destruct st.
  unfold run_callback, open_module, app_try, app_bind, app_lift, app_alloc, app_modify, app_log.
  rewrite Hfp, Hm. reflexivity.
Qed.

(** Extra: what opening a Verilog file does.  When the file parses, one
    new module object is appended, its typed view is exactly the parsed
    module, the module's name is bound to it in [self.modules] (replacing
    an earlier binding of the same name) and every other name keeps its
    binding; the instances are untouched.  When it does not parse (an
    unreadable file, no module header, an error of the parser), only a
    line is logged. *)
Theorem open_module_binds_parsed_module (filepath : string) (f : file_read) (st : app_state) :
  String.eqb filepath "" = false ->
  (forall m, parse_verilog_file filepath f = Ok (Some m) ->
     let st' := run_callback (open_module filepath f) st in
     (exists o, st_heap st' = (st_heap st ++ [o])%list /\ view_module o = Some m) /\
     pdict_get (st_modules st') (S_ (mod_name m)) = Some (length (st_heap st)) /\
     (forall k, pystr_eqb k (S_ (mod_name m)) = false ->
        pdict_get (st_modules st') k = pdict_get (st_modules st) k) /\
     st_instances st' = st_instances st) /\
  ((forall m, parse_verilog_file filepath f <> Ok (Some m)) ->
     exists e, run_callback (open_module filepath f) st = add_log e st).
Proof.
  intro Hfp. split.
  - intros m Hm. cbv zeta. rewrite (open_module_parsed filepath f st m Hfp Hm).
    cbn [add_log st_heap st_modules st_instances st_log].
    split; [exists (module_obj_of m); split; [reflexivity|apply view_module_obj_of]|].
    split; [apply pdict_get_set_same|]. split; [|reflexivity].
    intros k Hk. apply pdict_get_set_other. exact Hk.
  - intro Hn. unfold run_callback, open_module, app_try, app_bind, app_lift, app_log, app_modify.
    rewrite Hfp. destruct (parse_verilog_file filepath f) as [[m|]|e] eqn:Hp.
    + exfalso. exact (Hn m eq_refl).
    + eexists. reflexivity.
    + eexists. reflexivity.
Qed.

Lemma open_module_binds_parsed_module_witness :
  pdict_get (st_modules (run_callback (open_module "counter.v" (FileText counter_text)) counter_session))
    (S_ "counter") = Some (length (st_heap counter_session)).
Proof.
  refine (proj1 (proj2 (proj1 (open_module_binds_parsed_module "counter.v" (FileText counter_text)
            counter_session eq_refl) counter_module _))).
  vm_compute. reflexivity.
Defined.

Lemma dict_set_keys_in {V} (d : list (string * V)) (k : string) (v : V) (x : string) :
  In x (map fst (dict_set d k v)) <-> x = k \/ In x (map fst d).
Proof.
  induction d as [|[k' v'] r IH]; simpl.
  - split; intros [H|[]]; left; congruence.
  - destruct (String.eqb k k') eqn:E; simpl.
    + apply String.eqb_eq in E. subst k'. split; [tauto|]. intros [H|H]; [left; congruence|exact H].
    + rewrite IH. tauto.
Qed.

Lemma dict_set_keys_nodup {V} (d : list (string * V)) (k : string) (v : V) :
  NoDup (map fst d) -> NoDup (map fst (dict_set d k v)).
Proof.
  induction d as [|[k' v'] r IH]; simpl; intro H.
  - constructor; [tauto|constructor].
  - inversion H as [|? ? Hn Hr]; subst.
    destruct (String.eqb k k') eqn:E; simpl; constructor; try assumption.
    + rewrite dict_set_keys_in. intros [Heq|Hin]; [|exact (Hn Hin)].
      subst k'. rewrite String.eqb_refl in E. discriminate.
    + exact (IH Hr).
Qed.

Lemma wires_of_instance_keys (inst : instance) (w : list (string * string)) :
  NoDup (map fst w) ->
  NoDup (map fst (wires_of_instance w inst)) /\
  forall x, In x (map fst (wires_of_instance w inst)) <->
    In x (map fst w) \/
    exists pn pi, In (pn, ("wire", x)) (inst_connections inst) /\
                  get_port_info inst pn = Some pi /\ x <> "".
Proof.
  unfold wires_of_instance.
  assert (G : forall cs w, NoDup (map fst w) ->
    NoDup (map fst (fold_left (fun wires (entry : string * (string * string)) =>
       let '(port_name, (conn_type, signal_name)) := entry in
       match get_port_info inst port_name with
       | None => wires
       | Some port_info =>
           if String.eqb signal_name "" then wires else
           if String.eqb conn_type "wire" then
             dict_set wires signal_name (format_width (port_width port_info))
           else wires
       end) cs w)) /\
    forall x, In x (map fst (fold_left (fun wires (entry : string * (string * string)) =>
       let '(port_name, (conn_type, signal_name)) := entry in
       match get_port_info inst port_name with
       | None => wires
       | Some port_info =>
           if String.eqb signal_name "" then wires else
           if String.eqb conn_type "wire" then
             dict_set wires signal_name (format_width (port_width port_info))
           else wires
       end) cs w)) <->
    In x (map fst w) \/
    exists pn pi, In (pn, ("wire", x)) cs /\ get_port_info inst pn = Some pi /\ x <> "").
  { induction cs as [|[pn [ct sn]] cs IH]; intros w0 Hw; simpl.
    - split; [exact Hw|]. intro x. split; [tauto|]. intros [H|[pn [pi [[] _]]]]; exact H.
    - destruct (get_port_info inst pn) as [pi|] eqn:Hpi.
      + destruct (String.eqb sn "") eqn:Hs.
        * destruct (IH w0 Hw) as [H1 H2]. split; [exact H1|]. intro x. rewrite H2.
          split; [intros [H|[pn' [pi' [Hin [Hp Hx]]]]]; [left; exact H|right; exists pn', pi'; tauto]|].
          intros [H|[pn' [pi' [[Heq|Hin] [Hp Hx]]]]]; [left; exact H| |right; exists pn', pi'; tauto].
          injection Heq as <- <- <-. apply String.eqb_eq in Hs. contradiction.
        * destruct (String.eqb ct "wire") eqn:Hc.
          -- destruct (IH _ (dict_set_keys_nodup w0 sn (format_width (port_width pi)) Hw))
               as [H1 H2].
             split; [exact H1|]. intro x. rewrite H2, dict_set_keys_in.
             apply String.eqb_eq in Hc. subst ct.
             split.
             ++ intros [[->|H]|[pn' [pi' [Hin [Hp Hx]]]]].
                ** right. exists pn, pi. split; [left; reflexivity|]. split; [exact Hpi|].
                   intro E. rewrite E in Hs. discriminate Hs.
                ** left. exact H.
                ** right. exists pn', pi'. tauto.
             ++ intros [H|[pn' [pi' [[Heq|Hin] [Hp Hx]]]]].
                ** left; right; exact H.
                ** injection Heq as <- <-. left; left; reflexivity.
                ** right. exists pn', pi'. tauto.
          -- destruct (IH w0 Hw) as [H1 H2]. split; [exact H1|]. intro x. rewrite H2.
             split; [intros [H|[pn' [pi' [Hin [Hp Hx]]]]]; [left; exact H|right; exists pn', pi'; tauto]|].
             intros [H|[pn' [pi' [[Heq|Hin] [Hp Hx]]]]]; [left; exact H| |right; exists pn', pi'; tauto].
             injection Heq; intros; subst; discriminate Hc.
      + destruct (IH w0 Hw) as [H1 H2]. split; [exact H1|]. intro x. rewrite H2.
        split; [intros [H|[pn' [pi' [Hin [Hp Hx]]]]]; [left; exact H|right; exists pn', pi'; tauto]|].
        intros [H|[pn' [pi' [[Heq|Hin] [Hp Hx]]]]]; [left; exact H| |right; exists pn', pi'; tauto].
        injection Heq as <- <- <-. congruence. }
  intro Hw. exact (G (inst_connections inst) w Hw).
Qed.

(** Extra: the wire declarations of [generate_top_module].  Each signal
    name is declared as a wire at most once, however many connections use
    it, and a name is declared exactly when some instance connects a port
    of its module as a ["wire"] to that non-empty signal name. *)
Theorem collect_wires_declared_once (instances : list instance) :
  NoDup (map fst (collect_wires instances)) /\
  forall x, In x (map fst (collect_wires instances)) <->
    exists inst pn pi, In inst instances /\ In (pn, ("wire", x)) (inst_connections inst) /\
                       get_port_info inst pn = Some pi /\ x <> "".
Proof.
  unfold collect_wires.
  assert (G : forall is w, NoDup (map fst w) ->
    NoDup (map fst (fold_left wires_of_instance is w)) /\
    forall x, In x (map fst (fold_left wires_of_instance is w)) <->
      In x (map fst w) \/
      exists inst pn pi, In inst is /\ In (pn, ("wire", x)) (inst_connections inst) /\
                         get_port_info inst pn = Some pi /\ x <> "").
  { induction is as [|i is IH]; intros w Hw; simpl.
    - split; [exact Hw|]. intro x. split; [tauto|]. intros [H|[_ [_ [_ [[] _]]]]]; exact H.
    - destruct (wires_of_instance_keys i w Hw) as [K1 K2].
      destruct (IH _ K1) as [H1 H2]. split; [exact H1|]. intro x. rewrite H2, K2.
      split.
      + intros [[H|[pn [pi Hc]]]|[inst [pn [pi [Hin Hc]]]]].
        * left; exact H.
        * right. exists i, pn, pi. split; [left; reflexivity|exact Hc].
        * right. exists inst, pn, pi. split; [right; exact Hin|exact Hc].
      + intros [H|[inst [pn [pi [[<-|Hin] Hc]]]]].
        * left; left; exact H.
        * left; right. exists pn, pi. exact Hc.
        * right. exists inst, pn, pi. split; [exact Hin|exact Hc]. }
  destruct (G instances [] (NoDup_nil _)) as [H1 H2]. split; [exact H1|].
  intro x. rewrite H2. simpl. tauto.
Qed.

Lemma update_nth_length_app {A} (f : A -> A) (h r : list A) :
  update_nth f (length h) (h ++ r) = (h ++ update_nth f 0 r)%list.
Proof. induction h as [|x h IH]; [reflexivity|]. simpl. rewrite IH. reflexivity. Qed.

Lemma load_module_heap (item : pystr * pyval) (st : app_state) :
  exists suf, st_heap (snd (load_module item st)) = (st_heap st ++ suf)%list.
Proof.
  destruct item as [name d]. destruct st as [h ms is lg].
  unfold load_module, app_bind, app_lift, app_alloc, app_update_module, app_modify; cbn.
  repeat (destruct_res; cbn);
    rewrite ?update_nth_length_app; eexists; (reflexivity || (rewrite app_nil_r; reflexivity)).
Qed.

Lemma load_instance_heap (x : pyval) (st : app_state) :
  st_heap (snd (load_instance x st)) = st_heap st.
Proof.
  unfold load_instance, app_bind, app_lift, app_get, app_modify, app_ret; cbn.
  repeat (destruct_res; cbn); reflexivity.
Qed.

Lemma heap_prefix_iter {A} (f : A -> appM unit) (h0 : list module_obj) :
  (forall x st, exists suf, st_heap (snd (f x st)) = (st_heap st ++ suf)%list) ->
  forall l st, (exists suf, st_heap st = (h0 ++ suf)%list) ->
  exists suf, st_heap (snd (app_iter f l st)) = (h0 ++ suf)%list.
Proof.
  intro Hf. apply (app_iter_inv f (fun s => exists suf, st_heap s = (h0 ++ suf)%list)).
  intros x st [suf Hs]. destruct (Hf x st) as [suf' E]. exists (suf ++ suf')%list.
  rewrite E, Hs, app_assoc. reflexivity.
Qed.

Lemma deserialize_data_heap (s : pystr) (st : app_state) :
  exists suf, st_heap (snd (deserialize_data s st)) = (st_heap st ++ suf)%list.
Proof.
  unfold deserialize_data, app_bind, app_lift, app_get, app_modify, app_log; cbn.
  destruct (json_loads s) as [data|e]; cbn; [|exists []; rewrite app_nil_r; reflexivity].
  do 2 (destruct_res; cbn; try (exists []; rewrite app_nil_r; reflexivity)).
  match goal with
  | |- context [app_iter load_module ?l ?s1] =>
      pose proof (heap_prefix_iter load_module (st_heap st) load_module_heap l s1
                    (ex_intro _ [] (eq_sym (app_nil_r _)))) as H2;
      destruct (app_iter load_module l s1) as [r S2]; simpl in H2
  end.
  destruct r as [[]|e]; cbn; [|exact H2].
  do 2 (destruct_res; cbn; try exact H2).
  match goal with
  | |- context [app_iter load_instance ?l S2] =>
      pose proof (heap_prefix_iter load_instance (st_heap st)
                    (fun x st => ex_intro _ [] (eq_trans (load_instance_heap x st)
                                                         (eq_sym (app_nil_r _)))) l S2 H2) as H3;
      destruct (app_iter load_instance l S2) as [r S3]; simpl in H3
  end.
  destruct r as [[]|e]; cbn; exact H3.
Qed.

(** Extra: module objects are never changed or discarded.  Every
    callback that touches the Registry ([open_module], [drop_module],
    [delete_selected_module], [refresh_selected_module], [open_project],
    [delete_selected_instance], [rename_selected_instance] and the editors
    of the properties panel) leaves the existing module objects as they
    are and can only append new ones; so an instance keeps the object it
    was created with even when its module is refreshed, reopened or
    deleted from [self.modules]. *)
Theorem module_objects_only_appended (st : app_state) :
  let grows st' := exists suf, st_heap st' = (st_heap st ++ suf)%list in
  (forall filepath f, grows (run_callback (open_module filepath f) st)) /\
  (forall module_name answer, grows (run_callback (drop_module module_name answer) st)) /\
  (forall module_name, grows (run_callback (delete_selected_module module_name) st)) /\
  (forall module_name fs, grows (run_callback (refresh_selected_module module_name fs) st)) /\
  (forall filepath f, grows (run_callback (open_project filepath f) st)) /\
  (forall n, grows (fst (delete_selected_instance n st))) /\
  (forall old answer, grows (fst (rename_selected_instance old answer st))) /\
  (forall cur prop v e,
     e = on_connection_select cur \/ e = on_name_enter cur \/ e = on_param_enter cur ->
     grows (run_callback (e prop v) st)).
Proof.
  cbv zeta. assert (Z : st_heap st = (st_heap st ++ [])%list) by (rewrite app_nil_r; reflexivity).
  split; [|split; [|split; [|split; [|split; [|split; [|split]]]]]].
  - intros fp f. unfold run_callback, open_module, app_try, app_bind, app_lift, app_alloc,
      app_modify, app_log, app_ret.
    destruct (String.eqb fp ""); [exists []; exact Z|].
    destruct (parse_verilog_file fp f) as [[m|]|e]; cbn; eexists;
      (reflexivity || exact Z).
  - intros m a. destruct (drop_module_run m a st) as [E|[[e E]|[l [n [_ [_ [_ E]]]]]]];
      rewrite E; exists []; destruct st; exact Z.
  - intro m. unfold run_callback, delete_selected_module, app_bind, app_get.
    destruct (pdict_get (st_modules st) m); [|exists []; exact Z].
    destruct (filter _ _); cbn; exists []; exact Z.
  - intros m fs. unfold run_callback, refresh_selected_module, app_try, app_bind, app_get,
      app_lift, app_alloc, app_modify, app_log, app_ret.
    destruct (pdict_get (st_modules st) m); [|exists []; exact Z].
    destruct (nth_error (st_heap st) n); [|exists []; exact Z].
    destruct (parse_verilog_file _ _) as [[nm|]|e]; cbn; eexists; (reflexivity || exact Z).
  - intros fp f. pose proof deserialize_data_heap as DH. revert DH.
    unfold run_callback, open_project, app_try, app_bind, app_lift, app_log, app_modify, app_ret.
    generalize deserialize_data as dd. intros dd DH.
    destruct (String.eqb fp ""); [exists []; exact Z|].
    destruct f as [content|cause]; cbn; [|exists []; exact Z].
    repeat (destruct_res; cbn; try (exists []; exact Z)).
    match goal with
    | |- context [dd ?s st] =>
        destruct (DH s st) as [suf E];
        destruct (dd s st) as [[[]|e] S]; cbn; simpl in E; exists suf; exact E
    end.
  - intro n. unfold delete_selected_instance.
    destruct (find_instance n (st_instances st)); exists []; exact Z.
  - intros old [[|z new]|]; unfold rename_selected_instance;
      destruct (find_instance old (st_instances st)); try (exists []; exact Z).
    destruct (pystr_eqb (z :: new) old); [exists []; exact Z|].
    destruct (existsb (inst_named (z :: new)) (st_instances st)); exists []; destruct st; exact Z.
  - intros cur prop v e He. exists [].
    destruct (editors_run cur prop v st e He) as [E|[g [_ E]]]; rewrite E; exact Z.
Qed.

Lemma filter_nil_existsb {A} (p : A -> bool) (l : list A) :
  filter p l = [] <-> existsb p l = false.
Proof.
  induction l as [|x l IH]; simpl; [tauto|].
  destruct (p x); simpl; [split; discriminate|exact IH].
Qed.

Lemma pdict_get_del_other {V} (kvs : list (pystr * V)) (k k' : pystr) :
  pystr_eqb k' k = false -> pdict_get (pdict_del kvs k) k' = pdict_get kvs k'.
Proof.
  intro Hne. induction kvs as [|[k0 v0] r IH]; simpl; [reflexivity|].
  destruct (pystr_eqb k k0) eqn:E; simpl.
  - apply pystr_eqb_eq in E. subst k0. rewrite Hne. reflexivity.
  - rewrite IH. reflexivity.
Qed.

Lemma pdict_get_none {V} (kvs : list (pystr * V)) (k : pystr) :
  existsb (fun kv => pystr_eqb k (fst kv)) kvs = false -> pdict_get kvs k = None.
Proof.
  induction kvs as [|[k0 v0] r IH]; simpl; [reflexivity|].
  destruct (pystr_eqb k k0); [discriminate|exact IH].
Qed.

Lemma pdict_get_del_same {V} (kvs : list (pystr * V)) (k : pystr) :
  keys_distinct kvs = true -> pdict_get (pdict_del kvs k) k = None.
Proof.
  induction kvs as [|[k0 v0] r IH]; simpl; [reflexivity|].
  intro H. apply andb_true_iff in H as [H1 H2].
  destruct (pystr_eqb k k0) eqn:E.
  - apply pystr_eqb_eq in E. subst k0. apply pdict_get_none. apply negb_true_iff. exact H1.
  - simpl. rewrite E. exact (IH H2).
Qed.

(** Extra: [delete_selected_module] refuses while an instance uses the
    module.  When the selected name is bound to a module object that some
    instance refers to, only the error dialog is recorded; when no
    instance refers to it, the name's binding is removed (the name no
    longer resolves when [self.modules] has distinct keys), every other
    name keeps its binding, and the instances and module objects stay as
    they are.  An unbound name changes nothing. *)
Theorem delete_selected_module_guard (module_name : pystr) (st : app_state) :
  (pdict_get (st_modules st) module_name = None ->
     run_callback (delete_selected_module module_name) st = st) /\
  forall l, pdict_get (st_modules st) module_name = Some l ->
  (existsb (fun i => Nat.eqb (io_module_ref i) l) (st_instances st) = true ->
     run_callback (delete_selected_module module_name) st =
     add_log (DialogModuleInUse module_name
                (length (filter (fun i => Nat.eqb (io_module_ref i) l) (st_instances st)))) st) /\
  (existsb (fun i => Nat.eqb (io_module_ref i) l) (st_instances st) = false ->
     let st' := run_callback (delete_selected_module module_name) st in
     st_instances st' = st_instances st /\ st_heap st' = st_heap st /\
     (forall k, pystr_eqb k module_name = false ->
        pdict_get (st_modules st') k = pdict_get (st_modules st) k) /\
     (keys_distinct (st_modules st) = true -> pdict_get (st_modules st') module_name = None)).
Proof.
  unfold run_callback, delete_selected_module, app_bind, app_get, app_log, app_modify.
  split; [intros ->; reflexivity|].
  intros l Hl. rewrite Hl. split.
  - intro He. destruct (filter (fun inst => Nat.eqb (io_module_ref inst) l) (st_instances st))
      eqn:Ef; [apply filter_nil_existsb in Ef; congruence|reflexivity].
  - intro He. apply filter_nil_existsb in He. rewrite He. cbv zeta. cbn.
    split; [reflexivity|]. split; [reflexivity|]. split.
    + intros k Hk. apply pdict_get_del_other. exact Hk.
    + apply pdict_get_del_same.
Qed.

Lemma delete_selected_module_guard_witness :
  run_callback (delete_selected_module (S_ "counter")) counter_session =
  add_log (DialogModuleInUse (S_ "counter") 1) counter_session.
Proof.
  apply (proj1 (proj2 (delete_selected_module_guard (S_ "counter") counter_session) 0%nat
                  ltac:(vm_compute; reflexivity))).
  vm_compute. reflexivity.
Defined.

Lemma view_instance_new (heap : list module_obj) (l : nat) (n : pystr) (o : module_obj)
  (m : vmodule) (s : string) :
  nth_error heap l = Some o -> view_module o = Some m -> to_string n = Some s ->
  view_instance heap (mkInstObj l (PStr n) (PDict []) (PDict [])) = Some (mkInstance m s [] []).
Proof.
  intros Ho Hm Hs. unfold view_instance. cbn [io_module_ref io_instance_name io_connections
    io_parameter_values]. rewrite Ho, Hm. unfold view_str. rewrite Hs. reflexivity.
Qed.

(** Extra: dropping a module on the instance list.  A cancelled or empty
    answer, or a name not bound in [self.modules], changes nothing; a name
    some instance already has only records the error dialog; a new name
    appends one instance at the end of the list, referring to the module's
    object, with no connections and no overrides, and its typed view is
    that module under that name. *)
Theorem drop_module_adds_instance (module_name : pystr) (st : app_state) :
  (forall answer, answer = None \/ answer = Some [] \/ pdict_get (st_modules st) module_name = None ->
     run_callback (drop_module module_name answer) st = st) /\
  forall l n, pdict_get (st_modules st) module_name = Some l -> n <> [] ->
  (existsb (inst_named n) (st_instances st) = true ->
     run_callback (drop_module module_name (Some n)) st =
     add_log (DialogNameExists n) st) /\
  (existsb (inst_named n) (st_instances st) = false ->
     run_callback (drop_module module_name (Some n)) st =
     add_log (LogInstantiated module_name n)
       (set_instances (st_instances st ++ [mkInstObj l (PStr n) (PDict []) (PDict [])])%list st) /\
     forall o m s, nth_error (st_heap st) l = Some o -> view_module o = Some m -> to_string n = Some s ->
       view_instance (st_heap st) (mkInstObj l (PStr n) (PDict []) (PDict [])) =
       Some (mkInstance m s [] [])).
Proof.
  split.
  - intros a Ha. unfold run_callback, drop_module, app_bind, app_get, app_ret.
    destruct Ha as [->|[->|Hn]]; [| |rewrite Hn; reflexivity];
      destruct (pdict_get (st_modules st) module_name); reflexivity.
  - intros l [|z n] Hl Hn; [contradiction|].
    unfold run_callback, drop_module, app_bind, app_get, app_log, app_modify.
    rewrite Hl.
    change (existsb (fun i => match io_instance_name i with
                              | PStr n0 => pystr_eqb n0 (z :: n) | _ => false end) (st_instances st))
      with (existsb (inst_named (z :: n)) (st_instances st)).
    split; intro He; rewrite He; [reflexivity|].
    split; [destruct st; reflexivity|]. intros o m s. apply view_instance_new.
Qed.

Lemma drop_module_adds_instance_witness :
  view_instance (st_heap counter_session) (mkInstObj 0%nat (PStr (S_ "u1")) (PDict []) (PDict [])) =
  Some (mkInstance counter_module "u1" [] []).
Proof.
  refine (proj2 (proj2 (proj2 (drop_module_adds_instance (S_ "counter") counter_session) 0%nat (S_ "u1")
            ltac:(vm_compute; reflexivity) ltac:(discriminate))
            ltac:(vm_compute; reflexivity)) _ _ _ _ _ _);
    vm_compute; reflexivity.
Defined.

(** Extra: the rows of the properties panel.  With no instance selected
    the panel is empty; otherwise it has one row per port and one per
    parameter, and every row names its item so that the editors find it
    again: the first word of a port row is the port's name and shows its
    connection kind and signal (empty when unconnected), and the second
    word of a parameter row is the parameter's name and shows its override
    or else its default.  This needs names that are non-empty words, as
    the parser's [\w+] makes them. *)
Theorem update_port_tree_rows (inst : instance) :
  update_port_tree None = [] /\
  length (update_port_tree (Some inst)) =
    (length (mod_ports (inst_module inst)) + length (mod_parameters (inst_module inst)))%nat /\
  ((forall p, In p (mod_ports (inst_module inst)) ->
      port_name p <> "" /\ all_chars (fun c => negb (is_space c)) (port_name p) = true) ->
   (forall q, In q (mod_parameters (inst_module inst)) ->
      param_name q <> "" /\ all_chars (fun c => negb (is_space c)) (param_name q) = true) ->
   forall row, In row (update_port_tree (Some inst)) ->
   (exists p, In p (mod_ports (inst_module inst)) /\
      list_index (py_split (fst (fst row))) 0 = Ok (port_name p) /\
      (snd (fst row), snd row) =
        match dict_get (inst_connections inst) (port_name p) with Some c => c | None => ("", "") end) \/
   (exists q, In q (mod_parameters (inst_module inst)) /\
      list_index (py_split (fst (fst row))) 1 = Ok (param_name q) /\
      snd (fst row) = match dict_get (inst_parameter_values inst) (param_name q) with
                      | Some v => v | None => param_value q end /\
      snd row = "")).
Proof.
  split; [reflexivity|]. split.
  - unfold update_port_tree. rewrite length_app, !length_map. reflexivity.
  - intros Hp Hq row Hr. unfold update_port_tree in Hr.
    apply in_app_or in Hr as [Hr|Hr]; apply in_map_iff in Hr as [x [<- Hx]].
    + left. exists x. split; [exact Hx|]. destruct (Hp x Hx) as [H1 H2].
      split; [exact (port_row_split inst x H1 H2)|].
      destruct (port_row_conn inst x) as [E1 E2]. rewrite E1, E2.
      destruct (dict_get (inst_connections inst) (port_name x)) as [[a b]|]; reflexivity.
    + right. exists x. split; [exact Hx|]. destruct (Hq x Hx) as [H1 H2].
      split; [exact (param_row_split inst x H1 H2)|]. split; reflexivity.
Qed.

Lemma update_port_tree_rows_witness :
  In ("clk (input wire 1)", "", "") (update_port_tree (Some u_counter_view)) /\
  ((exists p, In p (mod_ports (inst_module u_counter_view)) /\
      list_index (py_split "clk (input wire 1)") 0 = Ok (port_name p) /\
      ("", "") = match dict_get (inst_connections u_counter_view) (port_name p) with
                 | Some c => c | None => ("", "") end) \/
   (exists q, In q (mod_parameters (inst_module u_counter_view)) /\
      list_index (py_split "clk (input wire 1)") 1 = Ok (param_name q) /\
      "" = match dict_get (inst_parameter_values u_counter_view) (param_name q) with
           | Some v => v | None => param_value q end /\ "" = "")).
Proof.
  assert (Hin : In ("clk (input wire 1)", "", "") (update_port_tree (Some u_counter_view)))
    by (vm_compute; auto).
  split; [exact Hin|].
  refine (proj2 (proj2 (update_port_tree_rows u_counter_view)) _ _ _ Hin).
  - intros p Hp. vm_compute in Hp.
    repeat (destruct Hp as [<-|Hp]; [split; [discriminate|reflexivity]|]). destruct Hp.
  - intros q Hq. vm_compute in Hq. destruct Hq.
Defined.

Lemma lower_char_idem (c : ascii) : lower_char (lower_char c) = lower_char c.
Proof.
  destruct c as [b0 b1 b2 b3 b4 b5 b6 b7];
    destruct b0, b1, b2, b3, b4, b5, b6, b7; vm_compute; reflexivity.
Qed.

Lemma str_lower_idem (s : string) : str_lower (str_lower s) = str_lower s.
Proof. induction s as [|c s IH]; simpl; [reflexivity|]. rewrite lower_char_idem, IH. reflexivity. Qed.

Lemma ports_of_matches_lower (ms : list rmatch) (ps : list port) :
  ports_of_matches ms = Ok ps ->
  Forall (fun p => str_lower (port_direction p) = port_direction p /\
                   str_lower (port_dtype p) = port_dtype p /\ port_dimensions p = []) ps.
Proof.
  revert ps. induction ms as [|m ms IH]; intros ps H; simpl in H.
  - injection H as <-. constructor.
  - destruct (py_group m 1) as [g1|e]; [|discriminate]; simpl in H.
    destruct (py_group m 2) as [g2|e]; [|discriminate]; simpl in H.
    destruct (py_group m 3) as [g3|e]; [|discriminate]; simpl in H.
    destruct (py_group m 4) as [g4|e]; [|discriminate]; simpl in H.
    destruct (ports_of_matches ms) as [r|e] eqn:Er; [|discriminate]; simpl in H.
    injection H as <-. constructor; [|exact (IH r eq_refl)].
    cbn [port_direction port_dtype port_dimensions].
    split; [destruct g1; [apply str_lower_idem|reflexivity]|].
    split; [destruct g2; [apply str_lower_idem|reflexivity]|reflexivity].
Qed.

Lemma collect_macros_nodup (content : string) : NoDup (map fst (collect_macros content)).
Proof.
  unfold collect_macros.
  assert (G : forall ms acc, NoDup (map fst acc) ->
            NoDup (map fst (fold_left (fun macros m =>
                     dict_set macros (group_str m 1) (strip (group_str m 2))) ms acc))).
  { induction ms as [|m ms IH]; intros acc H; simpl; [exact H|].
    apply IH. apply dict_set_keys_nodup. exact H. }
  apply G. constructor.
Qed.

(** Extra: what [parse_verilog_file] guarantees about a module it
    returns: it records the path it was given, each macro name occurs
    once, and every port has a lower-case direction and data type
    ([input], [wire], ... whatever the case in the file, as the generator's
    comparisons with ["input"] and ["output"] need) and no unpacked
    dimensions. *)
Theorem parsed_module_normalised (filepath : string) (f : file_read) (m : vmodule) :
  parse_verilog_file filepath f = Ok (Some m) ->
  mod_filepath m = filepath /\ NoDup (map fst (mod_macros m)) /\
  Forall (fun p => str_lower (port_direction p) = port_direction p /\
                   str_lower (port_dtype p) = port_dtype p /\ port_dimensions p = [])
    (mod_ports m).
Proof.
  destruct f as [content0|cause]; simpl; [|discriminate].
  destruct (re_search module_rx _) as [mm|]; [|discriminate].
  destruct (ports_of_matches _) as [ps|e] eqn:Ep; simpl; [|discriminate].
  intros [= <-]. cbn [mod_filepath mod_macros mod_ports].
  split; [reflexivity|]. split; [apply collect_macros_nodup|].
  exact (ports_of_matches_lower _ _ Ep).
Qed.

Lemma parsed_module_normalised_witness :
  NoDup (map fst (mod_macros counter_module)) /\
  Forall (fun p => str_lower (port_direction p) = port_direction p /\
                   str_lower (port_dtype p) = port_dtype p /\ port_dimensions p = [])
    (mod_ports counter_module).
Proof.
  exact (proj2 (parsed_module_normalised "counter.v" (FileText counter_text) counter_module
                  ltac:(vm_compute; reflexivity))).
Defined.

(** Extra: what refreshing a module does.  When the selected name is
    bound to a module object, the file at that object's path is parsed
    again; on success a new object is appended that keeps the old object's
    [filepath] value and carries the new name, ports, parameters and
    macros, and the selected name (not the new module's name) is re-bound
    to it; every other name and every instance are untouched.  When the
    file no longer parses, only a line is logged. *)
Theorem refresh_selected_module_rebinds (module_name : pystr) (fs : pyval -> file_read)
  (st : app_state) (l : nat) (o : module_obj) :
  pdict_get (st_modules st) module_name = Some l -> nth_error (st_heap st) l = Some o ->
  (forall m, parse_verilog_file "" (fs (mo_filepath o)) = Ok (Some m) ->
     let st' := run_callback (refresh_selected_module module_name fs) st in
     (exists o', st_heap st' = (st_heap st ++ [o'])%list /\ mo_filepath o' = mo_filepath o /\
        forall fp, view_str (mo_filepath o) = Some fp ->
          view_module o' = Some (mkModule (mod_name m) fp (mod_ports m) (mod_parameters m)
                                   (mod_macros m))) /\
     pdict_get (st_modules st') module_name = Some (length (st_heap st)) /\
     (forall k, pystr_eqb k module_name = false ->
        pdict_get (st_modules st') k = pdict_get (st_modules st) k) /\
     st_instances st' = st_instances st) /\
  ((forall m, parse_verilog_file "" (fs (mo_filepath o)) <> Ok (Some m)) ->
     exists e, run_callback (refresh_selected_module module_name fs) st = add_log e st).
Proof.
  intros Hl Ho.
  unfold run_callback, refresh_selected_module, app_try, app_bind, app_get, app_lift, app_alloc,
    app_modify, app_log, app_ret.
  rewrite Hl, Ho. split.
  - intros m Hm. rewrite Hm. cbv zeta. cbn [snd].
    destruct st as [h ms is lg]. cbn [st_heap st_modules st_instances st_log add_log set_modules].
    split; [|split; [apply pdict_get_set_same|split; [|reflexivity]]].
    + eexists. split; [reflexivity|]. split; [reflexivity|].
      intros fp Hfp. destruct m as [n fp0 ps pms mcs].
      unfold view_module, module_obj_of.
      cbn [mo_name mo_filepath mo_ports mo_parameters mo_macros mod_name mod_ports
           mod_parameters mod_macros].
      rewrite to_string_S_, Hfp, view_macros_val. unfold view_list.
      rewrite (option_all_map_view view_port port_val ps view_port_val).
      rewrite (option_all_map_view view_param param_val pms view_param_val). reflexivity.
    + intros k Hk. apply pdict_get_set_other. exact Hk.
  - intro Hn. destruct (parse_verilog_file "" (fs (mo_filepath o))) as [[m|]|e].
    + exfalso. exact (Hn m eq_refl).
    + eexists. reflexivity.
    + eexists. reflexivity.
Qed.

Lemma refresh_selected_module_rebinds_witness :
  pdict_get (st_modules (run_callback (refresh_selected_module (S_ "counter")
                                         (fun _ => FileText counter_text)) counter_session))
    (S_ "counter") = Some (length (st_heap counter_session)).
Proof.
  refine (proj1 (proj2 (proj1 (refresh_selected_module_rebinds (S_ "counter")
            (fun _ => FileText counter_text) counter_session 0%nat
            (module_obj_of counter_module) ltac:(vm_compute; reflexivity)
            ltac:(vm_compute; reflexivity))
            (mkModule "counter" "" (mod_ports counter_module) [] []) _))).
  vm_compute. reflexivity.
Defined.

Lemma names_distinct_after (pre post : list inst_obj) (i : inst_obj) (a : pystr) :
  names_distinct (pre ++ i :: post) = true -> io_instance_name i = PStr a ->
  existsb (inst_named a) post = false.
Proof.
  intros Hd Ei. induction pre as [|j pre IH]; simpl in Hd.
  - rewrite Ei in Hd. apply andb_prop in Hd as [H _]. apply negb_true_iff. exact H.
  - apply andb_prop in Hd as [_ Hd]. exact (IH Hd).
Qed.

Lemma inst_named_name (n : pystr) (i : inst_obj) :
  inst_named n i = true -> io_instance_name i = PStr n.
Proof.
  unfold inst_named. destruct (io_instance_name i); try discriminate.
  intro H. apply pystr_eqb_eq in H. subst. reflexivity.
Qed.

(** Extra: renaming is undone by renaming back.  When instance names are
    distinct, renaming the instance [old] to a free name [new] and then
    [new] back to [old] restores the instances exactly (same module,
    connections, overrides and position), and prints the two renaming
    lines. *)
Theorem rename_back_restores (old new : pystr) (st : app_state) (pre post : list inst_obj)
  (i : inst_obj) :
  st_instances st = (pre ++ i :: post)%list -> inst_named old i = true ->
  names_distinct (st_instances st) = true ->
  old <> [] -> new <> [] -> pystr_eqb new old = false ->
  existsb (inst_named new) (st_instances st) = false ->
  let r1 := rename_selected_instance old (Some new) st in
  let r2 := rename_selected_instance new (Some old) (fst r1) in
  fst r2 = st /\
  (snd r1 ++ snd r2)%list = [S_ "Renamed instance: " ++ old ++ S_ " -> " ++ new;
                             S_ "Renamed instance: " ++ new ++ S_ " -> " ++ old]%list.
Proof.
  intros E Hi Hd Ho Hn Hno Hf. cbv zeta.
  pose proof (inst_named_name old i Hi) as Ei.
  assert (Hpre : existsb (inst_named old) pre = false).
  { rewrite E in Hd. clear E Hf. induction pre as [|j pre IH]; [reflexivity|].
    simpl in Hd |- *. apply andb_prop in Hd as [H1 H2].
    rewrite (IH H2), orb_false_r.
    destruct (inst_named old j) eqn:Ej; [|reflexivity].
    rewrite (inst_named_name old j Ej) in H1. rewrite existsb_app in H1. simpl in H1.
    rewrite Hi in H1. rewrite orb_true_r in H1. discriminate. }
  assert (Hpost : existsb (inst_named old) post = false)
    by (rewrite E in Hd; exact (names_distinct_after pre post i old Hd Ei)).
  rewrite E in Hf. rewrite existsb_app in Hf. apply orb_false_iff in Hf as [Hfpre Hfpost].
  destruct new as [|z n]; [contradiction|].
  assert (R1 : rename_selected_instance old (Some (z :: n : pystr)) st =
    (set_instances (pre ++ mkInstObj (io_module_ref i) (PStr (z :: n)) (io_connections i)
                                     (io_parameter_values i) :: post) st,
     [S_ "Renamed instance: " ++ old ++ S_ " -> " ++ (z :: n)]%list)).
  { unfold rename_selected_instance. rewrite E, (find_instance_at old pre post i Hpre Hi).
    cbv beta iota. rewrite Hno, existsb_app, Hfpre, Hfpost. cbv beta iota.
    rewrite update_nth_at_app. reflexivity. }
  rewrite R1. cbn [fst snd].
  unfold rename_selected_instance. cbn [st_instances set_instances].
  rewrite (find_instance_at (z :: n) pre post); [| exact Hfpre | unfold inst_named; cbn [io_instance_name]; apply pystr_eqb_refl].
  destruct old as [|y o]; [contradiction|]. rewrite pystr_eqb_sym, Hno.
  rewrite existsb_app, Hpre. cbn [existsb].
  replace (inst_named (y :: o) (mkInstObj (io_module_ref i) (PStr (z :: n)) (io_connections i)
             (io_parameter_values i))) with false
    by (unfold inst_named; cbn [io_instance_name]; rewrite Hno; reflexivity).
  rewrite Hpost. cbn [orb fst snd].
  rewrite update_nth_at_app. cbn [io_module_ref io_connections io_parameter_values].
  split; [|reflexivity].
  destruct i as [r nm c pv]. cbn in Ei |- *. rewrite <- Ei, <- E. destruct st; reflexivity.
Qed.

Lemma rename_back_restores_witness :
  fst (rename_selected_instance (S_ "u0") (Some (S_ "u_counter"))
         (fst (rename_selected_instance (S_ "u_counter") (Some (S_ "u0")) counter_session)))
  = counter_session.
Proof.
  exact (proj1 (rename_back_restores (S_ "u_counter") (S_ "u0") counter_session [] [] u_counter_obj
                  ltac:(vm_compute; reflexivity) ltac:(vm_compute; reflexivity)
                  ltac:(vm_compute; reflexivity) ltac:(discriminate) ltac:(discriminate)
                  ltac:(vm_compute; reflexivity) ltac:(vm_compute; reflexivity))).
Defined.
